(** * stack_health: a shallow embedding of tools/stack_health.py

    The script is a sequential checklist: it shells out to kubectl, reads
    JSON, sends a few HTTP requests and prints pass / warn / fail lines
    while it keeps three counters.  Everything outside the script (the file
    system, child processes, sockets, the resolver and a few Python builtins)
    is gathered in a record [World]; the script itself is embedded as
    functions in a state-and-exception monad.

    Strings are Rocq strings read as sequences of code points below 256. *)

From Stdlib Require Import ZArith List String Ascii Bool Lia.
From Stdlib Require Import DecimalString Relations SpecFloat.
Import ListNotations.
Open Scope string_scope.
Open Scope Z_scope.

Set Implicit Arguments.
Set Warnings "-register-all".

(** ** Python exceptions and the pure error monad *)

(** An exception is its class name and [str(e)]. Only subclasses of
    [Exception] are modelled. *)
Record exn : Type := Exn { exn_type : string; exn_msg : string }.

Inductive result (A : Type) : Type :=
| Ok (a : A)
| Raise (e : exn).
Arguments Ok {A} a.
Arguments Raise {A} e.

Definition rbind {A B} (r : result A) (k : A -> result B) : result B :=
  match r with
  | Ok a => k a
  | Raise e => Raise e
  end.

Declare Scope res_scope.
Delimit Scope res_scope with res.
Notation "'let?' x ':=' r 'in' k" := (rbind r (fun x => k))
  (at level 10, x name, r at level 100, k at level 200) : res_scope.

(** ** Strings, the way the builtins of [str] treat them *)

Module Str.

Definition code (a : ascii) : N := N_of_ascii a.

(** [str.isspace] on code points below 256; this is what [strip] removes. *)
Definition is_space (a : ascii) : bool :=
  let n := code a in
  ((9 <=? n) && (n <=? 13) || (28 <=? n) && (n <=? 32)
   || (n =? 133) || (n =? 160))%N.

Fixpoint lstrip (s : string) : string :=
  match s with
  | String a t => if is_space a then lstrip t else s
  | EmptyString => EmptyString
  end.

(** [rstrip] keeps a character when it is not a space or when something
    survives to its right. *)
Fixpoint rstrip (s : string) : string :=
  match s with
  | String a t =>
      match rstrip t with
      | EmptyString => if is_space a then EmptyString else String a EmptyString
      | t' => String a t'
      end
  | EmptyString => EmptyString
  end.

Definition strip (s : string) : string := rstrip (lstrip s).

(** [needle in hay] for two strings. *)
Fixpoint contains (needle hay : string) : bool :=
  String.prefix needle hay
  || match hay with
     | String _ t => contains needle t
     | EmptyString => false
     end.

Definition startswith (s p : string) : bool := String.prefix p s.

(** [str.lower] on code points below 256: A-Z and the Latin-1 capitals. *)
Definition lower_char (a : ascii) : ascii :=
  let n := code a in
  if ((65 <=? n) && (n <=? 90)
      || (192 <=? n) && (n <=? 222) && negb (n =? 215))%N
  then ascii_of_N (n + 32) else a.

Fixpoint lower (s : string) : string :=
  match s with
  | String a t => String (lower_char a) (lower t)
  | EmptyString => EmptyString
  end.

(** Line boundaries of [str.splitlines] below 256, CR apart. *)
Definition is_break (a : ascii) : bool :=
  let n := code a in
  ((n =? 10) || (n =? 11) || (n =? 12) || (n =? 28) || (n =? 29)
   || (n =? 30) || (n =? 133))%N.

Definition is_cr (a : ascii) : bool := (code a =? 13)%N.
Definition is_lf (a : ascii) : bool := (code a =? 10)%N.

(** [cur] is the line read so far. A final line break opens no new line. *)
Fixpoint splitlines_from (cur s : string) : list string :=
  match s with
  | EmptyString =>
      match cur with EmptyString => [] | _ => [cur] end
  | String a t =>
      if is_cr a then
        match t with
        | String b t' =>
            if is_lf b then cur :: splitlines_from EmptyString t'
            else cur :: splitlines_from EmptyString t
        | EmptyString => cur :: splitlines_from EmptyString t
        end
      else if is_break a then cur :: splitlines_from EmptyString t
      else splitlines_from (cur ++ String a EmptyString) t
  end.

Definition splitlines (s : string) : list string :=
  splitlines_from EmptyString s.

(** [str(n)] for an int. *)
Definition of_Z (z : Z) : string := NilZero.string_of_int (Z.to_int z).

Definition nl : string := String (ascii_of_N 10) EmptyString.
Definition esc : string := String (ascii_of_N 27) EmptyString.

(** [s * n] *)
Fixpoint times (s : string) (n : nat) : string :=
  match n with
  | O => EmptyString
  | S k => s ++ times s k
  end.

(** [a or b] on strings. *)
Definition or_else (a b : string) : string :=
  match a with EmptyString => b | _ => a end.

End Str.

(** ** JSON values as [json.loads] returns them *)

(** A [JObj] lists the items of a dict; looking a key up returns its first
    binding. *)
Inductive json : Type :=
| JNull
| JBool (b : bool)
| JInt (z : Z)
| JFloat (f : spec_float)
| JStr (s : string)
| JArr (l : list json)
| JObj (kv : list (string * json)).

Module Py.

Definition type_name (v : json) : string :=
  match v with
  | JNull => "NoneType"
  | JBool _ => "bool"
  | JInt _ => "int"
  | JFloat _ => "float"
  | JStr _ => "str"
  | JArr _ => "list"
  | JObj _ => "dict"
  end.

Definition quote (s : string) : string := "'" ++ s ++ "'".

(** The wording of the messages follows CPython 3.11; nothing proved below
    depends on it. *)
Definition AttributeError (v : json) (attr : string) : exn :=
  Exn "AttributeError"
      (quote (type_name v) ++ " object has no attribute " ++ quote attr).
Definition KeyError (shown : string) : exn := Exn "KeyError" shown.
Definition TypeError (msg : string) : exn := Exn "TypeError" msg.
Definition not_subscriptable (v : json) : exn :=
  TypeError (quote (type_name v) ++ " object is not subscriptable").
Definition not_iterable (v : json) : exn :=
  TypeError (quote (type_name v) ++ " object is not iterable").

Fixpoint lookup (k : string) (kv : list (string * json)) : option json :=
  match kv with
  | [] => None
  | (k', v) :: rest => if String.eqb k' k then Some v else lookup k rest
  end.

(** [bool(v)] *)
Definition truthy (v : json) : bool :=
  match v with
  | JNull => false
  | JBool b => b
  | JInt z => negb (z =? 0)
  | JFloat (S754_zero _) => false
  | JFloat _ => true
  | JStr EmptyString => false
  | JStr _ => true
  | JArr [] => false
  | JArr _ => true
  | JObj [] => false
  | JObj _ => true
  end.

(** [d.get(k, dflt)]: only a dict has the method. *)
Definition get (d : json) (k : string) (dflt : json) : result json :=
  match d with
  | JObj kv => Ok (match lookup k kv with Some v => v | None => dflt end)
  | _ => Raise (AttributeError d "get")
  end.

(** [d[k]] for a string key. *)
Definition getitem (d : json) (k : string) : result json :=
  match d with
  | JObj kv =>
      match lookup k kv with
      | Some v => Ok v
      | None => Raise (KeyError (quote k))
      end
  | JStr _ => Raise (TypeError "string indices must be integers, not 'str'")
  | JArr _ =>
      Raise (TypeError "list indices must be integers or slices, not str")
  | _ => Raise (not_subscriptable d)
  end.

(** [v == s] for a string [s]; a value of another type is never equal. *)
Definition eq_str (v : json) (s : string) : bool :=
  match v with
  | JStr t => String.eqb t s
  | _ => false
  end.

Fixpoint chars (s : string) : list json :=
  match s with
  | String a t => JStr (String a EmptyString) :: chars t
  | EmptyString => []
  end.

(** What [for x in v] goes through: the elements of a list, the keys of a
    dict, the characters of a string. *)
Definition iter (v : json) : result (list json) :=
  match v with
  | JArr l => Ok l
  | JObj kv => Ok (map (fun p => JStr (fst p)) kv)
  | JStr s => Ok (chars s)
  | _ => Raise (not_iterable v)
  end.

Definition len (v : json) : result Z :=
  match v with
  | JArr l => Ok (Z.of_nat (List.length l))
  | JObj kv => Ok (Z.of_nat (List.length kv))
  | JStr s => Ok (Z.of_nat (String.length s))
  | _ => Raise (TypeError ("object of type " ++ quote (type_name v)
                            ++ " has no len()"))
  end.

(** [a or b] *)
Definition or_else (a b : json) : json := if truthy a then a else b.

End Py.

(** ** pod_ready *)

Section PodReady.
Local Open Scope res_scope.

(** [all(c.get("ready") for c in cs)], consumed lazily: the first falsy
    entry ends it, an entry without [get] raises when it is reached. *)
Fixpoint all_ready (cs : list json) : result bool :=
  match cs with
  | [] => Ok true
  | c :: rest =>
      let? r := Py.get c "ready" JNull in
      if Py.truthy r then all_ready rest else Ok false
  end.

(** The body of the [try]. *)
Definition pod_ready_body (pod : json) : result bool :=
  let? st := Py.get pod "status" (JObj []) in
  let? phase := Py.get st "phase" JNull in
  if negb (Py.eq_str phase "Running") then Ok false
  else
    let? st' := Py.get pod "status" (JObj []) in
    let? raw := Py.get st' "containerStatuses" JNull in
    let cs := Py.or_else raw (JArr []) in
    let? items := Py.iter cs in
    let? a := all_ready items in
    if a then (let? n := Py.len cs in Ok (0 <? n)) else Ok false.

(** [try: ... except Exception: return False] *)
Definition pod_ready (pod : json) : result bool :=
  match pod_ready_body pod with
  | Ok b => Ok b
  | Raise _ => Ok false
  end.

End PodReady.

(** ** What the script prints and remembers *)

Definition GREEN : string := Str.esc ++ "[32m".
Definition RED : string := Str.esc ++ "[31m".
Definition YELLOW : string := Str.esc ++ "[33m".
Definition CYAN : string := Str.esc ++ "[36m".
Definition RESET : string := Str.esc ++ "[0m".
(** The three icons lie above 255; they are kept as their UTF-8 bytes. *)
Definition CHECK : string := "✅".
Definition CROSS : string := "❌".
Definition WARN : string := "⚠️ ".

(** One entry per call of an output function. *)
Inductive line : Type :=
| Pass (msg : string)      (* ok(msg) *)
| Failure (msg : string)   (* fail(msg) *)
| Warning (msg : string)   (* warn(msg) *)
| Header (msg : string)    (* info(msg) *)
| Text (s : string).       (* print(s) *)

(** The characters that reach standard output for an entry. *)
Definition render (l : line) : string :=
  match l with
  | Pass msg => GREEN ++ CHECK ++ " " ++ msg ++ RESET
  | Failure msg => RED ++ CROSS ++ " " ++ msg ++ RESET
  | Warning msg => YELLOW ++ WARN ++ " " ++ msg ++ RESET
  | Header msg => CYAN ++ msg ++ RESET
  | Text s => s
  end.

Inductive proc_event : Type :=
| Spawned (cmd : string)   (* subprocess.Popen(cmd, shell=True, ...) *)
| Killed (cmd : string).   (* p.kill() *)

(** The three counters, and one assignment to one of them: the value the
    counter had and the value it gets. *)
Inductive counter : Type := CPassed | CFailed | CWarned.

Record write : Type := Write {
  target : counter;
  old_value : Z;
  new_value : Z
}.

(** [passed], [failed], [warned] are the three locals of [main];
    [printed] is standard output, [procs] the child processes touched,
    [clock] counts the calls made to the outside world and [writes] lists
    the assignments made to the three locals, in the order they are made. *)
Record state : Type := State {
  passed : Z;
  failed : Z;
  warned : Z;
  printed : list line;
  procs : list proc_event;
  clock : nat;
  writes : list write
}.

Definition initial : state := State 0 0 0 [] [] 0 [].

(** ** The monad of the script: state that survives an exception *)

Definition M (A : Type) : Type := state -> result A * state.

Definition ret {A} (a : A) : M A := fun s => (Ok a, s).
Definition raise {A} (e : exn) : M A := fun s => (Raise e, s).
Definition bind {A B} (m : M A) (k : A -> M B) : M B :=
  fun s =>
    match m s with
    | (Ok a, s') => k a s'
    | (Raise e, s') => (Raise e, s')
    end.
Definition lift {A} (r : result A) : M A := fun s => (r, s).

(** [try: body except Exception as e: handler e] *)
Definition try_except {A} (body : M A) (handler : exn -> M A) : M A :=
  fun s =>
    match body s with
    | (Ok a, s') => (Ok a, s')
    | (Raise e, s') => handler e s'
    end.

Declare Scope m_scope.
Delimit Scope m_scope with M.
Notation "x <- m ;; k" := (bind m (fun x => k))
  (at level 61, m at next level, right associativity) : m_scope.
Notation "' p <- m ;; k" := (bind m (fun x => match x with p => k end))
  (at level 61, p pattern, m at next level, right associativity) : m_scope.
Notation "m ;; k" := (bind m (fun _ => k))
  (at level 61, right associativity) : m_scope.

Fixpoint for_each {A} (l : list A) (body : A -> M unit) : M unit :=
  match l with
  | [] => ret tt
  | x :: rest => bind (body x) (fun _ => for_each rest body)
  end.

Definition emit (l : line) : M unit :=
  fun s => (Ok tt, State (passed s) (failed s) (warned s)
                         (printed s ++ [l]) (procs s) (clock s) (writes s)).
Definition ok (msg : string) : M unit := emit (Pass msg).
Definition fail (msg : string) : M unit := emit (Failure msg).
Definition warn (msg : string) : M unit := emit (Warning msg).
Definition info (msg : string) : M unit := emit (Header msg).
Definition print (s : string) : M unit := emit (Text s).

(** [passed += 1], [failed += 1], [warned += 1] *)
Definition incr_passed : M unit :=
  fun s => (Ok tt, State (passed s + 1) (failed s) (warned s)
                         (printed s) (procs s) (clock s)
                         (writes s
                          ++ [Write CPassed (passed s) (passed s + 1)])).
Definition incr_failed : M unit :=
  fun s => (Ok tt, State (passed s) (failed s + 1) (warned s)
                         (printed s) (procs s) (clock s)
                         (writes s
                          ++ [Write CFailed (failed s) (failed s + 1)])).
Definition incr_warned : M unit :=
  fun s => (Ok tt, State (passed s) (failed s) (warned s + 1)
                         (printed s) (procs s) (clock s)
                         (writes s
                          ++ [Write CWarned (warned s) (warned s + 1)])).

(** [passed = 0], [failed = 0], [warned = 0] (lines 98-100). *)
Definition zero_passed : M unit :=
  fun s => (Ok tt, State 0 (failed s) (warned s)
                         (printed s) (procs s) (clock s)
                         (writes s ++ [Write CPassed (passed s) 0])).
Definition zero_failed : M unit :=
  fun s => (Ok tt, State (passed s) 0 (warned s)
                         (printed s) (procs s) (clock s)
                         (writes s ++ [Write CFailed (failed s) 0])).
Definition zero_warned : M unit :=
  fun s => (Ok tt, State (passed s) (failed s) 0
                         (printed s) (procs s) (clock s)
                         (writes s ++ [Write CWarned (warned s) 0])).

Definition record_proc (ev : proc_event) : M unit :=
  fun s => (Ok tt, State (passed s) (failed s) (warned s)
                         (printed s) (procs s ++ [ev]) (clock s) (writes s)).

(** The number of the next call to the outside world. *)
Definition tick : M nat :=
  fun s => (Ok (clock s), State (passed s) (failed s) (warned s)
                                (printed s) (procs s) (S (clock s))
                                (writes s)).

(** ** The outside world *)

(** How one child process ends, seen from [sh]. *)
Inductive proc_outcome : Type :=
| Exited (rc : Z) (stdout stderr : string)
| TimeoutExpired
| PopenRaises (e : exn)
| CommunicateRaises (e : exn).

(** One HTTP exchange, step by step as [http_probe] performs it. *)
Record http_exchange : Type := Exchange {
  hx_context : result unit;            (* ssl.create_default_context() *)
  hx_connect : result unit;            (* HTTP(S)Connection(ip, port, ...) *)
  hx_request : result unit;            (* conn.request("GET", path, ...) *)
  hx_response : result (Z * string);   (* conn.getresponse(): status, reason *)
  hx_read : result string;             (* resp.read(2000) *)
  hx_close : result unit               (* conn.close() *)
}.

(** Every oracle takes the number of the call, so that the world may answer
    the same question differently later in the run. The last four fields are
    Python builtins the script calls and this file does not spell out. *)
Record World : Type := {
  isfile : nat -> string -> bool;
  read_text : nat -> string -> result string;
  popen : nat -> string -> Z -> proc_outcome;
  connect : nat -> string -> string -> string -> string -> http_exchange;
  gethostbyname : nat -> string -> result string;
  json_loads : string -> result json;
  decode_utf8_ignore : string -> string;
  py_repr : json -> string;
  int_of_str : string -> result Z
}.

(** The parsed command line, [argparse.Namespace]. *)
Record Namespace : Type := Args {
  kubeconfig : string;
  ip : string;
  argocd : string;
  grafana : string;
  whoami : string;
  https : bool
}.

(** ** More of Python's dynamic operations on parsed JSON *)

Module PyOps.
Import Py.

(** [v[0]] *)
Definition index0 (v : json) : result json :=
  match v with
  | JArr (x :: _) => Ok x
  | JArr [] => Raise (Exn "IndexError" "list index out of range")
  | JStr (String a _) => Ok (JStr (String a EmptyString))
  | JStr EmptyString => Raise (Exn "IndexError" "string index out of range")
  | JObj _ => Raise (KeyError "0")
  | _ => Raise (not_subscriptable v)
  end.

(** [v.startswith(p)]: a method of [str] only. *)
Definition startswith (v : json) (p : string) : result bool :=
  match v with
  | JStr s => Ok (Str.startswith s p)
  | _ => Raise (AttributeError v "startswith")
  end.

(** [needle in v] for a string [needle]. *)
Definition contains (needle : string) (v : json) : result bool :=
  match v with
  | JStr s => Ok (Str.contains needle s)
  | JArr l => Ok (existsb (fun x => eq_str x needle) l)
  | JObj kv => Ok (existsb (fun p => String.eqb (fst p) needle) kv)
  | _ => Raise (TypeError ("argument of type " ++ quote (type_name v)
                            ++ " is not iterable"))
  end.

(** A dict key must be hashable. *)
Definition hashable (v : json) : result unit :=
  match v with
  | JArr _ | JObj _ =>
      Raise (TypeError ("unhashable type: " ++ quote (type_name v)))
  | _ => Ok tt
  end.

(** [int(f)] for a float: truncation towards zero. *)
Definition trunc_float (f : spec_float) : result Z :=
  match f with
  | S754_zero _ => Ok 0
  | S754_infinity _ =>
      Raise (Exn "OverflowError" "cannot convert float infinity to integer")
  | S754_nan => Raise (Exn "ValueError" "cannot convert float NaN to integer")
  | S754_finite sgn m e =>
      let mag := if 0 <=? e then Z.pos m * 2 ^ e
                 else Z.pos m / 2 ^ (- e) in
      Ok (if sgn then - mag else mag)
  end.

(** [d.get(k, dflt)] on a dict built by a comprehension, whose items are
    listed in the order they were stored: the last one stored wins. *)
Fixpoint lookup_last (k : string) (items : list (json * json))
  : option json :=
  match items with
  | [] => None
  | (k', v) :: rest =>
      match lookup_last k rest with
      | Some v' => Some v'
      | None => if eq_str k' k then Some v else None
      end
  end.

End PyOps.

(** ** The script *)

Section Script.
Variable w : World.
Local Open Scope m_scope.

(** [str(v)], what an f-string shows for a value. *)
Definition py_str (v : json) : string :=
  match v with
  | JStr s => s
  | JNull => "None"
  | JBool true => "True"
  | JBool false => "False"
  | JInt z => Str.of_Z z
  | _ => py_repr w v
  end.

(** [int(v)] *)
Definition py_int (v : json) : result Z :=
  match v with
  | JInt z => Ok z
  | JBool b => Ok (if b then 1 else 0)
  | JFloat f => PyOps.trunc_float f
  | JStr s => int_of_str w s
  | _ => Raise (Py.TypeError
                  ("int() argument must be a string, a bytes-like object "
                   ++ "or a real number, not "
                   ++ Py.quote (Py.type_name v)))
  end.

(** *** sh *)

Definition sh (cmd : string) (timeout : Z) : M (Z * string * string) :=
  n <- tick ;;
  match popen w n cmd timeout with
  | PopenRaises e => raise e
  | CommunicateRaises e => record_proc (Spawned cmd) ;; raise e
  | TimeoutExpired =>
      record_proc (Spawned cmd) ;;
      record_proc (Killed cmd) ;;
      ret (124, "", "timeout after " ++ Str.of_Z timeout ++ "s")
  | Exited rc stdout stderr =>
      record_proc (Spawned cmd) ;;
      ret (rc, Str.strip stdout, Str.strip stderr)
  end.

(** The prefix every kubectl command line starts with. *)
Definition kubectl (kc : string) (rest : string) : string :=
  "KUBECONFIG='" ++ kc ++ "' kubectl " ++ rest.

(** *** kubectl_json *)

(** [RuntimeError(f"kubectl {args} failed: {err or out}")] *)
Definition kubectl_failure (arguments stdout stderr : string) : exn :=
  Exn "RuntimeError"
      ("kubectl " ++ arguments ++ " failed: " ++ Str.or_else stderr stdout).

Definition kubectl_json (arguments kc : string) : M json :=
  ' (rc, stdout, stderr) <- sh (kubectl kc (arguments ++ " -o json")) 40 ;;
  if negb (rc =? 0) then raise (kubectl_failure arguments stdout stderr)
  else lift (json_loads w stdout).

(** *** http_probe *)

(** The body of the [try], given the exchange the world offers. *)
Definition probe_steps (scheme : string) (x : http_exchange)
  : result (bool * Z * string * string) :=
  (let? _ := (if String.eqb scheme "https"
              then (let? _ := hx_context x in hx_connect x)
              else hx_connect x) in
   let? _ := hx_request x in
   let? resp := hx_response x in
   let? data := hx_read x in
   let? _ := hx_close x in
   let okish := (100 <=? fst resp) && (fst resp <? 500) in
   Ok (okish, fst resp, snd resp, decode_utf8_ignore w data))%res.

Definition http_probe (addr host scheme path : string)
  : M (bool * Z * string * string) :=
  try_except
    (n <- tick ;; lift (probe_steps scheme (connect w n scheme addr host path)))
    (fun e => ret (false, 0, exn_msg e, "")).

(** *** main, section by section *)

Variable args : Namespace.

Definition kc : string := kubeconfig args.

(** [next((l for l in cfg.splitlines() if "server: " in l), "")] *)
Definition server_line (cfg : string) : string :=
  match find (Str.contains "server: ") (Str.splitlines cfg) with
  | Some l => l
  | None => ""
  end.

(** The command line 120 suggests. *)
Definition sed_hint : string :=
  "  sudo sed -i 's#https://127\.0\.0\.1:6443#https://"
  ++ ip args ++ ":6443#' " ++ kc.

(** Lines 105-122: the kubeconfig file. No [try] surrounds it. *)
Definition kubeconfig_check : M unit :=
  n <- tick ;;
  if isfile w n kc then
    ok ("kubeconfig found at " ++ kc) ;;
    n' <- tick ;;
    cfg <- lift (read_text w n' kc) ;;
    if Str.contains "127.0.0.1:6443" (server_line cfg) then
      warn ("kubeconfig still points to https://127.0.0.1:6443 "
            ++ "(will still try using it)") ;;
      incr_warned
    else
      ok ("kubeconfig server: "
          ++ Str.or_else (Str.strip (server_line cfg)) "<unknown>")
  else
    fail ("kubeconfig missing: " ++ kc) ;;
    incr_failed ;;
    print (Str.nl ++ "Please run:") ;;
    print sed_hint ;;
    print "".

(** Lines 124-135: API /readyz. *)
Definition api_readyz : M unit :=
  try_except
    (' (rc, stdout, stderr) <-
         sh (kubectl kc "get --raw='/readyz' 2>/dev/null") 20 ;;
     if (rc =? 0) && Str.contains "ok" (Str.lower stdout) then
       ok "API /readyz: OK" ;; incr_passed
     else
       fail ("API /readyz: not ready (" ++ Str.or_else stderr stdout ++ ")") ;;
       incr_failed)
    (fun e => fail ("API /readyz: error (" ++ exn_msg e ++ ")") ;;
              incr_failed).

(** [{a["type"]: a["address"] for a in addrs}]: the items in the order
    they are stored. *)
Fixpoint address_items (addrs : list json) : result (list (json * json)) :=
  match addrs with
  | [] => Ok []
  | a :: rest =>
      (let? k := Py.getitem a "type" in
       let? v := Py.getitem a "address" in
       let? _ := PyOps.hashable k in
       let? more := address_items rest in
       Ok ((k, v) :: more))%res
  end.

(** The loop over the node's conditions; [ready] is the value so far. *)
Fixpoint scan_ready (conds : list json) (ready : bool) : result bool :=
  match conds with
  | [] => Ok ready
  | cond :: rest =>
      (let? t := Py.get cond "type" JNull in
       if Py.eq_str t "Ready" then
         let? st := Py.get cond "status" JNull in
         scan_ready rest (Py.eq_str st "True")
       else scan_ready rest ready)%res
  end.

(** What the [else] branch of the node check reads before it prints:
    the name, the InternalIP and the Ready flag of the first node. *)
Definition inspect_node (items : json) : result (json * json * bool) :=
  (let? node := PyOps.index0 items in
   let? md := Py.getitem node "metadata" in
   let? name := Py.getitem md "name" in
   let? st := Py.getitem node "status" in
   let? addrs := Py.getitem st "addresses" in
   let? addr_list := Py.iter addrs in
   let? addresses := address_items addr_list in
   let internal_ip :=
     match PyOps.lookup_last "InternalIP" addresses with
     | Some v => v
     | None => JStr "<missing>"
     end in
   let? st' := Py.get node "status" (JObj []) in
   let? conds := Py.get st' "conditions" (JArr []) in
   let? cond_list := Py.iter conds in
   let? ready := scan_ready cond_list false in
   Ok (name, internal_ip, ready))%res.

(** Lines 137-169. *)
Definition node_health : M unit :=
  print "" ;;
  info "=== Node health ===" ;;
  try_except
    (node_json <- kubectl_json "get nodes" kc ;;
     items <- lift (Py.get node_json "items" (JArr [])) ;;
     if negb (Py.truthy items) then
       fail "No nodes returned by API" ;; incr_failed
     else
       ' (name, internal_ip, ready) <- lift (inspect_node items) ;;
       (if ready then
          ok ("Node " ++ py_str name ++ " Ready=True") ;; incr_passed
        else
          fail ("Node " ++ py_str name ++ " not Ready") ;; incr_failed) ;;
       if Py.eq_str internal_ip (ip args) then
         ok ("Node InternalIP=" ++ py_str internal_ip ++ " (expected)") ;;
         incr_passed
       else
         fail ("Node InternalIP=" ++ py_str internal_ip
               ++ " (expected " ++ ip args ++ ")") ;;
         incr_failed)
    (fun e => fail ("kubectl get nodes failed: " ++ exn_msg e) ;;
              incr_failed).

(** The dict [need], in insertion order. *)
Definition need0 : list (string * bool) :=
  [("coredns", false); ("traefik", false); ("metrics-server", false);
   ("local-path-provisioner", false)].

(** [need[key] = True] *)
Definition set_true (key : string) (need : list (string * bool))
  : list (string * bool) :=
  map (fun p => if String.eqb (fst p) key then (fst p, true) else p) need.

(** The inner loop, for one pod [p] named [name], over the keys. *)
Fixpoint mark_pod (p name : json) (keys : list string)
         (need : list (string * bool)) : result (list (string * bool)) :=
  match keys with
  | [] => Ok need
  | key :: rest =>
      (let? sw := PyOps.startswith name key in
       let? hit := (if sw then pod_ready p else Ok false) in
       mark_pod p name rest (if hit then set_true key need else need))%res
  end.

(** The outer loop over the pods of kube-system. *)
Fixpoint mark_pods (pods : list json) (need : list (string * bool))
  : result (list (string * bool)) :=
  match pods with
  | [] => Ok need
  | p :: rest =>
      (let? md := Py.getitem p "metadata" in
       let? name := Py.getitem md "name" in
       let? need' := mark_pod p name (map fst need) need in
       mark_pods rest need')%res
  end.

(** Lines 171-197. The local [core_ok] is written and never read. *)
Definition core_pods : M unit :=
  print "" ;;
  info "=== Core kube-system pods ===" ;;
  try_except
    (j <- kubectl_json "-n kube-system get pods" kc ;;
     sys_pods <- lift (Py.get j "items" (JArr [])) ;;
     pods <- lift (Py.iter sys_pods) ;;
     need <- lift (mark_pods pods need0) ;;
     for_each need
       (fun entry =>
          if snd entry then
            ok (fst entry ++ " Running/Ready") ;; incr_passed
          else
            fail (fst entry ++ " not Ready") ;; incr_failed))
    (fun e => fail ("Failed to read kube-system pods: " ++ exn_msg e) ;;
              incr_failed).

(** Lines 199-212. *)
Definition namespaces : M unit :=
  print "" ;;
  info "=== Namespaces present ===" ;;
  for_each ["argocd"; "monitoring"; "logging"; "default"]
    (fun ns =>
       try_except
         (' (rc, _, _) <- sh (kubectl kc ("get ns " ++ ns)) 20 ;;
          if rc =? 0 then
            ok ("Namespace " ++ ns ++ " exists") ;; incr_passed
          else
            warn ("Namespace " ++ ns
                  ++ " missing (may be expected if not installed)") ;;
            incr_warned)
         (fun _ => warn ("Namespace " ++ ns ++ " check failed") ;;
                   incr_warned)).

(** [d = json.loads(out)] followed by the test
    [avail and int(avail) > 0] on [status.availableReplicas]. *)
Definition available (stdout : string) : result bool :=
  (let? d := json_loads w stdout in
   let? st := Py.get d "status" (JObj []) in
   let? avail := Py.get st "availableReplicas" (JInt 0) in
   if Py.truthy avail then
     let? n := py_int avail in Ok (0 <? n)
   else Ok false)%res.

(** The probe of an ingress as the Argo CD and Grafana sections report it
    ([proto] is HTTP or HTTPS in the message, [app] the short name). *)
Definition probe_report (proto app host scheme : string) : M unit :=
  ' (alive, code, reason, _) <- http_probe (ip args) host scheme "/" ;;
  if (alive : bool) then
    ok (proto ++ " probe " ++ app ++ " (" ++ host ++ ") -> "
        ++ Str.of_Z code ++ " " ++ reason) ;;
    incr_passed
  else
    fail (proto ++ " probe " ++ app ++ " failed: " ++ reason) ;;
    incr_failed.

(** Lines 214-249. *)
Definition argo_cd : M unit :=
  print "" ;;
  info "=== Argo CD ===" ;;
  try_except
    (' (rc, stdout, stderr) <-
         sh (kubectl kc "-n argocd get deploy argocd-server -o json") 20 ;;
     (if rc =? 0 then
        avail <- lift (available stdout) ;;
        if (avail : bool) then
          ok "argocd-server deployment Available" ;; incr_passed
        else
          fail "argocd-server deployment not Available" ;; incr_failed
      else
        fail ("argocd-server deployment not found (" ++ stderr ++ ")") ;;
        incr_failed) ;;
     probe_report "HTTP" "argocd" (argocd args) "http" ;;
     if https args then probe_report "HTTPS" "argocd" (argocd args) "https"
     else ret tt)
    (fun e => fail ("ArgoCD check error: " ++ exn_msg e) ;; incr_failed).

(** Lines 251-302. *)
Definition monitoring : M unit :=
  print "" ;;
  info "=== Grafana / Prometheus (kube-prometheus-stack) ===" ;;
  try_except
    (' (rc, stdout, stderr) <-
         sh (kubectl kc ("-n monitoring get deploy "
                         ++ "kube-prometheus-stack-grafana -o json")) 20 ;;
     (if rc =? 0 then
        avail <- lift (available stdout) ;;
        if (avail : bool) then
          ok "Grafana deployment Available" ;; incr_passed
        else
          fail "Grafana deployment not Available" ;; incr_failed
      else
        fail ("Grafana deployment not found (" ++ stderr ++ ")") ;;
        incr_failed) ;;
     ' (rc', stdout', _) <-
         sh (kubectl kc ("-n monitoring get deploy "
                         ++ "kube-prometheus-stack-operator -o json")) 20 ;;
     (if rc' =? 0 then
        avail <- lift (available stdout') ;;
        if (avail : bool) then
          ok "Prometheus Operator Available" ;; incr_passed
        else
          warn "Prometheus Operator not Available yet" ;; incr_warned
      else
        warn "Prometheus Operator deployment not found" ;; incr_warned) ;;
     probe_report "HTTP" "grafana" (grafana args) "http" ;;
     if https args then probe_report "HTTPS" "grafana" (grafana args) "https"
     else ret tt)
    (fun e => fail ("Monitoring check error: " ++ exn_msg e) ;; incr_failed).

(** [any(test(p) for p in pods)], consumed lazily. *)
Fixpoint any_pod (test : json -> result bool) (pods : list json)
  : result bool :=
  match pods with
  | [] => Ok false
  | p :: rest =>
      (let? hit := test p in
       if hit then Ok true else any_pod test rest)%res
  end.

(** [p["metadata"]["name"].startswith("loki") and pod_ready(p)] *)
Definition is_loki (p : json) : result bool :=
  (let? md := Py.getitem p "metadata" in
   let? name := Py.getitem md "name" in
   let? sw := PyOps.startswith name "loki" in
   if sw then pod_ready p else Ok false)%res.

(** ["promtail" in p["metadata"]["name"] and pod_ready(p)] *)
Definition is_promtail (p : json) : result bool :=
  (let? md := Py.getitem p "metadata" in
   let? name := Py.getitem md "name" in
   let? inside := PyOps.contains "promtail" name in
   if inside then pod_ready p else Ok false)%res.

(** Lines 304-324. *)
Definition logging : M unit :=
  print "" ;;
  info "=== Loki / Promtail ===" ;;
  try_except
    (j <- kubectl_json "-n logging get pods" kc ;;
     pods <- lift (Py.get j "items" (JArr [])) ;;
     has_loki <- lift (let? l := Py.iter pods in any_pod is_loki l)%res ;;
     has_promtail <-
       lift (let? l := Py.iter pods in any_pod is_promtail l)%res ;;
     (if (has_loki : bool) then
        ok "Loki pod Running/Ready" ;; incr_passed
      else
        warn "Loki not Ready" ;; incr_warned) ;;
     if (has_promtail : bool) then
       ok "Promtail pod Running/Ready" ;; incr_passed
     else
       warn "Promtail not Ready" ;; incr_warned)
    (fun e => warn ("Loki/Promtail check error: " ++ exn_msg e) ;;
              incr_warned).

(** The condition of line 338. [and] binds tighter than [or]:
    [(alive and "Hostname:" in body) or ("Request served by" in body)
     or (code in (200, 301, 302))]. *)
Definition whoami_accepts (alive : bool) (code : Z) (body : string) : bool :=
  (alive && Str.contains "Hostname:" body)
  || Str.contains "Request served by" body
  || ((code =? 200) || (code =? 301) || (code =? 302)).

(** Lines 326-354. *)
Definition whoami_app : M unit :=
  print "" ;;
  info "=== Demo app: whoami ===" ;;
  try_except
    (' (rc, _, _) <- sh (kubectl kc "-n default get svc whoami") 20 ;;
     (if rc =? 0 then
        ok "whoami Service exists" ;; incr_passed
      else
        warn "whoami Service missing" ;; incr_warned) ;;
     ' (alive, code, reason, body) <-
         http_probe (ip args) (whoami args) "http" "/" ;;
     (if whoami_accepts alive code body then
        ok ("HTTP probe whoami (" ++ whoami args ++ ") -> "
            ++ Str.of_Z code ++ " " ++ reason) ;;
        incr_passed
      else
        fail ("HTTP probe whoami failed: "
              ++ Str.or_else reason "non-200 response") ;;
        incr_failed) ;;
     if https args then probe_report "HTTPS" "whoami" (whoami args) "https"
     else ret tt)
    (fun e => fail ("whoami check error: " ++ exn_msg e) ;; incr_failed).

(** The body of the loop of lines 359-367, for one host. *)
Definition dns_hint (host : string) : M unit :=
  try_except
    (n <- tick ;;
     found <- lift (gethostbyname w n host) ;;
     if String.eqb found (ip args) then
       ok ("DNS " ++ host ++ " -> " ++ found)
     else
       warn ("DNS " ++ host ++ " -> " ++ found
             ++ " (expected " ++ ip args ++ ")"))
    (fun _ => warn ("DNS " ++ host ++ " not resolvable on this VM "
                    ++ "(ok if Pi-hole not used by VM)")).

(** Lines 356-367. No counter is touched here. *)
Definition dns_hints : M unit :=
  print "" ;;
  info "=== Optional DNS hints ===" ;;
  for_each [argocd args; grafana args; whoami args] dns_hint.

Definition rule : string := Str.times "=" 66.

(** The line that shows the three counters. *)
Definition tally_line (p wn f : Z) : string :=
  GREEN ++ CHECK ++ RESET ++ " Passed: " ++ Str.of_Z p ++ "   "
  ++ YELLOW ++ WARN ++ RESET ++ " Warn: " ++ Str.of_Z wn ++ "   "
  ++ RED ++ CROSS ++ RESET ++ " Failed: " ++ Str.of_Z f.

(** What the summary prints when the counters hold [p], [wn] and [f]. *)
Definition summary_lines (p wn f : Z) : list line :=
  [Text (Str.nl ++ rule); Text "STACK HEALTH SUMMARY"; Text rule;
   Text (tally_line p wn f)]
  ++ (if f =? 0 then
        [Text (GREEN ++ "All critical checks passed." ++ RESET)]
      else
        [Text (RED ++ "Some critical checks failed. See items marked with "
               ++ CROSS ++ "." ++ RESET);
         Text "Common fixes:";
         Text (" - Ensure kubeconfig server points to https://"
               ++ ip args ++ ":6443");
         Text ("   sudo sed -i 's#https://127.0.0.1:6443#https://"
               ++ ip args ++ ":6443#' /etc/rancher/k3s/k3s.yaml");
         Text (" - Check 'kubectl -n monitoring describe pod "
               ++ "<operator-pod>' if operator is stuck.");
         Text (" - Verify Pi-hole A records point FQDNs to your node IP, "
               ++ "or keep using Host headers.")])
  ++ [Text rule].

(** Lines 369-383. *)
Definition summary : M unit :=
  fun s => for_each (summary_lines (passed s) (warned s) (failed s)) emit s.

(** The checks between the kubeconfig file and the DNS hints, in the
    order [main] runs them. *)
Definition checks : list (M unit) :=
  [api_readyz; node_health; core_pods; namespaces; argo_cd; monitoring;
   logging; whoami_app].

Definition main : M unit :=
  print "" ;;
  info "=== Kubeconfig & API ===" ;;
  kubeconfig_check ;;
  api_readyz ;;
  node_health ;;
  core_pods ;;
  namespaces ;;
  argo_cd ;;
  monitoring ;;
  logging ;;
  whoami_app ;;
  dns_hints ;;
  summary.

(** [main] from line 97 on: the three counters are set to zero, then the
    sections run. The list [results] of line 97 is never used. *)
Definition main_from_start : M unit :=
  zero_passed ;; zero_failed ;; zero_warned ;; main.

End Script.

(** * Vocabulary of the statements *)

Module StrFacts.

Definition first (s : string) : option ascii :=
  match s with
  | String a _ => Some a
  | EmptyString => None
  end.

Fixpoint last (s : string) : option ascii :=
  match s with
  | EmptyString => None
  | String a EmptyString => Some a
  | String _ t => last t
  end.

Definition not_space (o : option ascii) : bool :=
  match o with
  | Some a => negb (Str.is_space a)
  | None => true
  end.

(** No whitespace at either end. *)
Definition trimmed (s : string) : bool :=
  not_space (first s) && not_space (last s).

Fixpoint all_space (s : string) : bool :=
  match s with
  | String a t => Str.is_space a && all_space t
  | EmptyString => true
  end.

End StrFacts.

(** ** Reading a pod the way the contract of [pod_ready] is worded *)

Definition field (k : string) (v : json) : option json :=
  match v with
  | JObj kv => Py.lookup k kv
  | _ => None
  end.

(** The container status [c] has a [ready] field, and it is truthy. *)
Definition ready_truthy (c : json) : Prop :=
  exists r, field "ready" c = Some r /\ Py.truthy r = true.

(** The pod has a status whose phase is the string Running. *)
Definition phase_running (pod : json) : Prop :=
  exists st, field "status" pod = Some st
             /\ field "phase" st = Some (JStr "Running").

(** The pod's status lists the container statuses [cs]. *)
Definition container_statuses (pod : json) (cs : list json) : Prop :=
  exists st, field "status" pod = Some st
             /\ field "containerStatuses" st = Some (JArr cs).

(** Running, at least one container status, and every container status
    has a [ready] field that satisfies [good]. *)
Definition ready_where (good : json -> Prop) (pod : json) : Prop :=
  phase_running pod
  /\ exists cs, container_statuses pod cs
                /\ cs <> []
                /\ Forall (fun c => exists r, field "ready" c = Some r
                                              /\ good r) cs.

(** The contract as the specification words it: [ready = true]. *)
Definition ready_as_specified : json -> Prop :=
  ready_where (fun r => r = JBool true).

(** What the code tests: [ready] is truthy. *)
Definition ready_as_coded : json -> Prop :=
  ready_where (fun r => Py.truthy r = true).

(** ** Reading an HTTP exchange *)

(** The connection object could be built. *)
Definition set_up (scheme : string) (x : http_exchange) : Prop :=
  (scheme = "https" -> hx_context x = Ok tt) /\ hx_connect x = Ok tt.

(** Every step succeeded and the response carried [status], [reason] and
    the bytes [data]. *)
Definition responds (scheme : string) (x : http_exchange)
           (status : Z) (reason data : string) : Prop :=
  set_up scheme x
  /\ hx_request x = Ok tt
  /\ hx_response x = Ok (status, reason)
  /\ hx_read x = Ok data
  /\ hx_close x = Ok tt.

(** The first step that fails raises [e]. *)
Inductive raises_during (scheme : string) (x : http_exchange) (e : exn)
  : Prop :=
| in_context :
    scheme = "https" -> hx_context x = Raise e -> raises_during scheme x e
| in_connect :
    (scheme = "https" -> hx_context x = Ok tt) ->
    hx_connect x = Raise e -> raises_during scheme x e
| in_request :
    set_up scheme x -> hx_request x = Raise e -> raises_during scheme x e
| in_getresponse :
    set_up scheme x -> hx_request x = Ok tt ->
    hx_response x = Raise e -> raises_during scheme x e
| in_read :
    forall r, set_up scheme x -> hx_request x = Ok tt ->
    hx_response x = Ok r -> hx_read x = Raise e -> raises_during scheme x e
| in_close :
    forall r d, set_up scheme x -> hx_request x = Ok tt ->
    hx_response x = Ok r -> hx_read x = Ok d ->
    hx_close x = Raise e -> raises_during scheme x e.

(** ** Reading the output and the counters *)

Definition is_pass (l : line) : bool :=
  match l with Pass _ => true | _ => false end.
Definition is_failure (l : line) : bool :=
  match l with Failure _ => true | _ => false end.
Definition is_warning (l : line) : bool :=
  match l with Warning _ => true | _ => false end.
Definition is_header (l : line) : bool :=
  match l with Header _ => true | _ => false end.

Definition count (p : line -> bool) (ls : list line) : Z :=
  Z.of_nat (List.length (filter p ls)).

Definition headers (ls : list line) : list line := filter is_header ls.

(** The three counters did not move. *)
Definition same_counters (s s' : state) : Prop :=
  passed s' = passed s /\ failed s' = failed s /\ warned s' = warned s.

(** [s'] prints [ls] after what [s] had printed. *)
Definition prints (s s' : state) (ls : list line) : Prop :=
  printed s' = (printed s ++ ls)%list.

(** Every pass, warn and fail line printed between [s] and [s'] came with
    an increment of its counter. *)
Definition accounted (s s' : state) : Prop :=
  exists ls, prints s s' ls
             /\ passed s' = passed s + count is_pass ls
             /\ warned s' = warned s + count is_warning ls
             /\ failed s' = failed s + count is_failure ls.

(** The same for warn and fail lines only. *)
Definition accounted_warn_fail (s s' : state) : Prop :=
  exists ls, prints s s' ls
             /\ warned s' = warned s + count is_warning ls
             /\ failed s' = failed s + count is_failure ls.

(** The headers printed between [s] and [s'] are [hs], in this order. *)
Definition emits (hs : list line) (s s' : state) : Prop :=
  exists ls, prints s s' ls /\ headers ls = hs.

(** Whatever was printed between [s] and [s'], no header was. *)
Definition no_headers : state -> state -> Prop := emits [].

(** A pass line or a warn line. *)
Definition pass_or_warning (l : line) : bool := is_pass l || is_warning l.

(** One elementary move of the counters: nothing, or one of them plus one. *)
Inductive bump (s s' : state) : Prop :=
| bump_none : same_counters s s' -> bump s s'
| bump_passed :
    passed s' = passed s + 1 -> failed s' = failed s ->
    warned s' = warned s -> bump s s'
| bump_failed :
    failed s' = failed s + 1 -> passed s' = passed s ->
    warned s' = warned s -> bump s s'
| bump_warned :
    warned s' = warned s + 1 -> passed s' = passed s ->
    failed s' = failed s -> bump s s'.

(** Reached through any number of such moves. Between two states this
    says that no counter fell ([climbs_le]); it does not say how far one
    assignment moved a counter, which is what [stepped_by_one] records. *)
Definition climbs : state -> state -> Prop := clos_refl_trans state bump.

(** ** The assignments to the counters *)

Definition counter_eqb (a b : counter) : bool :=
  match a, b with
  | CPassed, CPassed | CFailed, CFailed | CWarned, CWarned => true
  | _, _ => false
  end.

(** The three counters of a state: passed, failed, warned. *)
Definition counters (s : state) : Z * Z * Z :=
  (passed s, failed s, warned s).

Definition read (c : counter) (t : Z * Z * Z) : Z :=
  let '(p, f, w) := t in
  match c with CPassed => p | CFailed => f | CWarned => w end.

Definition assign (c : counter) (v : Z) (t : Z * Z * Z) : Z * Z * Z :=
  let '(p, f, w) := t in
  match c with
  | CPassed => (v, f, w)
  | CFailed => (p, v, w)
  | CWarned => (p, f, v)
  end.

(** The counters after the assignments [ws], made in order, when each of
    them found in its counter the value it recorded as the old one. *)
Fixpoint replay (ws : list write) (t : Z * Z * Z) : option (Z * Z * Z) :=
  match ws with
  | [] => Some t
  | wr :: rest =>
      if read (target wr) t =? old_value wr
      then replay rest (assign (target wr) (new_value wr) t)
      else None
  end.

(** An assignment that adds exactly one to its counter. *)
Definition increment (wr : write) : Prop :=
  new_value wr = old_value wr + 1.

(** Between [s] and [s'] the assignments [ws] were made, and they are all
    that happened to the counters. *)
Definition written (ws : list write) (s s' : state) : Prop :=
  writes s' = (writes s ++ ws)%list
  /\ replay ws (counters s) = Some (counters s').

(** Between [s] and [s'] every assignment to a counter added exactly one
    to it, and the counters changed through these assignments only. *)
Definition stepped_by_one (s s' : state) : Prop :=
  exists ws, written ws s s' /\ Forall increment ws.

(** How many of the assignments [ws] are to the counter [c]. *)
Definition writes_to (c : counter) (ws : list write) : Z :=
  Z.of_nat (List.length (filter (fun wr => counter_eqb (target wr) c) ws)).

(** The assignments of lines 98-100, made in state [s]. *)
Definition zeroed (s : state) : list write :=
  [Write CPassed (passed s) 0; Write CFailed (failed s) 0;
   Write CWarned (warned s) 0].

(** The state in which [main] reaches line 102. *)
Definition started (s : state) : state :=
  State 0 0 0 (printed s) (procs s) (clock s)
        (((writes s ++ [Write CPassed (passed s) 0])
            ++ [Write CFailed (failed s) 0])
           ++ [Write CWarned (warned s) 0]).

(** [m] relates every state to the state it leaves, raising or not. *)
Definition keeps {A} (R : state -> state -> Prop) (m : M A) : Prop :=
  forall s, R s (snd (m s)).

(** [m] returns normally from every state. *)
Definition total (m : M unit) : Prop :=
  forall s, exists s', m s = (Ok tt, s').

(** In state [s] the kubeconfig file is absent, or it is there and can be
    read. *)
Definition kubeconfig_usable (w : World) (args : Namespace) (s : state)
  : Prop :=
  isfile w (clock s) (kubeconfig args) = false
  \/ (isfile w (clock s) (kubeconfig args) = true
      /\ exists cfg, read_text w (S (clock s)) (kubeconfig args) = Ok cfg).

(** The state in which a section reaches its body: an empty line and the
    header [hdr] have been printed after what [s] had. *)
Definition after_header (hdr : string) (s : state) : state :=
  State (passed s) (failed s) (warned s)
        ((printed s ++ [Text ""]) ++ [Header hdr]) (procs s) (clock s)
        (writes s).

(** The state in which [main] reaches the kubeconfig file. *)
Definition at_kubeconfig (s : state) : state :=
  after_header "=== Kubeconfig & API ===" s.

(** What [main] runs once it is past the kubeconfig file. *)
Definition rest_of_main (w : World) (args : Namespace) : M unit :=
  (api_readyz w args ;; node_health w args ;; core_pods w args ;;
   namespaces w args ;; argo_cd w args ;; monitoring w args ;;
   logging w args ;; whoami_app w args ;; dns_hints w args ;;
   summary args)%M.

(** The nine section headers, in order. *)
Definition all_headers : list line :=
  [Header "=== Kubeconfig & API ==="; Header "=== Node health ===";
   Header "=== Core kube-system pods ==="; Header "=== Namespaces present ===";
   Header "=== Argo CD ===";
   Header "=== Grafana / Prometheus (kube-prometheus-stack) ===";
   Header "=== Loki / Promtail ==="; Header "=== Demo app: whoami ===";
   Header "=== Optional DNS hints ==="].

(** Between [s] and [s'] the headers [hs] were printed, and the last thing
    printed is the summary of the counters of [s']. *)
Definition ends_with_summary (args : Namespace) (hs : list line)
           (s s' : state) : Prop :=
  exists ls,
    prints s s'
           (ls ++ summary_lines args (passed s') (warned s') (failed s'))
    /\ headers ls = hs.

(** [m] returns normally from every state [s], in a state related to [s]. *)
Definition runs_to (Q : state -> state -> Prop) (m : M unit) : Prop :=
  forall s, exists s', m s = (Ok tt, s') /\ Q s s'.

(** A run that went through every section and ended with the summary of
    its own counters. *)
Definition completed (args : Namespace) (s' : state) : Prop :=
  exists body,
    printed s'
    = (body ++ summary_lines args (passed s') (warned s') (failed s'))%list
    /\ headers body = all_headers.

(** * Sample runs

    Concrete pods, exchanges and worlds on which the script is evaluated. *)

Module Sample.

Definition args0 : Namespace :=
  Args "/etc/rancher/k3s/k3s.yaml" "192.168.2.60" "argocd.pizza"
       "grafana.pizza" "whoami.pizza" false.

Definition pod_with (phase : json) (statuses : json) : json :=
  JObj [("metadata", JObj [("name", JStr "coredns-6799fbcd5-x2x4q")]);
        ("status", JObj [("phase", phase);
                         ("containerStatuses", statuses)])].

(** A running pod whose only container reports [ready] as a string. *)
Definition pod_string_flag : json :=
  pod_with (JStr "Running") (JArr [JObj [("ready", JStr "false")]]).

(** A running pod without container statuses. *)
Definition pod_no_containers : json := pod_with (JStr "Running") (JArr []).

Definition pod_healthy : json :=
  pod_with (JStr "Running") (JArr [JObj [("ready", JBool true)]]).

Definition refused : exn :=
  Exn "ConnectionRefusedError" "[Errno 111] Connection refused".

Definition answer (status : Z) (reason body : string) : http_exchange :=
  Exchange (Ok tt) (Ok tt) (Ok tt) (Ok (status, reason)) (Ok body) (Ok tt).

Definition not_found : http_exchange := answer 404 "Not Found" "404 page".
Definition unavailable : http_exchange :=
  answer 503 "Service Unavailable" "Request served by whoami-7f5d".
Definition no_route : http_exchange :=
  Exchange (Ok tt) (Ok tt) (Raise refused) (Raise refused) (Raise refused)
           (Ok tt).

(** Nothing is there: no kubeconfig, kubectl exits with 1, nothing
    listens, no name resolves. *)
Definition down : World := {|
  isfile := fun _ _ => false;
  read_text := fun _ _ => Raise (Exn "FileNotFoundError" "No such file");
  popen := fun _ _ _ =>
    Exited 1 "" ("The connection to the server was refused" ++ Str.nl);
  connect := fun _ _ _ _ _ => no_route;
  gethostbyname := fun _ _ =>
    Raise (Exn "gaierror" "[Errno -2] Name or service not known");
  json_loads := fun _ => Raise (Exn "JSONDecodeError" "Expecting value");
  decode_utf8_ignore := fun s => s;
  py_repr := fun _ => "{}";
  int_of_str := fun _ => Raise (Exn "ValueError" "invalid literal for int()")
|}.

(** The world [down] with a kubeconfig file that [open] answers with [r]. *)
Definition with_kubeconfig (r : result string) : World := {|
  isfile := fun _ _ => true;
  read_text := fun _ _ => r;
  popen := popen down;
  connect := connect down;
  gethostbyname := gethostbyname down;
  json_loads := json_loads down;
  decode_utf8_ignore := decode_utf8_ignore down;
  py_repr := py_repr down;
  int_of_str := int_of_str down
|}.

Definition denied : exn :=
  Exn "PermissionError"
      "[Errno 13] Permission denied: '/etc/rancher/k3s/k3s.yaml'".

(** The file exists and the user may not read it. *)
Definition unreadable : World := with_kubeconfig (Raise denied).

(** The kubeconfig k3s writes, server line untouched. *)
Definition k3s_yaml : string :=
  "apiVersion: v1" ++ Str.nl ++ "clusters:" ++ Str.nl
  ++ "- cluster:" ++ Str.nl
  ++ "    server: https://127.0.0.1:6443" ++ Str.nl
  ++ "  name: default" ++ Str.nl.

Definition loopback : World := with_kubeconfig (Ok k3s_yaml).

Definition refused_text : string :=
  "The connection to the server was refused".

(** The world [down] where every HTTP request gets the answer [x]. *)
Definition answering (x : http_exchange) : World := {|
  isfile := isfile down;
  read_text := read_text down;
  popen := popen down;
  connect := fun _ _ _ _ _ => x;
  gethostbyname := gethostbyname down;
  json_loads := json_loads down;
  decode_utf8_ignore := decode_utf8_ignore down;
  py_repr := py_repr down;
  int_of_str := int_of_str down
|}.

(** The world [down] where every child process runs into the timeout. *)
Definition hanging : World := {|
  isfile := isfile down;
  read_text := read_text down;
  popen := fun _ _ _ => TimeoutExpired;
  connect := connect down;
  gethostbyname := gethostbyname down;
  json_loads := json_loads down;
  decode_utf8_ignore := decode_utf8_ignore down;
  py_repr := py_repr down;
  int_of_str := int_of_str down
|}.

End Sample.

(** * Vocabulary of the further properties *)

(** [text] is [core] with whitespace, and nothing else, around it. *)
Definition padded (text core : string) : Prop :=
  exists l r, text = l ++ core ++ r
              /\ StrFacts.all_space l = true /\ StrFacts.all_space r = true.

(** The command line of the readiness check (line 126). *)
Definition readyz_command (args : Namespace) : string :=
  kubectl (kubeconfig args) "get --raw='/readyz' 2>/dev/null".

(** The status is one of the three that line 338 accepts by itself. *)
Definition accepted_code (code : Z) : bool :=
  (code =? 200) || (code =? 301) || (code =? 302).

(** No line of the kubeconfig mentions a server. *)
Definition no_server_line (cfg : string) : Prop :=
  Forall (fun l => Str.contains "server: " l = false) (Str.splitlines cfg).

(** The two lines between which the summary chooses. *)
Definition all_passed_line : line :=
  Text (GREEN ++ "All critical checks passed." ++ RESET).
Definition some_failed_line : line :=
  Text (RED ++ "Some critical checks failed. See items marked with "
        ++ CROSS ++ "." ++ RESET).

(** [warned], respectively [failed], is what it was. *)
Definition warned_unchanged (s s' : state) : Prop := warned s' = warned s.
Definition failed_unchanged (s s' : state) : Prop := failed s' = failed s.

(** [v] is a dict. *)
Definition dict (v : json) : bool :=
  match v with JObj _ => true | _ => false end.

(** The entry [c] has a [type] field equal to the string [t]. *)
Definition type_is (t : string) (c : json) : bool :=
  match field "type" c with
  | Some v => Py.eq_str v t
  | None => false
  end.

(** The condition [c] has a [status] field equal to the string True. *)
Definition status_is_True (c : json) : bool :=
  match field "status" c with
  | Some v => Py.eq_str v "True"
  | None => false
  end.

(** A condition that is a dict and is not of type Ready. *)
Definition other_condition (c : json) : bool :=
  dict c && negb (type_is "Ready" c).

(** The address entry [a] records the type [fst tv] and the address
    [snd tv]. *)
Definition address_entry (a : json) (tv : string * json) : Prop :=
  field "type" a = Some (JStr (fst tv)) /\ field "address" a = Some (snd tv).

Definition is_internal (tv : string * json) : bool :=
  String.eqb (fst tv) "InternalIP".

(** The line the node check prints for the Ready flag, and the one for the
    address. *)
Definition ready_line (w : World) (name : json) (ready : bool) : line :=
  if ready then Pass ("Node " ++ py_str w name ++ " Ready=True")
  else Failure ("Node " ++ py_str w name ++ " not Ready").

Definition address_line (w : World) (args : Namespace) (internal_ip : json)
  : line :=
  if Py.eq_str internal_ip (ip args) then
    Pass ("Node InternalIP=" ++ py_str w internal_ip ++ " (expected)")
  else
    Failure ("Node InternalIP=" ++ py_str w internal_ip
             ++ " (expected " ++ ip args ++ ")").

(** The string name of a pod, when it has one. *)
Definition pod_name (p : json) : option string :=
  match field "metadata" p with
  | Some md =>
      match field "name" md with
      | Some (JStr n) => Some n
      | _ => None
      end
  | None => None
  end.

Definition has_name (p : json) : bool :=
  match pod_name p with Some _ => true | None => false end.

(** What [pod_ready] answers, as a boolean. *)
Definition is_ready (p : json) : bool :=
  match pod_ready p with Ok b => b | Raise _ => false end.

(** The pod [p] is ready and its name starts with [key]. *)
Definition serves (key : string) (p : json) : bool :=
  match pod_name p with
  | Some n => Str.startswith n key && is_ready p
  | None => false
  end.

(** For each core component, whether some pod serves it. *)
Definition core_verdicts (pods : list json) : list (string * bool) :=
  map (fun e => (fst e, existsb (serves (fst e)) pods)) need0.

(** The line the core-pod check prints for an entry of [need]. *)
Definition component_line (entry : string * bool) : line :=
  if snd entry then Pass (fst entry ++ " Running/Ready")
  else Failure (fst entry ++ " not Ready").

(** The body of the loop of lines 201-212, for one namespace. *)
Definition namespace_check (w : World) (args : Namespace) (ns : string)
  : M unit :=
  (try_except
     (' (rc, _, _) <- sh w (kubectl (kubeconfig args) ("get ns " ++ ns)) 20 ;;
      if rc =? 0 then
        ok ("Namespace " ++ ns ++ " exists") ;; incr_passed
      else
        warn ("Namespace " ++ ns
              ++ " missing (may be expected if not installed)") ;;
        incr_warned)
     (fun _ => warn ("Namespace " ++ ns ++ " check failed") ;;
               incr_warned))%M.

(** [m] returns normally with one line, a pass line counted in [passed] or
    a warn line counted in [warned], and leaves [failed]. *)
Definition one_pass_or_warning (m : M unit) : Prop :=
  forall s, exists l s',
    m s = (Ok tt, s')
    /\ prints s s' [l]
    /\ ((is_pass l = true /\ passed s' = passed s + 1
         /\ warned s' = warned s)
        \/ (is_warning l = true /\ warned s' = warned s + 1
            /\ passed s' = passed s))
    /\ failed s' = failed s.

(** The pod [p] is ready and its name contains [key]. *)
Definition mentions (key : string) (p : json) : bool :=
  match pod_name p with
  | Some n => Str.contains key n && is_ready p
  | None => false
  end.

(** The two lines of the Loki / Promtail check. *)
Definition loki_line (found : bool) : line :=
  if found then Pass "Loki pod Running/Ready" else Warning "Loki not Ready".
Definition promtail_line (found : bool) : line :=
  if found then Pass "Promtail pod Running/Ready"
  else Warning "Promtail not Ready".

(** Between [s] and [s'] every fail line was counted, and no pass or warn
    was counted without its line. *)
Definition fail_lines_counted (s s' : state) : Prop :=
  exists ls, prints s s' ls
             /\ failed s' = failed s + count is_failure ls
             /\ passed s' <= passed s + count is_pass ls
             /\ warned s' <= warned s + count is_warning ls.

Module Cases.

(** A kubeconfig without any server entry. *)
Definition empty_yaml : string := "apiVersion: v1" ++ Str.nl ++ "kind: Config".

(** kubectl answers every call with [ok], padded with blanks. *)
Definition ready : World := {|
  isfile := isfile Sample.down;
  read_text := read_text Sample.down;
  popen := fun _ _ _ => Exited 0 ("  OK" ++ Str.nl) "";
  connect := connect Sample.down;
  gethostbyname := gethostbyname Sample.down;
  json_loads := json_loads Sample.down;
  decode_utf8_ignore := decode_utf8_ignore Sample.down;
  py_repr := py_repr Sample.down;
  int_of_str := int_of_str Sample.down
|}.

Definition condition (type status : json) : json :=
  JObj [("type", type); ("status", status)].

(** Conditions as a kubelet reports them, with Ready last but one. *)
Definition conditions : list json :=
  [condition (JStr "MemoryPressure") (JStr "False");
   condition (JStr "Ready") (JStr "False");
   condition (JStr "Ready") (JStr "True");
   condition (JStr "DiskPressure") (JStr "False")].

Definition address (type value : string) : json :=
  JObj [("address", JStr value); ("type", JStr type)].

Definition addresses : list json :=
  [address "InternalIP" "10.0.0.9"; address "InternalIP" "192.168.2.60";
   address "Hostname" "k3s"].

Definition node : json :=
  JObj [("metadata", JObj [("name", JStr "k3s")]);
        ("status", JObj [("addresses", JArr addresses);
                         ("conditions", JArr conditions)])].

Definition named_pod (name : string) (ready : bool) : json :=
  JObj [("metadata", JObj [("name", JStr name)]);
        ("status", JObj [("phase", JStr "Running");
                         ("containerStatuses",
                          JArr [JObj [("ready", JBool ready)]])])].

Definition system_pods : list json :=
  [named_pod "coredns-6799fbcd5-x2x4q" true;
   named_pod "traefik-f4564c4f4-9dvkq" false;
   named_pod "metrics-server-54fd9b65b-jq5zr" true;
   named_pod "svclb-traefik-0f8c0a3a-xk2lp" true].

(** The logging namespace with Promtail running and no Loki pod at all. *)
Definition promtail_only : list json :=
  [named_pod "loki-promtail-x7kq2" true].

(** A ready Promtail pod between a pod of another kind and an entry that
    is no pod at all. *)
Definition promtail_among_others : list json :=
  [named_pod "coredns-6799fbcd5-x2x4q" true;
   named_pod "loki-promtail-x7kq2" true;
   JNull].

(** kubectl exits with 0 and every output parses to [answer]. *)
Definition answering_json (answer : json) : World := {|
  isfile := isfile Sample.down;
  read_text := read_text Sample.down;
  popen := fun _ _ _ => Exited 0 "{}" "";
  connect := connect Sample.down;
  gethostbyname := gethostbyname Sample.down;
  json_loads := fun _ => Ok answer;
  decode_utf8_ignore := decode_utf8_ignore Sample.down;
  py_repr := py_repr Sample.down;
  int_of_str := int_of_str Sample.down
|}.

(** The world [down] in which every name resolves to [addr]. *)
Definition resolving (addr : string) : World := {|
  isfile := isfile Sample.down;
  read_text := read_text Sample.down;
  popen := popen Sample.down;
  connect := connect Sample.down;
  gethostbyname := fun _ _ => Ok addr;
  json_loads := json_loads Sample.down;
  decode_utf8_ignore := decode_utf8_ignore Sample.down;
  py_repr := py_repr Sample.down;
  int_of_str := int_of_str Sample.down
|}.

End Cases.

(** * Proofs *)

(** ** Strings *)

Module StrLemmas.
Import Str StrFacts.

Lemma prefix_app (p rest : string) : String.prefix p (p ++ rest) = true.
Proof.
  induction p as [|a p IH]; simpl.
  - now destruct rest.
  - destruct (ascii_dec a a) as [_|ne]; [exact IH | now destruct ne].
Qed.

Lemma prefix_self (p : string) : String.prefix p p = true.
Proof.
  induction p as [|a p IH]; simpl; [reflexivity|].
  destruct (ascii_dec a a) as [_|ne]; [exact IH | now destruct ne].
Qed.

Lemma contains_prefix (needle hay : string) :
  String.prefix needle hay = true -> contains needle hay = true.
Proof.
  intros H. destruct hay; cbn [contains]; rewrite H; reflexivity.
Qed.

Lemma contains_skip (needle pre hay : string) :
  contains needle hay = true -> contains needle (pre ++ hay) = true.
Proof.
  intros H. induction pre as [|a pre IH]; [exact H|].
  change (String a pre ++ hay) with (String a (pre ++ hay)).
  cbn [contains]. rewrite IH. apply orb_true_r.
Qed.

(** A string occurs in anything built around it. *)
Lemma contains_middle (needle pre post : string) :
  contains needle (pre ++ needle ++ post) = true.
Proof.
  apply contains_skip, contains_prefix, prefix_app.
Qed.

Lemma lstrip_first (s : string) : not_space (first (lstrip s)) = true.
Proof.
  induction s as [|a t IH]; simpl; [reflexivity|].
  destruct (is_space a) eqn:E; [exact IH|]. simpl. now rewrite E.
Qed.

Lemma rstrip_last (s : string) : not_space (last (rstrip s)) = true.
Proof.
  induction s as [|a t IH]; simpl; [reflexivity|].
  destruct (rstrip t) as [|b u] eqn:E.
  - destruct (is_space a) eqn:Ea; simpl; [reflexivity | now rewrite Ea].
  - exact IH.
Qed.

Lemma rstrip_first (s : string) :
  not_space (first s) = true -> not_space (first (rstrip s)) = true.
Proof.
  destruct s as [|a t]; simpl; [reflexivity|].
  intros Ha. destruct (rstrip t).
  - destruct (is_space a) eqn:E; simpl; [reflexivity | now rewrite E].
  - exact Ha.
Qed.

Lemma strip_trimmed (s : string) : trimmed (strip s) = true.
Proof.
  unfold trimmed, strip. apply andb_true_intro. split.
  - apply rstrip_first, lstrip_first.
  - apply rstrip_last.
Qed.

Lemma lstrip_split (s : string) :
  exists l, s = l ++ lstrip s /\ all_space l = true.
Proof.
  induction s as [|a t (l & Hl & Hs)]; simpl.
  - now exists "".
  - destruct (is_space a) eqn:E.
    + exists (String a l). simpl. rewrite E, Hs. now rewrite <- Hl.
    + now exists "".
Qed.

Lemma rstrip_split (s : string) :
  exists r, s = rstrip s ++ r /\ all_space r = true.
Proof.
  induction s as [|a t (r & Hr & Hs)]; simpl.
  - now exists "".
  - destruct (rstrip t) as [|b u] eqn:E.
    + destruct (is_space a) eqn:Ea.
      * exists (String a r). simpl in *. subst r. now rewrite Ea, Hs.
      * exists r. simpl in *. subst r. now rewrite Hs.
    + exists r. simpl in *. now rewrite <- Hr.
Qed.

(** [strip] removes whitespace, and only from the two ends. *)
Lemma strip_split (s : string) :
  exists l r, s = l ++ strip s ++ r
              /\ all_space l = true /\ all_space r = true.
Proof.
  destruct (lstrip_split s) as (l & Hl & Hls).
  destruct (rstrip_split (lstrip s)) as (r & Hr & Hrs).
  exists l, r. unfold strip. now rewrite <- Hr, <- Hl.
Qed.

Lemma append_assoc (a b c : string) : (a ++ b) ++ c = a ++ b ++ c.
Proof. induction a as [|x a IH]; simpl; [reflexivity | now rewrite IH]. Qed.

Lemma append_nil_r (a : string) : a ++ "" = a.
Proof. induction a as [|x a IH]; simpl; [reflexivity | now rewrite IH]. Qed.

Lemma last_app_char (s : string) (a : ascii) :
  last (s ++ String a "") = Some a.
Proof.
  induction s as [|b t IH]; simpl; [reflexivity|].
  destruct (t ++ String a "") eqn:E; [|exact IH].
  destruct t; discriminate.
Qed.

End StrLemmas.

(** ** pod_ready *)

Section PodReadyProofs.

Lemma all_ready_true (cs : list json) :
  all_ready cs = Ok true <-> Forall ready_truthy cs.
Proof.
  induction cs as [|c cs IH]; simpl.
  - split; auto.
  - split.
    + intros H. destruct c; simpl in H; try discriminate.
      destruct (Py.lookup "ready" kv) as [r|] eqn:E; simpl in H;
        [|discriminate].
      destruct (Py.truthy r) eqn:T; [|discriminate].
      constructor; [|now apply IH]. exists r. now split.
    + intros H. inversion H as [|? ? (r & Hf & Ht) Hrest]; subst.
      destruct c; simpl in Hf; try discriminate.
      simpl. rewrite Hf, Ht. now apply IH.
Qed.

Lemma all_ready_keys (kv : list (string * json)) :
  kv <> [] -> all_ready (map (fun p => JStr (fst p)) kv) <> Ok true.
Proof. destruct kv; [congruence | discriminate]. Qed.

Lemma all_ready_chars (s : string) :
  s <> "" -> all_ready (Py.chars s) <> Ok true.
Proof. destruct s; [congruence | discriminate]. Qed.

(** The body returns true exactly on the pods the code accepts. *)
Lemma pod_ready_body_true (pod : json) :
  pod_ready_body pod = Ok true <-> ready_as_coded pod.
Proof.
  unfold pod_ready_body, ready_as_coded, ready_where, phase_running,
    container_statuses.
  split.
  - intros H. destruct pod; simpl in H; try discriminate.
    destruct (Py.lookup "status" kv) as [st|] eqn:Est; simpl in H;
      [|discriminate].
    destruct st; simpl in H; try discriminate.
    destruct (Py.lookup "phase" kv0) as [ph|] eqn:Eph; simpl in H;
      [|discriminate].
    destruct ph; simpl in H; try discriminate.
    destruct (String.eqb s "Running") eqn:Es; simpl in H; [|discriminate].
    apply String.eqb_eq in Es. subst s.
    split; [eexists; split; [exact Est | exact Eph]|].
    destruct (Py.lookup "containerStatuses" kv0) as [raw|] eqn:Eraw;
      simpl in H; [|discriminate].
    unfold Py.or_else in H.
    destruct raw as [| [|] | z | f | s | l | o]; cbn in H;
      try discriminate.
    + destruct (z =? 0); discriminate.
    + destruct f; discriminate.
    + destruct s; discriminate.
    + destruct l as [|c l]; [discriminate|].
      cbn [Py.truthy Py.iter rbind] in H.
      destruct (all_ready (c :: l)) as [[|]|] eqn:Ea; try discriminate.
      exists (c :: l). repeat split.
      * eexists; split; [exact Est | exact Eraw].
      * discriminate.
      * now apply all_ready_true.
    + destruct o as [|p o]; [discriminate|]. destruct p; discriminate.
  - intros ((st & Hst & Hph) & cs & (st' & Hst' & Hcs) & Hne & Hall).
    rewrite Hst in Hst'. injection Hst' as <-.
    destruct pod; simpl in Hst; try discriminate.
    destruct st; simpl in Hph, Hcs; try discriminate.
    simpl. rewrite Hst. simpl. rewrite Hph, Hcs. simpl.
    destruct cs as [|c cs]; [congruence|].
    unfold Py.or_else. cbn [Py.truthy Py.iter rbind].
    apply all_ready_true in Hall. rewrite Hall. reflexivity.
Qed.

Lemma pod_ready_true (pod : json) :
  pod_ready pod = Ok true <-> pod_ready_body pod = Ok true.
Proof.
  unfold pod_ready. destruct (pod_ready_body pod) as [b|e].
  - reflexivity.
  - split; discriminate.
Qed.

End PodReadyProofs.

(** C1, as the specification states it, fails: a running pod whose
    container reports [ready] as the string "false" is accepted by
    [pod_ready], although no container status reports [ready = true]. *)
Lemma pod_ready_accepts_string_flag :
  pod_ready Sample.pod_string_flag = Ok true
  /\ ~ ready_as_specified Sample.pod_string_flag.
Proof.
  split; [reflexivity|].
  intros (_ & cs & (st & Hst & Hcs) & _ & Hall).
  simpl in Hst. injection Hst as <-. simpl in Hcs. injection Hcs as <-.
  inversion Hall as [|c l (r & Hr & Hgood) _]; subst.
  simpl in Hr. discriminate.
Qed.

(** C1, amended: [pod_ready] never raises; it returns true exactly when
    the phase is "Running", the container statuses are a non-empty list and
    every entry has a truthy [ready]; so it accepts every pod the
    specification describes, and it rejects a running pod with an empty
    list of container statuses. *)
Theorem pod_ready_contract (pod : json) :
  (exists b, pod_ready pod = Ok b)
  /\ (pod_ready pod = Ok true <-> ready_as_coded pod)
  /\ (ready_as_specified pod -> pod_ready pod = Ok true)
  /\ (phase_running pod -> container_statuses pod [] ->
      pod_ready pod = Ok false).
Proof.
  assert (Hiff : pod_ready pod = Ok true <-> ready_as_coded pod).
  { rewrite pod_ready_true. apply pod_ready_body_true. }
  assert (Hret : exists b, pod_ready pod = Ok b).
  { unfold pod_ready. destruct (pod_ready_body pod); eauto. }
  repeat split; try apply Hiff; auto.
  - intros (Hrun & cs & Hcs & Hne & Hall). apply Hiff.
    split; [exact Hrun|]. exists cs. repeat split; auto.
    eapply Forall_impl; [|exact Hall].
    intros c (r & Hr & Hgood). subst r. exists (JBool true). now split.
  - intros _ (st & Hst & Hcs).
    destruct Hret as ([|] & Hb); [|exact Hb].
    apply Hiff in Hb.
    destruct Hb as (_ & cs & (st' & Hst' & Hcs') & Hne & _).
    rewrite Hst in Hst'. injection Hst' as <-.
    rewrite Hcs in Hcs'. injection Hcs' as <-. now destruct Hne.
Qed.

Lemma pod_ready_contract_witness :
  pod_ready Sample.pod_healthy = Ok true
  /\ pod_ready Sample.pod_no_containers = Ok false.
Proof.
  split.
  - apply (proj1 (proj2 (proj2 (pod_ready_contract Sample.pod_healthy)))).
    split.
    + exists (JObj [("phase", JStr "Running");
                    ("containerStatuses", JArr [JObj [("ready", JBool true)]])]).
      split; reflexivity.
    + exists [JObj [("ready", JBool true)]]. repeat split.
      * eexists. split; reflexivity.
      * discriminate.
      * constructor; [|constructor]. exists (JBool true). split; reflexivity.
  - apply (proj2 (proj2 (proj2 (pod_ready_contract Sample.pod_no_containers)))).
    + eexists. split; reflexivity.
    + eexists. split; reflexivity.
Defined.

(** ** The monad *)

Section Keeping.
Variable R : state -> state -> Prop.
Hypothesis R_refl : forall s, R s s.
Hypothesis R_trans : forall a b c, R a b -> R b c -> R a c.

Lemma keeps_ret A (a : A) : keeps R (ret a).
Proof. intros s. apply R_refl. Qed.

Lemma keeps_raise A (e : exn) : keeps R (@raise A e).
Proof. intros s. apply R_refl. Qed.

Lemma keeps_lift A (r : result A) : keeps R (lift r).
Proof. intros s. apply R_refl. Qed.

Lemma keeps_bind A B (m : M A) (k : A -> M B) :
  keeps R m -> (forall a, keeps R (k a)) -> keeps R (bind m k).
Proof.
  intros Hm Hk s. unfold bind. specialize (Hm s).
  destruct (m s) as [[a|e] s1]; simpl in *; [|exact Hm].
  eapply R_trans; [exact Hm | apply Hk].
Qed.

Lemma keeps_try A (body : M A) (handler : exn -> M A) :
  keeps R body -> (forall e, keeps R (handler e)) ->
  keeps R (try_except body handler).
Proof.
  intros Hb Hh s. unfold try_except. specialize (Hb s).
  destruct (body s) as [[a|e] s1]; simpl in *; [exact Hb|].
  eapply R_trans; [exact Hb | apply Hh].
Qed.

Lemma keeps_for_each A (l : list A) (body : A -> M unit) :
  (forall x, keeps R (body x)) -> keeps R (for_each l body).
Proof.
  intros Hb. induction l as [|x l IH]; simpl.
  - apply keeps_ret.
  - apply keeps_bind; auto.
Qed.

(** A pair of statements that keeps [R] as a whole, followed by more. *)
Lemma keeps_pair_then A (a b : M unit) (rest : M A) :
  keeps R (bind a (fun _ => b)) -> keeps R rest ->
  keeps R (bind a (fun _ => bind b (fun _ => rest))).
Proof.
  intros Hab Hrest s. specialize (Hab s). unfold bind in *.
  destruct (a s) as [[[]|e] s1]; simpl in *; [|exact Hab].
  destruct (b s1) as [[[]|e] s2]; simpl in *; [|exact Hab].
  eapply R_trans; [exact Hab | apply Hrest].
Qed.

End Keeping.

(** Normal return. *)

Lemma total_emit (l : line) : total (emit l).
Proof. intros s. eexists. reflexivity. Qed.

Lemma total_incr_passed : total incr_passed.
Proof. intros s. eexists. reflexivity. Qed.

Lemma total_incr_failed : total incr_failed.
Proof. intros s. eexists. reflexivity. Qed.

Lemma total_incr_warned : total incr_warned.
Proof. intros s. eexists. reflexivity. Qed.

Lemma total_ret : total (ret tt).
Proof. intros s. eexists. reflexivity. Qed.

Lemma total_bind (m k : M unit) :
  total m -> total k -> total (bind m (fun _ => k)).
Proof.
  intros Hm Hk s. destruct (Hm s) as (s1 & E1). destruct (Hk s1) as (s2 & E2).
  exists s2. unfold bind. now rewrite E1.
Qed.

(** A [try] whose handler returns normally returns normally, whatever
    its body does. *)
Lemma total_try (body : M unit) (handler : exn -> M unit) :
  (forall e, total (handler e)) -> total (try_except body handler).
Proof.
  intros Hh s. unfold try_except.
  destruct (body s) as [[[]|e] s1]; [now exists s1 | apply Hh].
Qed.

Lemma total_for_each A (l : list A) (body : A -> M unit) :
  (forall x, total (body x)) -> total (for_each l body).
Proof.
  intros Hb. induction l as [|x l IH]; simpl.
  - apply total_ret.
  - apply total_bind; auto.
Qed.

(** ** sh *)

Lemma timeout_message_trimmed (timeout : Z) :
  StrFacts.trimmed ("timeout after " ++ Str.of_Z timeout ++ "s") = true.
Proof.
  unfold StrFacts.trimmed. apply andb_true_intro. split; [reflexivity|].
  replace ("timeout after " ++ Str.of_Z timeout ++ "s")
    with (("timeout after " ++ Str.of_Z timeout) ++ "s")
    by apply StrLemmas.append_assoc.
  rewrite StrLemmas.last_app_char. reflexivity.
Qed.

(** C6: when the child does not finish in time, [sh] kills it and returns
    the non-zero code 124, an empty stdout and the timeout message in the
    place of stderr; when the child exits, [sh] returns its exit code with
    both texts stripped; and whatever [sh] returns has no whitespace at
    either end of the two texts. *)
Theorem sh_contract (w : World) (cmd : string) (timeout : Z) (s : state) :
  (popen w (clock s) cmd timeout = TimeoutExpired ->
   exists rc s',
     sh w cmd timeout s
     = (Ok (rc, "", "timeout after " ++ Str.of_Z timeout ++ "s"), s')
     /\ rc <> 0
     /\ In (Killed cmd) (procs s'))
  /\ (forall rc stdout stderr,
        popen w (clock s) cmd timeout = Exited rc stdout stderr ->
        exists s',
          sh w cmd timeout s = (Ok (rc, Str.strip stdout, Str.strip stderr), s'))
  /\ (forall rc out err s',
        sh w cmd timeout s = (Ok (rc, out, err), s') ->
        StrFacts.trimmed out = true /\ StrFacts.trimmed err = true).
Proof.
  unfold sh, bind, tick, record_proc, ret, raise. cbn [clock procs].
  split; [|split].
  - intros ->. exists 124. eexists. split; [reflexivity|].
    split; [discriminate|].
    cbn [procs]. apply in_or_app. right. now left.
  - intros rc stdout stderr ->. eexists. reflexivity.
  - intros rc out err s'.
    destruct (popen w (clock s) cmd timeout); intros H; inversion H; subst.
    + split; apply StrLemmas.strip_trimmed.
    + split; [reflexivity | apply timeout_message_trimmed].
Qed.

Lemma sh_contract_witness :
  (exists rc s',
     sh Sample.hanging "kubectl get ns argocd" 20 initial
     = (Ok (rc, "", "timeout after 20s"), s')
     /\ rc <> 0
     /\ In (Killed "kubectl get ns argocd") (procs s'))
  /\ (exists s',
        sh Sample.down "kubectl get ns argocd" 20 initial
        = (Ok (1, "", "The connection to the server was refused"), s')).
Proof.
  split.
  - apply (proj1 (sh_contract Sample.hanging "kubectl get ns argocd" 20
                              initial)).
    reflexivity.
  - apply (proj1 (proj2 (sh_contract Sample.down "kubectl get ns argocd" 20
                                     initial))
             1 "" ("The connection to the server was refused" ++ Str.nl)).
    reflexivity.
Defined.

(** ** kubectl_json *)

Lemma kubectl_json_exited (w : World) (arguments kcfg : string) (s : state)
      (rc : Z) (stdout stderr : string) :
  popen w (clock s) (kubectl kcfg (arguments ++ " -o json")) 40
  = Exited rc stdout stderr ->
  exists s',
    kubectl_json w arguments kcfg s
    = (if rc =? 0 then json_loads w (Str.strip stdout)
       else Raise (kubectl_failure arguments (Str.strip stdout)
                                   (Str.strip stderr)),
       s')
    /\ same_counters s s' /\ printed s' = printed s.
Proof.
  intros H. unfold kubectl_json, sh, bind, tick, record_proc, ret, raise, lift.
  cbn [clock]. rewrite H. destruct (rc =? 0); cbn [negb];
    eexists; (split; [reflexivity | now repeat split]).
Qed.

(** ** http_probe *)

Section ProbeProofs.
Variable w : World.

Lemma set_up_steps (scheme : string) (x : http_exchange) :
  set_up scheme x ->
  (if String.eqb scheme "https"
   then (let? _ := hx_context x in hx_connect x)%res
   else hx_connect x) = Ok tt.
Proof.
  intros [Hctx Hconn]. destruct (String.eqb scheme "https") eqn:E.
  - apply String.eqb_eq in E. rewrite (Hctx E). exact Hconn.
  - exact Hconn.
Qed.

Lemma responds_steps scheme x status reason data :
  responds scheme x status reason data ->
  probe_steps w scheme x
  = Ok ((100 <=? status) && (status <? 500), status, reason,
        decode_utf8_ignore w data).
Proof.
  intros (Hup & Hreq & Hresp & Hread & Hclose). unfold probe_steps.
  rewrite (set_up_steps Hup), Hreq, Hresp, Hread, Hclose. reflexivity.
Qed.

Lemma raises_steps scheme x e :
  raises_during scheme x e -> probe_steps w scheme x = Raise e.
Proof.
  unfold probe_steps.
  intros [Hs Hctx | Hctx Hconn | Hup Hreq | Hup Hreq Hresp
          | r Hup Hreq Hresp Hread | r d Hup Hreq Hresp Hread Hclose].
  - subst scheme. cbn. now rewrite Hctx.
  - destruct (String.eqb scheme "https") eqn:E.
    + apply String.eqb_eq in E. now rewrite (Hctx E), Hconn.
    + now rewrite Hconn.
  - now rewrite (set_up_steps Hup), Hreq.
  - now rewrite (set_up_steps Hup), Hreq, Hresp.
  - now rewrite (set_up_steps Hup), Hreq, Hresp, Hread.
  - now rewrite (set_up_steps Hup), Hreq, Hresp, Hread, Hclose.
Qed.

(** What [http_probe] returns, in terms of the body of its [try]. *)
Lemma http_probe_unfold (addr host scheme path : string) (s : state) :
  exists s',
    http_probe w addr host scheme path s
    = (Ok (match probe_steps w scheme
                   (connect w (clock s) scheme addr host path) with
           | Ok r => r
           | Raise e => (false, 0, exn_msg e, "")
           end), s')
    /\ same_counters s s' /\ printed s' = printed s.
Proof.
  unfold http_probe, try_except, bind, tick, lift, ret. cbn [clock].
  destruct (probe_steps w scheme _); eexists;
    (split; [reflexivity | now repeat split]).
Qed.

End ProbeProofs.

(** C2: [http_probe] always returns a result. When the exchange succeeds,
    the result carries the status and reason of the response, with alive
    true for a status in [100, 500) and false for a status of 500 or more.
    When a step of the exchange raises, the result is alive false, status 0
    and the message of the exception as the reason. *)
Theorem http_probe_classifies (w : World) (addr host scheme path : string)
        (s : state) :
  exists alive code reason body s',
    http_probe w addr host scheme path s
    = (Ok (alive, code, reason, body), s')
    /\ (forall status rsn data,
          responds scheme (connect w (clock s) scheme addr host path)
                   status rsn data ->
          code = status /\ reason = rsn
          /\ (100 <= status < 500 -> alive = true)
          /\ (500 <= status -> alive = false))
    /\ (forall e,
          raises_during scheme (connect w (clock s) scheme addr host path) e ->
          alive = false /\ code = 0 /\ reason = exn_msg e /\ body = "").
Proof.
  destruct (http_probe_unfold w addr host scheme path s) as (s' & E & _).
  set (x := connect w (clock s) scheme addr host path) in *.
  destruct (probe_steps w scheme x) as [[[[alive code] reason] body]|e0] eqn:P.
  - exists alive, code, reason, body, s'. split; [exact E|]. split.
    + intros status rsn data Hr.
      rewrite (responds_steps w Hr) in P. injection P as <- <- <- <-.
      repeat split.
      * intros [Hlo Hhi]. apply andb_true_intro. split; lia.
      * intros Hhi. apply andb_false_intro2. lia.
    + intros e He. rewrite (raises_steps w He) in P. discriminate.
  - exists false, 0, (exn_msg e0), "", s'. split; [exact E|]. split.
    + intros status rsn data Hr.
      rewrite (responds_steps w Hr) in P. discriminate.
    + intros e He. rewrite (raises_steps w He) in P.
      injection P as <-. now repeat split.
Qed.

Lemma http_probe_classifies_witness :
  exists alive code reason body s',
    http_probe (Sample.answering Sample.not_found) "192.168.2.60"
               "whoami.pizza" "http" "/" initial
    = (Ok (alive, code, reason, body), s')
    /\ alive = true /\ code = 404.
Proof.
  destruct (http_probe_classifies (Sample.answering Sample.not_found)
              "192.168.2.60" "whoami.pizza" "http" "/" initial)
    as (alive & code & reason & body & s' & E & Hresp & _).
  exists alive, code, reason, body, s'. split; [exact E|].
  destruct (Hresp 404 "Not Found" "404 page") as (Hcode & _ & Hin & _).
  - repeat split; reflexivity.
  - split; [apply Hin; lia | exact Hcode].
Defined.

(** ** Relations that every statement of the script keeps *)

Lemma count_app (p : line -> bool) (l1 l2 : list line) :
  count p (l1 ++ l2) = count p l1 + count p l2.
Proof.
  unfold count. rewrite filter_app, length_app. apply Nat2Z.inj_add.
Qed.

Lemma headers_app (l1 l2 : list line) :
  headers (l1 ++ l2) = (headers l1 ++ headers l2)%list.
Proof. apply filter_app. Qed.

Lemma prints_refl (s : state) : prints s s [].
Proof. unfold prints. now rewrite app_nil_r. Qed.

Lemma prints_trans (a b c : state) (l1 l2 : list line) :
  prints a b l1 -> prints b c l2 -> prints a c (l1 ++ l2).
Proof. unfold prints. intros H1 H2. now rewrite H2, H1, app_assoc. Qed.

Lemma same_counters_refl (s : state) : same_counters s s.
Proof. now repeat split. Qed.

Lemma same_counters_trans (a b c : state) :
  same_counters a b -> same_counters b c -> same_counters a c.
Proof. unfold same_counters. intuition congruence. Qed.

Lemma climbs_refl (s : state) : climbs s s.
Proof. apply rt_refl. Qed.

Lemma climbs_trans (a b c : state) : climbs a b -> climbs b c -> climbs a c.
Proof. apply rt_trans. Qed.

Lemma accounted_refl (s : state) : accounted s s.
Proof.
  exists []. split; [apply prints_refl|]. unfold count. simpl. lia.
Qed.

Lemma accounted_trans (a b c : state) :
  accounted a b -> accounted b c -> accounted a c.
Proof.
  intros (l1 & P1 & Hp1 & Hw1 & Hf1) (l2 & P2 & Hp2 & Hw2 & Hf2).
  exists (l1 ++ l2)%list. split; [eapply prints_trans; eauto|].
  rewrite !count_app. lia.
Qed.

Lemma no_headers_refl (s : state) : no_headers s s.
Proof. exists []. split; [apply prints_refl | reflexivity]. Qed.

Lemma no_headers_trans (a b c : state) :
  no_headers a b -> no_headers b c -> no_headers a c.
Proof.
  intros (l1 & P1 & H1) (l2 & P2 & H2).
  exists (l1 ++ l2)%list. split; [eapply prints_trans; eauto|].
  now rewrite headers_app, H1, H2.
Qed.

(** The counters only climb: they never fall. *)
Lemma climbs_le (s s' : state) :
  climbs s s' ->
  passed s <= passed s' /\ failed s <= failed s' /\ warned s <= warned s'.
Proof.
  induction 1 as [a b [(Hp & Hf & Hw)| | |] | a | a b c _ IH1 _ IH2]; lia.
Qed.

(** *** The elementary statements *)

Section Elementary.

Lemma climbs_emit (l : line) : keeps climbs (emit l).
Proof. intros s. apply rt_step, bump_none. now repeat split. Qed.

Lemma climbs_tick : keeps climbs tick.
Proof. intros s. apply rt_step, bump_none. now repeat split. Qed.

Lemma climbs_record (ev : proc_event) : keeps climbs (record_proc ev).
Proof. intros s. apply rt_step, bump_none. now repeat split. Qed.

Lemma climbs_incr_passed : keeps climbs incr_passed.
Proof. intros s. apply rt_step, bump_passed; reflexivity. Qed.

Lemma climbs_incr_failed : keeps climbs incr_failed.
Proof. intros s. apply rt_step, bump_failed; reflexivity. Qed.

Lemma climbs_incr_warned : keeps climbs incr_warned.
Proof. intros s. apply rt_step, bump_warned; reflexivity. Qed.

Lemma no_headers_emit (l : line) :
  is_header l = false -> keeps no_headers (emit l).
Proof.
  intros H s. exists [l]. split; [reflexivity|].
  unfold headers. simpl. now rewrite H.
Qed.

Lemma no_headers_silent A (m : M A) :
  (forall s, printed (snd (m s)) = printed s) -> keeps no_headers m.
Proof.
  intros H s. exists []. split; [|reflexivity].
  unfold prints. now rewrite H, app_nil_r.
Qed.

Lemma accounted_silent A (m : M A) :
  (forall s, printed (snd (m s)) = printed s
             /\ same_counters s (snd (m s))) ->
  keeps accounted m.
Proof.
  intros H s. destruct (H s) as (Hp & Hc1 & Hc2 & Hc3).
  exists []. split; [unfold prints; now rewrite Hp, app_nil_r|].
  unfold count. simpl. lia.
Qed.

Lemma accounted_plain (l : line) :
  is_pass l = false -> is_warning l = false -> is_failure l = false ->
  keeps accounted (emit l).
Proof.
  intros Hp Hw Hf s. exists [l]. split; [reflexivity|].
  unfold count. simpl. rewrite Hp, Hw, Hf. simpl. lia.
Qed.

Lemma accounted_pass (msg : string) :
  keeps accounted (bind (ok msg) (fun _ => incr_passed)).
Proof.
  intros s. exists [Pass msg]. split; [reflexivity|].
  unfold count. simpl. lia.
Qed.

Lemma accounted_fail (msg : string) :
  keeps accounted (bind (fail msg) (fun _ => incr_failed)).
Proof.
  intros s. exists [Failure msg]. split; [reflexivity|].
  unfold count. simpl. lia.
Qed.

Lemma accounted_warn (msg : string) :
  keeps accounted (bind (warn msg) (fun _ => incr_warned)).
Proof.
  intros s. exists [Warning msg]. split; [reflexivity|].
  unfold count. simpl. lia.
Qed.

End Elementary.

Section ElementaryMore.

Lemma accounted_tick : keeps accounted tick.
Proof. apply accounted_silent. intros s. now repeat split. Qed.

Lemma accounted_record (ev : proc_event) : keeps accounted (record_proc ev).
Proof. apply accounted_silent. intros s. now repeat split. Qed.

Lemma accounted_print (s : string) : keeps accounted (print s).
Proof. apply accounted_plain; reflexivity. Qed.

Lemma accounted_info (s : string) : keeps accounted (info s).
Proof. apply accounted_plain; reflexivity. Qed.

Lemma no_headers_tick : keeps no_headers tick.
Proof. apply no_headers_silent. reflexivity. Qed.

Lemma no_headers_record (ev : proc_event) :
  keeps no_headers (record_proc ev).
Proof. apply no_headers_silent. reflexivity. Qed.

Lemma no_headers_incr_passed : keeps no_headers incr_passed.
Proof. apply no_headers_silent. reflexivity. Qed.

Lemma no_headers_incr_failed : keeps no_headers incr_failed.
Proof. apply no_headers_silent. reflexivity. Qed.

Lemma no_headers_incr_warned : keeps no_headers incr_warned.
Proof. apply no_headers_silent. reflexivity. Qed.

Lemma no_headers_ok (msg : string) : keeps no_headers (ok msg).
Proof. now apply no_headers_emit. Qed.

Lemma no_headers_fail (msg : string) : keeps no_headers (fail msg).
Proof. now apply no_headers_emit. Qed.

Lemma no_headers_warn (msg : string) : keeps no_headers (warn msg).
Proof. now apply no_headers_emit. Qed.

Lemma no_headers_print (s : string) : keeps no_headers (print s).
Proof. now apply no_headers_emit. Qed.

End ElementaryMore.

(** *** Walking through a statement *)

Ltac climbs_leaf :=
  first [ apply climbs_emit | apply climbs_tick | apply climbs_record
        | apply climbs_incr_passed | apply climbs_incr_failed
        | apply climbs_incr_warned ].

Ltac no_headers_leaf :=
  first [ apply no_headers_ok | apply no_headers_fail | apply no_headers_warn
        | apply no_headers_print | apply no_headers_tick
        | apply no_headers_record | apply no_headers_incr_passed
        | apply no_headers_incr_failed | apply no_headers_incr_warned ].

Ltac accounted_leaf :=
  first [ apply accounted_pass | apply accounted_fail | apply accounted_warn
        | apply (keeps_pair_then accounted_trans); [apply accounted_pass|]
        | apply (keeps_pair_then accounted_trans); [apply accounted_fail|]
        | apply (keeps_pair_then accounted_trans); [apply accounted_warn|]
        | apply accounted_print | apply accounted_info
        | apply accounted_tick | apply accounted_record ].

(** Follow the structure of a statement: sequences, [try], loops and
    branches, down to elementary statements, which [leaf] handles. *)
Ltac walk rfl trs leaf :=
  repeat first
    [ progress intros
    | apply (@keeps_ret _ rfl)
    | apply (@keeps_raise _ rfl)
    | apply (@keeps_lift _ rfl)
    | leaf
    | apply (keeps_bind trs)
    | apply (keeps_try trs)
    | apply (keeps_for_each rfl trs)
    | match goal with
      | |- keeps _ (match ?x with _ => _ end) => destruct x
      end ].

Ltac open_helpers :=
  unfold probe_report, http_probe, kubectl_json, sh.

Ltac walk_climbs :=
  open_helpers; walk climbs_refl climbs_trans climbs_leaf.
Ltac walk_no_headers :=
  open_helpers; walk no_headers_refl no_headers_trans no_headers_leaf.
Ltac walk_accounted :=
  open_helpers; walk accounted_refl accounted_trans accounted_leaf.

Section Sections.
Variable w : World.
Variable args : Namespace.

(** Every check accounts for each line it prints. *)

Lemma accounted_api_readyz : keeps accounted (api_readyz w args).
Proof. unfold api_readyz. walk_accounted. Qed.

Lemma accounted_node_health : keeps accounted (node_health w args).
Proof. unfold node_health. walk_accounted. Qed.

Lemma accounted_core_pods : keeps accounted (core_pods w args).
Proof. unfold core_pods. walk_accounted. Qed.

Lemma accounted_namespaces : keeps accounted (namespaces w args).
Proof. unfold namespaces. walk_accounted. Qed.

Lemma accounted_argo_cd : keeps accounted (argo_cd w args).
Proof. unfold argo_cd. walk_accounted. Qed.

Lemma accounted_monitoring : keeps accounted (monitoring w args).
Proof. unfold monitoring. walk_accounted. Qed.

Lemma accounted_logging : keeps accounted (logging w args).
Proof. unfold logging. walk_accounted. Qed.

Lemma accounted_whoami_app : keeps accounted (whoami_app w args).
Proof. unfold whoami_app. walk_accounted. Qed.

End Sections.

(** ** Normal return of the sections *)

Lemma runs_to_of_total (m : M unit) (R : state -> state -> Prop) :
  total m -> keeps R m -> runs_to R m.
Proof.
  intros Ht Hk s. destruct (Ht s) as (s' & E). exists s'. split; [exact E|].
  specialize (Hk s). now rewrite E in Hk.
Qed.

Lemma emits_trans (h1 h2 : list line) (a b c : state) :
  emits h1 a b -> emits h2 b c -> emits (h1 ++ h2) a c.
Proof.
  intros (l1 & P1 & H1) (l2 & P2 & H2). exists (l1 ++ l2)%list.
  split; [eapply prints_trans; eauto|]. now rewrite headers_app, H1, H2.
Qed.

Lemma runs_seq (h1 h2 : list line) (m k : M unit) :
  runs_to (emits h1) m -> runs_to (emits h2) k ->
  runs_to (emits (h1 ++ h2)) (bind m (fun _ => k)).
Proof.
  intros Hm Hk s. destruct (Hm s) as (s1 & E1 & Q1).
  destruct (Hk s1) as (s2 & E2 & Q2). exists s2.
  split; [unfold bind; now rewrite E1 | eapply emits_trans; eauto].
Qed.

Lemma runs_seq_end (args : Namespace) (h1 h2 : list line) (m k : M unit) :
  runs_to (emits h1) m -> runs_to (ends_with_summary args h2) k ->
  runs_to (ends_with_summary args (h1 ++ h2)) (bind m (fun _ => k)).
Proof.
  intros Hm Hk s. destruct (Hm s) as (s1 & E1 & l1 & P1 & H1).
  destruct (Hk s1) as (s2 & E2 & l2 & P2 & H2). exists s2.
  split; [unfold bind; now rewrite E1|].
  exists (l1 ++ l2)%list. split.
  - unfold prints in *. now rewrite P2, P1, !app_assoc.
  - now rewrite headers_app, H1, H2.
Qed.

(** A section: an empty line, its header, and a body that prints no
    header and returns normally. *)
Lemma runs_section (hdr : string) (body : M unit) :
  total body -> keeps no_headers body ->
  runs_to (emits [Header hdr])
          (bind (print "") (fun _ => bind (info hdr) (fun _ => body))).
Proof.
  intros Ht Hk s.
  destruct (runs_to_of_total Ht Hk
              (State (passed s) (failed s) (warned s)
                     ((printed s ++ [Text ""]) ++ [Header hdr])
                     (procs s) (clock s) (writes s)))
    as (s' & E & ls & P & H).
  exists s'. split; [exact E|].
  exists ([Text ""; Header hdr] ++ ls)%list. split.
  - unfold prints in *. rewrite P. cbn [printed].
    now rewrite <- !app_assoc.
  - rewrite headers_app, H. reflexivity.
Qed.

Lemma total_pass (msg : string) : total (bind (ok msg) (fun _ => incr_passed)).
Proof. apply total_bind; [apply total_emit | apply total_incr_passed]. Qed.

Lemma total_failure (msg : string) :
  total (bind (fail msg) (fun _ => incr_failed)).
Proof. apply total_bind; [apply total_emit | apply total_incr_failed]. Qed.

Lemma total_warning (msg : string) :
  total (bind (warn msg) (fun _ => incr_warned)).
Proof. apply total_bind; [apply total_emit | apply total_incr_warned]. Qed.

(** A handler that prints one line and counts it ends every [try] of the
    script. *)
Ltac handled :=
  apply total_try; intros;
  first [ apply total_failure | apply total_warning | apply total_emit ].

Lemma for_each_emit (ls : list line) (s : state) :
  for_each ls emit s
  = (Ok tt, State (passed s) (failed s) (warned s) (printed s ++ ls)
                  (procs s) (clock s) (writes s)).
Proof.
  revert s. induction ls as [|l ls IH]; intros s; simpl.
  - unfold ret. rewrite app_nil_r. now destruct s.
  - unfold bind, emit at 1. rewrite IH. cbn. now rewrite <- app_assoc.
Qed.

Section Completion.
Variable w : World.
Variable args : Namespace.

Lemma runs_api_readyz : runs_to (emits []) (api_readyz w args).
Proof.
  apply runs_to_of_total.
  - unfold api_readyz. handled.
  - unfold api_readyz. walk_no_headers.
Qed.

Lemma runs_node_health :
  runs_to (emits [Header "=== Node health ==="]) (node_health w args).
Proof.
  unfold node_health. apply runs_section; [handled | walk_no_headers].
Qed.

Lemma runs_core_pods :
  runs_to (emits [Header "=== Core kube-system pods ==="])
          (core_pods w args).
Proof.
  unfold core_pods. apply runs_section; [handled | walk_no_headers].
Qed.

Lemma runs_namespaces :
  runs_to (emits [Header "=== Namespaces present ==="]) (namespaces w args).
Proof.
  unfold namespaces. apply runs_section; [|walk_no_headers].
  apply total_for_each. intros ns. handled.
Qed.

Lemma runs_argo_cd :
  runs_to (emits [Header "=== Argo CD ==="]) (argo_cd w args).
Proof.
  unfold argo_cd. apply runs_section; [handled | walk_no_headers].
Qed.

Lemma runs_monitoring :
  runs_to
    (emits [Header "=== Grafana / Prometheus (kube-prometheus-stack) ==="])
    (monitoring w args).
Proof.
  unfold monitoring. apply runs_section; [handled | walk_no_headers].
Qed.

Lemma runs_logging :
  runs_to (emits [Header "=== Loki / Promtail ==="]) (logging w args).
Proof.
  unfold logging. apply runs_section; [handled | walk_no_headers].
Qed.

Lemma runs_whoami_app :
  runs_to (emits [Header "=== Demo app: whoami ==="]) (whoami_app w args).
Proof.
  unfold whoami_app. apply runs_section; [handled | walk_no_headers].
Qed.

Lemma runs_dns_hints :
  runs_to (emits [Header "=== Optional DNS hints ==="]) (dns_hints w args).
Proof.
  unfold dns_hints, dns_hint. apply runs_section; [|walk_no_headers].
  apply total_for_each. intros host. handled.
Qed.

Lemma runs_summary : runs_to (ends_with_summary args []) (summary args).
Proof.
  intros s. unfold summary. rewrite for_each_emit. eexists.
  split; [reflexivity|]. exists []. split; reflexivity.
Qed.

End Completion.

(** ** The whole run *)

Lemma runs_seq_end_eq (args : Namespace) (h h1 h2 : list line)
      (m k : M unit) :
  runs_to (emits h1) m -> runs_to (ends_with_summary args h2) k ->
  h = (h1 ++ h2)%list ->
  runs_to (ends_with_summary args h) (bind m (fun _ => k)).
Proof. intros Hm Hk ->. now apply runs_seq_end. Qed.

(** Read the fields of a state that is written out. *)
Ltac fields :=
  cbn [passed failed warned printed procs clock writes fst snd].

Ltac then_section lem :=
  eapply runs_seq_end_eq; [apply lem | | reflexivity].

(** ** One assignment at a time *)

Lemma replay_app (a b : list write) (t : Z * Z * Z) :
  replay (a ++ b) t
  = match replay a t with Some t' => replay b t' | None => None end.
Proof.
  revert t. induction a as [|wr a IH]; intros t; [reflexivity|].
  cbn [app replay]. destruct (read (target wr) t =? old_value wr);
    [apply IH | reflexivity].
Qed.

Lemma read_assign (c d : counter) (v : Z) (t : Z * Z * Z) :
  read c (assign d v t) = if counter_eqb d c then v else read c t.
Proof. destruct t as [[p f] x]. now destruct c, d. Qed.

Lemma writes_to_cons (c : counter) (wr : write) (ws : list write) :
  writes_to c (wr :: ws)
  = (if counter_eqb (target wr) c then 1 else 0) + writes_to c ws.
Proof.
  unfold writes_to. cbn [filter].
  destruct (counter_eqb (target wr) c); cbn [List.length]; lia.
Qed.

(** Assignments that each add one leave in every counter its old value
    plus the number of assignments made to it. *)
Lemma replay_increments (c : counter) (ws : list write) (t t' : Z * Z * Z) :
  Forall increment ws -> replay ws t = Some t' ->
  read c t' = read c t + writes_to c ws.
Proof.
  intros F. revert t. induction F as [|wr ws Hwr _ IH]; intros t E.
  - cbn [replay] in E. injection E as <-. unfold writes_to.
    cbn [filter List.length]. lia.
  - cbn [replay] in E.
    destruct (read (target wr) t =? old_value wr) eqn:Hold; [|discriminate].
    apply Z.eqb_eq in Hold. rewrite (IH _ E), read_assign, writes_to_cons.
    unfold increment in Hwr.
    destruct (counter_eqb (target wr) c) eqn:Hc; [|lia].
    assert (target wr = c) as <- by (now destruct (target wr), c).
    lia.
Qed.

Lemma stepped_refl (s : state) : stepped_by_one s s.
Proof.
  exists []. split; [|apply Forall_nil].
  split; [now rewrite app_nil_r | reflexivity].
Qed.

Lemma stepped_trans (a b c : state) :
  stepped_by_one a b -> stepped_by_one b c -> stepped_by_one a c.
Proof.
  intros (w1 & (L1 & R1) & F1) (w2 & (L2 & R2) & F2).
  exists (w1 ++ w2)%list. split; [|apply Forall_app; now split].
  split.
  - now rewrite L2, L1, app_assoc.
  - now rewrite replay_app, R1.
Qed.

(** What the counters of the two states of [stepped_by_one] are to one
    another. *)
Lemma stepped_counts (s s' : state) :
  stepped_by_one s s' ->
  exists ws,
    writes s' = (writes s ++ ws)%list /\ Forall increment ws
    /\ passed s' = passed s + writes_to CPassed ws
    /\ failed s' = failed s + writes_to CFailed ws
    /\ warned s' = warned s + writes_to CWarned ws.
Proof.
  intros (ws & (L & R) & F). exists ws.
  split; [exact L|]. split; [exact F|].
  pose proof (@replay_increments CPassed _ _ _ F R) as Hp.
  pose proof (@replay_increments CFailed _ _ _ F R) as Hf.
  pose proof (@replay_increments CWarned _ _ _ F R) as Hw.
  now repeat split.
Qed.

Lemma writes_to_nonneg (c : counter) (ws : list write) : 0 <= writes_to c ws.
Proof. unfold writes_to. lia. Qed.

Section ElementarySteps.

Lemma stepped_silent A (m : M A) :
  (forall s, writes (snd (m s)) = writes s
             /\ counters (snd (m s)) = counters s) ->
  keeps stepped_by_one m.
Proof.
  intros H s. destruct (H s) as (L & C). exists [].
  split; [|apply Forall_nil].
  split; [now rewrite app_nil_r | cbn [replay]; now rewrite C].
Qed.

Lemma stepped_emit (l : line) : keeps stepped_by_one (emit l).
Proof. apply stepped_silent. now split. Qed.

Lemma stepped_tick : keeps stepped_by_one tick.
Proof. apply stepped_silent. now split. Qed.

Lemma stepped_record (ev : proc_event) : keeps stepped_by_one (record_proc ev).
Proof. apply stepped_silent. now split. Qed.

Lemma stepped_incr_passed : keeps stepped_by_one incr_passed.
Proof.
  intros s. exists [Write CPassed (passed s) (passed s + 1)].
  split; [|repeat constructor].
  split; [reflexivity|]. unfold counters. cbn [replay read target old_value].
  now rewrite Z.eqb_refl.
Qed.

Lemma stepped_incr_failed : keeps stepped_by_one incr_failed.
Proof.
  intros s. exists [Write CFailed (failed s) (failed s + 1)].
  split; [|repeat constructor].
  split; [reflexivity|]. unfold counters. cbn [replay read target old_value].
  now rewrite Z.eqb_refl.
Qed.

Lemma stepped_incr_warned : keeps stepped_by_one incr_warned.
Proof.
  intros s. exists [Write CWarned (warned s) (warned s + 1)].
  split; [|repeat constructor].
  split; [reflexivity|]. unfold counters. cbn [replay read target old_value].
  now rewrite Z.eqb_refl.
Qed.

End ElementarySteps.

Ltac stepped_leaf :=
  first [ apply stepped_emit | apply stepped_tick | apply stepped_record
        | apply stepped_incr_passed | apply stepped_incr_failed
        | apply stepped_incr_warned ].

Ltac walk_stepped :=
  open_helpers; walk stepped_refl stepped_trans stepped_leaf.

Section WholeRun.
Variable w : World.
Variable args : Namespace.
Local Open Scope m_scope.

Lemma main_unfold (s : state) :
  main w args s
  = bind (kubeconfig_check w args) (fun _ => rest_of_main w args) (at_kubeconfig s).
Proof. reflexivity. Qed.

Lemma runs_rest_of_main :
  runs_to (ends_with_summary args (tl all_headers)) (rest_of_main w args).
Proof.
  unfold rest_of_main.
  then_section runs_api_readyz. then_section runs_node_health.
  then_section runs_core_pods. then_section runs_namespaces.
  then_section runs_argo_cd. then_section runs_monitoring.
  then_section runs_logging. then_section runs_whoami_app.
  then_section runs_dns_hints. apply runs_summary.
Qed.

Lemma climbs_summary : keeps climbs (summary args).
Proof.
  intros s. unfold summary.
  apply (keeps_for_each climbs_refl climbs_trans _ emit climbs_emit).
Qed.

Lemma climbs_kubeconfig_check : keeps climbs (kubeconfig_check w args).
Proof. unfold kubeconfig_check. walk_climbs. Qed.

Lemma climbs_dns_hints : keeps climbs (dns_hints w args).
Proof. unfold dns_hints, dns_hint. walk_climbs. Qed.

Lemma climbs_checks :
  Forall (fun c : M unit => keeps climbs c) (checks w args).
Proof.
  unfold checks, api_readyz, node_health, core_pods, namespaces, argo_cd,
    monitoring, logging, whoami_app.
  repeat apply Forall_cons; try apply Forall_nil; walk_climbs.
Qed.

Lemma climbs_rest_of_main : keeps climbs (rest_of_main w args).
Proof.
  pose proof climbs_checks as H. unfold checks in H.
  repeat match type of H with
         | Forall _ (_ :: _) =>
             let Hc := fresh "Hc" in
             let Hr := fresh "Hr" in
             apply Forall_cons_iff in H; destruct H as [Hc H]
         end.
  unfold rest_of_main.
  walk climbs_refl climbs_trans
       ltac:(first [ assumption | apply climbs_dns_hints
                   | apply climbs_summary ]).
Qed.

Lemma climbs_main : keeps climbs (main w args).
Proof.
  intros s. rewrite main_unfold.
  apply rt_trans with (y := at_kubeconfig s).
  - apply rt_step, bump_none. now repeat split.
  - exact (keeps_bind climbs_trans (fun _ => rest_of_main w args)
                      climbs_kubeconfig_check
                      (fun _ => climbs_rest_of_main) (at_kubeconfig s)).
Qed.

(** Past the kubeconfig file, the run goes through every section and
    prints the summary. *)
Lemma main_completes (s s1 : state) :
  kubeconfig_check w args (at_kubeconfig s) = (Ok tt, s1) ->
  exists s',
    main w args s = (Ok tt, s')
    /\ rest_of_main w args s1 = (Ok tt, s')
    /\ ends_with_summary args all_headers s s'.
Proof.
  intros E. destruct (runs_rest_of_main s1) as (s' & E' & ls & P & H).
  exists s'. rewrite main_unfold. unfold bind at 1. rewrite E.
  repeat split; [exact E' | exact E' |].
  assert (K : no_headers (at_kubeconfig s) s1).
  { assert (Hk : keeps no_headers (kubeconfig_check w args))
      by (unfold kubeconfig_check; walk_no_headers).
    specialize (Hk (at_kubeconfig s)). now rewrite E in Hk. }
  destruct K as (lk & Pk & Hk).
  exists ([Text ""; Header "=== Kubeconfig & API ==="] ++ lk ++ ls)%list.
  split.
  - unfold prints in *. rewrite P, Pk. unfold at_kubeconfig, after_header.
    cbn [printed]. now rewrite <- !app_assoc.
  - rewrite headers_app, headers_app, Hk, H. reflexivity.
Qed.

(** An exception at the kubeconfig file ends [main]. *)
Lemma main_stops (s s1 : state) (e : exn) :
  kubeconfig_check w args (at_kubeconfig s) = (Raise e, s1) ->
  main w args s = (Raise e, s1).
Proof. intros E. rewrite main_unfold. unfold bind at 1. now rewrite E. Qed.

(** *** The kubeconfig file *)

Lemma kubeconfig_missing (s : state) :
  isfile w (clock s) (kubeconfig args) = false ->
  exists s',
    kubeconfig_check w args s = (Ok tt, s')
    /\ prints s s' [Failure ("kubeconfig missing: " ++ kubeconfig args);
                    Text (Str.nl ++ "Please run:");
                    Text (sed_hint args); Text ""]
    /\ failed s' = failed s + 1
    /\ passed s' = passed s /\ warned s' = warned s.
Proof.
  intros H.
  unfold kubeconfig_check, kc, bind, tick, fail, print, emit, incr_failed.
  cbn [clock]. rewrite H. eexists. split; [reflexivity|].
  unfold prints. cbn. rewrite <- !app_assoc. now repeat split.
Qed.

Lemma kubeconfig_unreadable (s : state) (e : exn) :
  isfile w (clock s) (kubeconfig args) = true ->
  read_text w (S (clock s)) (kubeconfig args) = Raise e ->
  exists s',
    kubeconfig_check w args s = (Raise e, s')
    /\ prints s s' [Pass ("kubeconfig found at " ++ kubeconfig args)]
    /\ same_counters s s'.
Proof.
  intros Hf Hr.
  unfold kubeconfig_check, kc, bind, tick, ok, emit, lift.
  cbn [clock]. rewrite Hf. fields. rewrite Hr.
  eexists. split; [reflexivity|].
  unfold prints. cbn. now repeat split.
Qed.

Lemma kubeconfig_read (s : state) (cfg : string) :
  isfile w (clock s) (kubeconfig args) = true ->
  read_text w (S (clock s)) (kubeconfig args) = Ok cfg ->
  exists s',
    kubeconfig_check w args s = (Ok tt, s')
    /\ failed s' = failed s /\ passed s' = passed s
    /\ if Str.contains "127.0.0.1:6443" (server_line cfg) then
         prints s s'
                [Pass ("kubeconfig found at " ++ kubeconfig args);
                 Warning ("kubeconfig still points to "
                          ++ "https://127.0.0.1:6443 "
                          ++ "(will still try using it)")]
         /\ warned s' = warned s + 1
       else
         prints s s'
                [Pass ("kubeconfig found at " ++ kubeconfig args);
                 Pass ("kubeconfig server: "
                       ++ Str.or_else (Str.strip (server_line cfg))
                                      "<unknown>")]
         /\ warned s' = warned s.
Proof.
  intros Hf Hr.
  unfold kubeconfig_check, kc, bind, tick, ok, warn, emit, lift, incr_warned.
  cbn [clock]. rewrite Hf. fields. rewrite Hr.
  destruct (Str.contains "127.0.0.1:6443" (server_line cfg));
    (eexists; split; [reflexivity|]); unfold prints; cbn;
    rewrite <- !app_assoc; now repeat split.
Qed.

Lemma kubeconfig_usable_returns (s : state) :
  kubeconfig_usable w args s ->
  exists s', kubeconfig_check w args s = (Ok tt, s').
Proof.
  intros [H | (Hf & cfg & Hr)].
  - destruct (kubeconfig_missing s H) as (s' & E & _). now exists s'.
  - destruct (kubeconfig_read s Hf Hr) as (s' & E & _). now exists s'.
Qed.

(** When the kubeconfig file is absent or readable, the run goes through
    every section and ends with the summary. *)
Lemma main_completes_when_usable (s : state) :
  kubeconfig_usable w args s ->
  exists s', main w args s = (Ok tt, s')
             /\ ends_with_summary args all_headers s s'.
Proof.
  intros H.
  destruct (kubeconfig_usable_returns (s := at_kubeconfig s) H) as (s1 & E).
  destruct (main_completes s E) as (s' & Em & _ & Q). now exists s'.
Qed.

Lemma sed_hint_names_ip : Str.contains (ip args) (sed_hint args) = true.
Proof. unfold sed_hint. apply StrLemmas.contains_middle. Qed.

(** C3 is what the code breaks: when the kubeconfig file exists and
    reading it raises, the exception leaves [main]; only the first header
    and one pass line have been printed, no later section runs and no
    summary is printed. *)
Theorem main_dies_on_unreadable_kubeconfig (s : state) (e : exn) :
  isfile w (clock s) (kubeconfig args) = true ->
  read_text w (S (clock s)) (kubeconfig args) = Raise e ->
  exists s',
    main w args s = (Raise e, s')
    /\ prints s s' [Text ""; Header "=== Kubeconfig & API ===";
                    Pass ("kubeconfig found at " ++ kubeconfig args)]
    /\ same_counters s s'.
Proof.
  intros Hf Hr.
  destruct (kubeconfig_unreadable (at_kubeconfig s) Hf Hr)
    as (s' & E & P & C).
  exists s'. split; [now apply main_stops|]. split; [|exact C].
  unfold prints in *. rewrite P. unfold at_kubeconfig, after_header. cbn [printed].
  now rewrite <- !app_assoc.
Qed.

(** C7: when the kubeconfig file exists and the server line read from it
    contains 127.0.0.1:6443, the check prints a warn line and adds one to
    [warned]; [failed] (and [passed]) stay as they were. *)
Theorem kubeconfig_loopback_warns (s : state) (cfg : string) :
  isfile w (clock s) (kubeconfig args) = true ->
  read_text w (S (clock s)) (kubeconfig args) = Ok cfg ->
  Str.contains "127.0.0.1:6443" (server_line cfg) = true ->
  exists s',
    kubeconfig_check w args s = (Ok tt, s')
    /\ prints s s'
              [Pass ("kubeconfig found at " ++ kubeconfig args);
               Warning ("kubeconfig still points to "
                        ++ "https://127.0.0.1:6443 "
                        ++ "(will still try using it)")]
    /\ warned s' = warned s + 1
    /\ failed s' = failed s
    /\ passed s' = passed s.
Proof.
  intros Hf Hr Hc.
  destruct (kubeconfig_read s Hf Hr) as (s' & E & F & P & K).
  rewrite Hc in K. destruct K as (Pr & Wn).
  exists s'. now repeat split.
Qed.

(** C8: when the kubeconfig path names no file, the check adds one to
    [failed] and prints a hint that contains the configured IP; the run
    then goes through every section and prints the summary, with the
    failure still counted and the hint still on the output. *)
Theorem kubeconfig_missing_degrades (s : state) :
  isfile w (clock s) (kubeconfig args) = false ->
  (exists s1,
     kubeconfig_check w args s = (Ok tt, s1)
     /\ failed s1 = failed s + 1
     /\ In (Text (sed_hint args)) (printed s1))
  /\ Str.contains (ip args) (sed_hint args) = true
  /\ (exists s',
        main w args s = (Ok tt, s')
        /\ ends_with_summary args all_headers s s'
        /\ failed s + 1 <= failed s'
        /\ In (Text (sed_hint args)) (printed s')).
Proof.
  intros H. split; [|split; [apply sed_hint_names_ip|]].
  - destruct (kubeconfig_missing s H) as (s1 & E & P & F & _).
    exists s1. repeat split; auto.
    rewrite P. apply in_or_app. right. simpl. tauto.
  - destruct (kubeconfig_missing (at_kubeconfig s) H)
      as (s1 & E & P & F & _).
    destruct (main_completes s E) as (s' & Em & Er & Q).
    exists s'. repeat split; auto.
    + pose proof (climbs_rest_of_main s1) as C. rewrite Er in C.
      apply climbs_le in C. cbn [snd] in C.
      change (failed (at_kubeconfig s)) with (failed s) in F. lia.
    + destruct (runs_rest_of_main s1) as (s2 & Er' & ls & P2 & _).
      rewrite Er in Er'. injection Er' as <-.
      rewrite P2, P. apply in_or_app. left. apply in_or_app. right.
      simpl. tauto.
Qed.

(** *** A failing kubectl query *)

(** A [try] whose body starts with a query that raises goes to its
    handler with the state the query left. *)
Lemma try_query_raises (q : M json) (k : json -> M unit)
      (handler : exn -> M unit) (s s1 : state) (e : exn) :
  q s = (Raise e, s1) ->
  try_except (bind q k) handler s = handler e s1.
Proof. intros E. unfold try_except, bind. now rewrite E. Qed.

Lemma kubectl_json_fails (arguments : string) (s : state)
      (rc : Z) (stdout stderr : string) :
  popen w (clock s) (kubectl (kubeconfig args) (arguments ++ " -o json")) 40
  = Exited rc stdout stderr ->
  rc <> 0 ->
  exists s1,
    kubectl_json w arguments (kubeconfig args) s
    = (Raise (kubectl_failure arguments (Str.strip stdout)
                              (Str.strip stderr)), s1)
    /\ same_counters s s1 /\ printed s1 = printed s.
Proof.
  intros H Hrc. destruct (kubectl_json_exited w arguments _ s H)
    as (s1 & E & C & P).
  apply Z.eqb_neq in Hrc. rewrite Hrc in E. now exists s1.
Qed.

Lemma node_health_query_fails (s : state) (rc : Z) (stdout stderr : string) :
  popen w (clock s) (kubectl (kubeconfig args) "get nodes -o json") 40
  = Exited rc stdout stderr ->
  rc <> 0 ->
  exists s',
    node_health w args s = (Ok tt, s')
    /\ prints s s'
              [Text ""; Header "=== Node health ===";
               Failure ("kubectl get nodes failed: "
                        ++ exn_msg (kubectl_failure "get nodes"
                                      (Str.strip stdout)
                                      (Str.strip stderr)))]
    /\ failed s' = failed s + 1
    /\ passed s' = passed s /\ warned s' = warned s.
Proof.
  intros H Hrc.
  destruct (kubectl_json_fails "get nodes"
              (after_header "=== Node health ===" s) H Hrc)
    as (s1 & E & (Cp & Cf & Cw) & P).
  unfold node_health, kc. unfold bind at 1 2.
  change (print "" s) with (Ok tt, State (passed s) (failed s) (warned s)
                                     (printed s ++ [Text ""])
                                     (procs s) (clock s) (writes s)).
  cbv beta iota.
  change (info "=== Node health ===" _)
    with (Ok tt, after_header "=== Node health ===" s).
  cbv beta iota.
  rewrite (try_query_raises _ _ _ _ E).
  unfold bind, fail, emit, incr_failed. eexists. split; [reflexivity|].
  unfold prints. fields. rewrite P, Cp, Cf, Cw. unfold after_header. fields.
  rewrite <- !app_assoc. now repeat split.
Qed.

Lemma core_pods_query_fails (s : state) (rc : Z) (stdout stderr : string) :
  popen w (clock s)
        (kubectl (kubeconfig args) "-n kube-system get pods -o json") 40
  = Exited rc stdout stderr ->
  rc <> 0 ->
  exists s',
    core_pods w args s = (Ok tt, s')
    /\ prints s s'
              [Text ""; Header "=== Core kube-system pods ===";
               Failure ("Failed to read kube-system pods: "
                        ++ exn_msg (kubectl_failure
                                      "-n kube-system get pods"
                                      (Str.strip stdout)
                                      (Str.strip stderr)))]
    /\ failed s' = failed s + 1
    /\ passed s' = passed s /\ warned s' = warned s.
Proof.
  intros H Hrc.
  destruct (kubectl_json_fails "-n kube-system get pods"
              (after_header "=== Core kube-system pods ===" s) H Hrc)
    as (s1 & E & (Cp & Cf & Cw) & P).
  unfold core_pods, kc. unfold bind at 1 2.
  change (print "" s) with (Ok tt, State (passed s) (failed s) (warned s)
                                     (printed s ++ [Text ""])
                                     (procs s) (clock s) (writes s)).
  cbv beta iota.
  change (info "=== Core kube-system pods ===" _)
    with (Ok tt, after_header "=== Core kube-system pods ===" s).
  cbv beta iota.
  rewrite (try_query_raises _ _ _ _ E).
  unfold bind, fail, emit, incr_failed. eexists. split; [reflexivity|].
  unfold prints. fields. rewrite P, Cp, Cf, Cw. unfold after_header. fields.
  rewrite <- !app_assoc. now repeat split.
Qed.

Lemma logging_query_fails (s : state) (rc : Z) (stdout stderr : string) :
  popen w (clock s)
        (kubectl (kubeconfig args) "-n logging get pods -o json") 40
  = Exited rc stdout stderr ->
  rc <> 0 ->
  exists s',
    logging w args s = (Ok tt, s')
    /\ prints s s'
              [Text ""; Header "=== Loki / Promtail ===";
               Warning ("Loki/Promtail check error: "
                        ++ exn_msg (kubectl_failure "-n logging get pods"
                                      (Str.strip stdout)
                                      (Str.strip stderr)))]
    /\ warned s' = warned s + 1
    /\ passed s' = passed s /\ failed s' = failed s.
Proof.
  intros H Hrc.
  destruct (kubectl_json_fails "-n logging get pods"
              (after_header "=== Loki / Promtail ===" s) H Hrc)
    as (s1 & E & (Cp & Cf & Cw) & P).
  unfold logging, kc. unfold bind at 1 2.
  change (print "" s) with (Ok tt, State (passed s) (failed s) (warned s)
                                     (printed s ++ [Text ""])
                                     (procs s) (clock s) (writes s)).
  cbv beta iota.
  change (info "=== Loki / Promtail ===" _)
    with (Ok tt, after_header "=== Loki / Promtail ===" s).
  cbv beta iota.
  rewrite (try_query_raises _ _ _ _ E).
  unfold bind, warn, emit, incr_warned. eexists. split; [reflexivity|].
  unfold prints. fields. rewrite P, Cp, Cf, Cw. unfold after_header. fields.
  rewrite <- !app_assoc. now repeat split.
Qed.

(** C9: [kubectl_json] raises a RuntimeError made of the captured text
    when kubectl exits with a non-zero code, and returns what
    [json.loads] makes of the stripped stdout when it exits with zero.
    In each of the three sections that start with such a query, the
    error is caught by the section: the section returns normally with
    exactly one more fail line (node health, core pods) or warn line
    (Loki / Promtail) and its counter one higher. Every run that gets
    past the kubeconfig file goes through all sections and the summary,
    whatever kubectl answers. *)
Theorem kubectl_json_failure_is_local :
  (forall arguments s rc stdout stderr,
      popen w (clock s)
            (kubectl (kubeconfig args) (arguments ++ " -o json")) 40
      = Exited rc stdout stderr ->
      exists s',
        kubectl_json w arguments (kubeconfig args) s
        = (if rc =? 0 then json_loads w (Str.strip stdout)
           else Raise (kubectl_failure arguments (Str.strip stdout)
                                       (Str.strip stderr)), s'))
  /\ (forall arguments stdout stderr,
        stderr <> "" ->
        Str.contains stderr
                     (exn_msg (kubectl_failure arguments stdout stderr))
        = true)
  /\ (forall s rc stdout stderr,
        popen w (clock s) (kubectl (kubeconfig args) "get nodes -o json") 40
        = Exited rc stdout stderr ->
        rc <> 0 ->
        exists s',
          node_health w args s = (Ok tt, s')
          /\ prints s s'
                    [Text ""; Header "=== Node health ===";
                     Failure ("kubectl get nodes failed: "
                              ++ exn_msg (kubectl_failure "get nodes"
                                            (Str.strip stdout)
                                            (Str.strip stderr)))]
          /\ failed s' = failed s + 1
          /\ passed s' = passed s /\ warned s' = warned s)
  /\ (forall s rc stdout stderr,
        popen w (clock s)
              (kubectl (kubeconfig args) "-n kube-system get pods -o json")
              40
        = Exited rc stdout stderr ->
        rc <> 0 ->
        exists s',
          core_pods w args s = (Ok tt, s')
          /\ prints s s'
                    [Text ""; Header "=== Core kube-system pods ===";
                     Failure ("Failed to read kube-system pods: "
                              ++ exn_msg (kubectl_failure
                                            "-n kube-system get pods"
                                            (Str.strip stdout)
                                            (Str.strip stderr)))]
          /\ failed s' = failed s + 1
          /\ passed s' = passed s /\ warned s' = warned s)
  /\ (forall s rc stdout stderr,
        popen w (clock s)
              (kubectl (kubeconfig args) "-n logging get pods -o json") 40
        = Exited rc stdout stderr ->
        rc <> 0 ->
        exists s',
          logging w args s = (Ok tt, s')
          /\ prints s s'
                    [Text ""; Header "=== Loki / Promtail ===";
                     Warning ("Loki/Promtail check error: "
                              ++ exn_msg (kubectl_failure
                                            "-n logging get pods"
                                            (Str.strip stdout)
                                            (Str.strip stderr)))]
          /\ warned s' = warned s + 1
          /\ passed s' = passed s /\ failed s' = failed s)
  /\ (forall s,
        kubeconfig_usable w args s ->
        exists s', main w args s = (Ok tt, s')
                   /\ ends_with_summary args all_headers s s').
Proof.
  split; [|split; [|split; [|split; [|split]]]].
  - intros arguments s rc stdout stderr H.
    destruct (kubectl_json_exited w arguments _ s H) as (s' & E & _).
    now exists s'.
  - intros arguments stdout stderr Hne. unfold kubectl_failure.
    cbn [exn_msg]. destruct stderr as [|a t]; [congruence|].
    cbn [Str.or_else].
    do 3 apply StrLemmas.contains_skip.
    apply StrLemmas.contains_prefix, StrLemmas.prefix_self.
  - apply node_health_query_fails.
  - apply core_pods_query_fails.
  - apply logging_query_fails.
  - apply main_completes_when_usable.
Qed.

Lemma stepped_summary : keeps stepped_by_one (summary args).
Proof.
  intros s. unfold summary.
  apply (keeps_for_each stepped_refl stepped_trans _ emit stepped_emit).
Qed.

Lemma stepped_kubeconfig_check :
  keeps stepped_by_one (kubeconfig_check w args).
Proof. unfold kubeconfig_check. walk_stepped. Qed.

Lemma stepped_dns_hints : keeps stepped_by_one (dns_hints w args).
Proof. unfold dns_hints, dns_hint. walk_stepped. Qed.

Lemma stepped_checks :
  Forall (fun c : M unit => keeps stepped_by_one c) (checks w args).
Proof.
  unfold checks, api_readyz, node_health, core_pods, namespaces, argo_cd,
    monitoring, logging, whoami_app.
  repeat apply Forall_cons; try apply Forall_nil; walk_stepped.
Qed.

Lemma stepped_rest_of_main : keeps stepped_by_one (rest_of_main w args).
Proof.
  pose proof stepped_checks as H. unfold checks in H.
  repeat match type of H with
         | Forall _ (_ :: _) =>
             let Hc := fresh "Hc" in
             apply Forall_cons_iff in H; destruct H as [Hc H]
         end.
  unfold rest_of_main.
  walk stepped_refl stepped_trans
       ltac:(first [ assumption | apply stepped_dns_hints
                   | apply stepped_summary ]).
Qed.

Lemma stepped_main : keeps stepped_by_one (main w args).
Proof.
  intros s. rewrite main_unfold.
  apply stepped_trans with (b := at_kubeconfig s).
  - exists []. split; [|apply Forall_nil].
    split; [cbn [at_kubeconfig after_header writes];
            now rewrite app_nil_r | reflexivity].
  - exact (keeps_bind stepped_trans (fun _ => rest_of_main w args)
                      stepped_kubeconfig_check
                      (fun _ => stepped_rest_of_main) (at_kubeconfig s)).
Qed.

(** Past lines 98-100 the run is [main] in the state [started]. *)
Lemma main_from_start_unfold (s : state) :
  main_from_start w args s = main w args (started s).
Proof. reflexivity. Qed.

Lemma started_writes (s : state) :
  writes (started s) = (writes s ++ zeroed s)%list.
Proof. unfold started, zeroed. cbn [writes]. now rewrite <- !app_assoc. Qed.

(** C10: lines 98-100 set the three counters to zero, whatever they held.
    From there on every assignment made to a counter, by each section and so
    by the whole run, writes the counter's current value plus one, and the
    counters change through these assignments only: each counter ends at
    the number of assignments made to it. So no counter ever falls or is
    reset, the counters at the end of the run are not negative, and a run
    that returns has printed the summary of exactly these counters. *)
Theorem counters_only_climb :
  (forall s,
      (zero_passed ;; zero_failed ;; zero_warned) s = (Ok tt, started s)
      /\ counters (started s) = (0, 0, 0)
      /\ writes (started s) = (writes s ++ zeroed s)%list
      /\ main_from_start w args s = main w args (started s))
  /\ Forall (fun c : M unit =>
               forall s, stepped_by_one s (snd (c s))
                         /\ climbs s (snd (c s)))
            (kubeconfig_check w args
             :: checks w args ++ [dns_hints w args; summary args])
  /\ (forall s, stepped_by_one s (snd (main w args s))
                /\ climbs s (snd (main w args s)))
  /\ (forall s s',
        stepped_by_one s s' ->
        exists ws,
          writes s' = (writes s ++ ws)%list
          /\ Forall (fun wr => new_value wr = old_value wr + 1) ws
          /\ passed s' = passed s + writes_to CPassed ws
          /\ failed s' = failed s + writes_to CFailed ws
          /\ warned s' = warned s + writes_to CWarned ws)
  /\ (forall s s',
        climbs s s' ->
        passed s <= passed s' /\ failed s <= failed s'
        /\ warned s <= warned s')
  /\ (forall s,
        exists ws,
          writes (snd (main_from_start w args s))
          = ((writes s ++ zeroed s) ++ ws)%list
          /\ Forall (fun wr => new_value wr = old_value wr + 1) ws
          /\ passed (snd (main_from_start w args s)) = writes_to CPassed ws
          /\ failed (snd (main_from_start w args s)) = writes_to CFailed ws
          /\ warned (snd (main_from_start w args s)) = writes_to CWarned ws
          /\ 0 <= passed (snd (main_from_start w args s))
          /\ 0 <= failed (snd (main_from_start w args s))
          /\ 0 <= warned (snd (main_from_start w args s)))
  /\ (0 <= passed (snd (main w args initial))
      /\ 0 <= failed (snd (main w args initial))
      /\ 0 <= warned (snd (main w args initial)))
  /\ (forall s', main w args initial = (Ok tt, s') -> completed args s')
  /\ (forall s s',
        main_from_start w args s = (Ok tt, s') ->
        ends_with_summary args all_headers s s').
Proof.
  split.
  { intros s. split; [reflexivity|]. split; [reflexivity|].
    split; [apply started_writes | apply main_from_start_unfold]. }
  split.
  { apply Forall_cons;
      [intros s; split;
       [apply stepped_kubeconfig_check | apply climbs_kubeconfig_check]|].
    apply Forall_app. split.
    - pose proof stepped_checks as Hs. pose proof climbs_checks as Hc.
      rewrite Forall_forall in Hs, Hc. apply Forall_forall.
      intros c Hin s. split; [now apply Hs | now apply Hc].
    - repeat apply Forall_cons; try apply Forall_nil; intros s; split.
      + apply stepped_dns_hints.
      + apply climbs_dns_hints.
      + apply stepped_summary.
      + apply climbs_summary. }
  split; [intros s; split; [apply stepped_main | apply climbs_main]|].
  split; [exact stepped_counts|].
  split; [exact climbs_le|].
  split.
  { intros s. rewrite main_from_start_unfold.
    destruct (stepped_counts (stepped_main (started s)))
      as (ws & L & F & Hp & Hf & Hw).
    exists ws. rewrite started_writes in L.
    change (passed (started s)) with 0 in Hp.
    change (failed (started s)) with 0 in Hf.
    change (warned (started s)) with 0 in Hw.
    pose proof (writes_to_nonneg CPassed ws).
    pose proof (writes_to_nonneg CFailed ws).
    pose proof (writes_to_nonneg CWarned ws).
    split; [exact L|]. split; [exact F|]. repeat split; lia. }
  split.
  { destruct (climbs_le (climbs_main initial)) as (Hp & Hf & Hw).
    change (passed initial) with 0 in Hp.
    change (failed initial) with 0 in Hf.
    change (warned initial) with 0 in Hw.
    now repeat split. }
  split.
  { intros s' E.
    destruct (kubeconfig_check w args (at_kubeconfig initial))
      as [[[]|e] s1] eqn:K.
    - destruct (main_completes initial K) as (s2 & E2 & _ & ls & P & H).
      rewrite E in E2. injection E2 as <-.
      exists ls. split; [exact P | exact H].
    - rewrite (main_stops initial K) in E. discriminate. }
  intros s s' E. rewrite main_from_start_unfold in E.
  destruct (kubeconfig_check w args (at_kubeconfig (started s)))
    as [[[]|e] s1] eqn:K.
  - destruct (main_completes (started s) K) as (s2 & E2 & _ & ls & P & H).
    rewrite E in E2. injection E2 as <-.
    exists ls. split; [exact P | exact H].
  - rewrite (main_stops (started s) K) in E. discriminate.
Qed.

End WholeRun.

Lemma main_dies_on_unreadable_kubeconfig_witness :
  exists s',
    main Sample.unreadable Sample.args0 initial = (Raise Sample.denied, s')
    /\ prints initial s'
              [Text ""; Header "=== Kubeconfig & API ===";
               Pass "kubeconfig found at /etc/rancher/k3s/k3s.yaml"]
    /\ same_counters initial s'.
Proof.
  apply (main_dies_on_unreadable_kubeconfig Sample.unreadable Sample.args0
           initial (e := Sample.denied)); reflexivity.
Defined.

Lemma kubeconfig_loopback_warns_witness :
  exists s',
    kubeconfig_check Sample.loopback Sample.args0 initial = (Ok tt, s')
    /\ prints initial s'
              [Pass "kubeconfig found at /etc/rancher/k3s/k3s.yaml";
               Warning ("kubeconfig still points to "
                        ++ "https://127.0.0.1:6443 "
                        ++ "(will still try using it)")]
    /\ warned s' = warned initial + 1
    /\ failed s' = failed initial
    /\ passed s' = passed initial.
Proof.
  apply (kubeconfig_loopback_warns Sample.loopback Sample.args0 initial
           (cfg := Sample.k3s_yaml)); reflexivity.
Defined.

Lemma kubeconfig_missing_degrades_witness :
  (exists s1,
     kubeconfig_check Sample.down Sample.args0 initial = (Ok tt, s1)
     /\ failed s1 = failed initial + 1
     /\ In (Text (sed_hint Sample.args0)) (printed s1))
  /\ Str.contains "192.168.2.60" (sed_hint Sample.args0) = true
  /\ (exists s',
        main Sample.down Sample.args0 initial = (Ok tt, s')
        /\ ends_with_summary Sample.args0 all_headers initial s'
        /\ failed initial + 1 <= failed s'
        /\ In (Text (sed_hint Sample.args0)) (printed s')).
Proof.
  apply (kubeconfig_missing_degrades Sample.down Sample.args0 initial).
  reflexivity.
Defined.

Lemma kubectl_json_failure_is_local_witness :
  (exists s',
     node_health Sample.down Sample.args0 initial = (Ok tt, s')
     /\ prints initial s'
               [Text ""; Header "=== Node health ===";
                Failure ("kubectl get nodes failed: "
                         ++ "kubectl get nodes failed: "
                         ++ Sample.refused_text)]
     /\ failed s' = failed initial + 1
     /\ passed s' = passed initial /\ warned s' = warned initial)
  /\ (exists s',
        main Sample.down Sample.args0 initial = (Ok tt, s')
        /\ ends_with_summary Sample.args0 all_headers initial s').
Proof.
  destruct (kubectl_json_failure_is_local Sample.down Sample.args0)
    as (_ & _ & Hnode & _ & _ & Hmain).
  split.
  - apply (Hnode initial 1 "" (Sample.refused_text ++ Str.nl));
      [reflexivity | discriminate].
  - apply Hmain. left. reflexivity.
Defined.

Lemma counters_only_climb_witness :
  completed Sample.args0 (snd (main Sample.down Sample.args0 initial))
  /\ passed initial <= passed (snd (main Sample.down Sample.args0 initial))
  /\ (exists ws,
        writes (snd (main Sample.down Sample.args0 (started initial)))
        = (writes (started initial) ++ ws)%list
        /\ Forall (fun wr => new_value wr = old_value wr + 1) ws
        /\ failed (snd (main Sample.down Sample.args0 (started initial)))
           = failed (started initial) + writes_to CFailed ws)
  /\ ends_with_summary
       Sample.args0 all_headers initial
       (snd (main_from_start Sample.down Sample.args0 initial)).
Proof.
  destruct (counters_only_climb Sample.down Sample.args0)
    as (_ & _ & Hmain & Hcount & Hle & _ & _ & Hdone & Hend).
  split; [|split; [|split]].
  - apply Hdone. vm_compute. reflexivity.
  - apply (Hle initial). apply Hmain.
  - destruct (Hcount (started initial)
                     (snd (main Sample.down Sample.args0 (started initial))))
      as (ws & L & F & _ & Hf & _); [apply Hmain|].
    exists ws. split; [exact L|]. split; [exact F | exact Hf].
  - apply Hend. vm_compute. reflexivity.
Defined.

(** ** Lines and counters *)

Lemma warn_fail_refl (s : state) : accounted_warn_fail s s.
Proof.
  exists []. split; [apply prints_refl|]. unfold count. simpl. lia.
Qed.

Lemma warn_fail_trans (a b c : state) :
  accounted_warn_fail a b -> accounted_warn_fail b c ->
  accounted_warn_fail a c.
Proof.
  intros (l1 & P1 & Hw1 & Hf1) (l2 & P2 & Hw2 & Hf2).
  exists (l1 ++ l2)%list. split; [eapply prints_trans; eauto|].
  rewrite !count_app. lia.
Qed.

Lemma warn_fail_other (l : line) :
  is_warning l = false -> is_failure l = false ->
  keeps accounted_warn_fail (emit l).
Proof.
  intros Hw Hf s. exists [l]. split; [reflexivity|].
  unfold count. simpl. rewrite Hw, Hf. simpl. lia.
Qed.

Lemma warn_fail_tick : keeps accounted_warn_fail tick.
Proof.
  intros s. exists []. split; [unfold prints; simpl; now rewrite app_nil_r|].
  unfold count. simpl. lia.
Qed.

Lemma warn_fail_warn (msg : string) :
  keeps accounted_warn_fail (bind (warn msg) (fun _ => incr_warned)).
Proof.
  intros s. exists [Warning msg]. split; [reflexivity|].
  unfold count. simpl. lia.
Qed.

Lemma warn_fail_fail (msg : string) :
  keeps accounted_warn_fail (bind (fail msg) (fun _ => incr_failed)).
Proof.
  intros s. exists [Failure msg]. split; [reflexivity|].
  unfold count. simpl. lia.
Qed.

Ltac warn_fail_leaf :=
  first [ apply warn_fail_warn | apply warn_fail_fail
        | apply (keeps_pair_then warn_fail_trans); [apply warn_fail_warn|]
        | apply (keeps_pair_then warn_fail_trans); [apply warn_fail_fail|]
        | apply warn_fail_tick
        | apply warn_fail_other; reflexivity ].

Lemma warn_fail_kubeconfig_check (w : World) (args : Namespace) :
  keeps accounted_warn_fail (kubeconfig_check w args).
Proof.
  unfold kubeconfig_check. walk warn_fail_refl warn_fail_trans warn_fail_leaf.
Qed.

(** One DNS hint prints one pass or warn line and leaves the counters. *)
Lemma dns_hint_line (w : World) (args : Namespace) (host : string)
      (s : state) :
  exists l s',
    dns_hint w args host s = (Ok tt, s')
    /\ prints s s' [l] /\ pass_or_warning l = true /\ same_counters s s'.
Proof.
  unfold dns_hint, try_except, bind, tick, lift, ok, warn, emit. fields.
  destruct (gethostbyname w (clock s) host) as [found|e].
  - destruct (String.eqb found (ip args));
      do 2 eexists; (split; [reflexivity|]); now repeat split.
  - do 2 eexists. (split; [reflexivity|]); now repeat split.
Qed.

Lemma for_each_lines A (body : A -> M unit) :
  (forall x s, exists l s',
      body x s = (Ok tt, s')
      /\ prints s s' [l] /\ pass_or_warning l = true /\ same_counters s s') ->
  forall xs s, exists ls s',
      for_each xs body s = (Ok tt, s')
      /\ prints s s' ls /\ List.length ls = List.length xs
      /\ forallb pass_or_warning ls = true /\ same_counters s s'.
Proof.
  intros Hb xs. induction xs as [|x xs IH]; intros s; simpl.
  - exists [], s. repeat split. apply prints_refl.
  - destruct (Hb x s) as (l & s1 & E1 & P1 & G1 & C1).
    destruct (IH s1) as (ls & s2 & E2 & P2 & L2 & G2 & C2).
    exists (l :: ls), s2. unfold bind. rewrite E1.
    split; [exact E2|]. split; [exact (prints_trans P1 P2)|].
    split; [simpl; now rewrite L2|].
    split; [simpl; now rewrite G1, G2|].
    eapply same_counters_trans; eauto.
Qed.

Lemma dns_hints_uncounted (w : World) (args : Namespace) (s : state) :
  exists ls s',
    dns_hints w args s = (Ok tt, s')
    /\ prints s s' ([Text ""; Header "=== Optional DNS hints ==="] ++ ls)
    /\ List.length ls = 3%nat
    /\ forallb pass_or_warning ls = true
    /\ same_counters s s'.
Proof.
  destruct (@for_each_lines _ _ (dns_hint_line w args)
              [argocd args; grafana args; whoami args]
              (State (passed s) (failed s) (warned s)
                     ((printed s ++ [Text ""])
                        ++ [Header "=== Optional DNS hints ==="])
                     (procs s) (clock s) (writes s)))
    as (ls & s' & E & P & L & G & C).
  exists ls, s'. split; [exact E|].
  split; [|split; [exact L | split; [exact G | exact C]]].
  unfold prints in *. rewrite P. fields. now rewrite <- !app_assoc.
Qed.

(** C4, as the specification states it, fails: the three DNS hints of a
    run in which no name resolves print three warn lines and leave [warned]
    at zero, and the two pass lines of a readable kubeconfig leave [passed]
    where it was. *)
Lemma uncounted_lines :
  ~ accounted initial (snd (dns_hints Sample.down Sample.args0 initial))
  /\ ~ accounted initial
       (snd (kubeconfig_check (Sample.with_kubeconfig (Ok "server: k3s"))
                              Sample.args0 initial)).
Proof.
  split; intros (ls & P & Hp & Hw & Hf); unfold prints in P;
    vm_compute in P; subst ls; vm_compute in Hp, Hw; discriminate.
Qed.

(** C4, amended: in every check between the kubeconfig file and the DNS
    hints each pass, warn and fail line comes with an increment of its
    counter; at the kubeconfig file each warn and fail line does; the DNS
    hints print three lines, each a pass or a warn line, and leave the
    three counters as they were. *)
Theorem lines_and_counters (w : World) (args : Namespace) (s : state) :
  Forall (fun c : M unit => accounted s (snd (c s))) (checks w args)
  /\ accounted_warn_fail s (snd (kubeconfig_check w args s))
  /\ (exists ls s',
        dns_hints w args s = (Ok tt, s')
        /\ prints s s' ([Text ""; Header "=== Optional DNS hints ==="] ++ ls)
        /\ List.length ls = 3%nat
        /\ forallb pass_or_warning ls = true
        /\ same_counters s s').
Proof.
  split; [|split].
  - unfold checks. repeat apply Forall_cons; try apply Forall_nil.
    + apply accounted_api_readyz.
    + apply accounted_node_health.
    + apply accounted_core_pods.
    + apply accounted_namespaces.
    + apply accounted_argo_cd.
    + apply accounted_monitoring.
    + apply accounted_logging.
    + apply accounted_whoami_app.
  - apply warn_fail_kubeconfig_check.
  - apply dns_hints_uncounted.
Qed.

(** ** The demo application *)

(** The marker "Request served by" in the body is enough for line 338,
    whatever the probe reported. *)
Lemma whoami_accepts_marker (alive : bool) (code : Z) (body : string) :
  Str.contains "Request served by" body = true ->
  whoami_accepts alive code body = true.
Proof.
  intros H. unfold whoami_accepts. rewrite H. apply orb_true_iff. left.
  apply orb_true_r.
Qed.

(** C5 is what the code breaks: a 503 answer whose body contains
    "Request served by" makes [http_probe] report alive = false, and the
    whoami section still prints a pass line for the probe and adds one to
    [passed]; [failed] stays at zero. *)
Theorem whoami_passes_on_failed_probe :
  (exists s1,
     http_probe (Sample.answering Sample.unavailable) "192.168.2.60"
                "whoami.pizza" "http" "/" initial
     = (Ok (false, 503, "Service Unavailable",
            "Request served by whoami-7f5d"), s1))
  /\ (exists s',
        whoami_app (Sample.answering Sample.unavailable) Sample.args0 initial
        = (Ok tt, s')
        /\ printed s'
           = [Text ""; Header "=== Demo app: whoami ===";
              Warning "whoami Service missing";
              Pass ("HTTP probe whoami (whoami.pizza) -> "
                    ++ "503 Service Unavailable")]
        /\ passed s' = 1 /\ failed s' = 0).
Proof.
  split; eexists; [|split; [|split; [|split]]]; vm_compute; reflexivity.
Qed.

(** * Further properties *)

(** ** sh and kubectl_json *)

(** X1: when the child exits, the two texts [sh] returns are the child's
    stdout and stderr with nothing but surrounding whitespace removed. *)
Theorem sh_keeps_the_text (w : World) (cmd : string) (timeout : Z)
        (s : state) (rc : Z) (stdout stderr : string) :
  popen w (clock s) cmd timeout = Exited rc stdout stderr ->
  exists out err s',
    sh w cmd timeout s = (Ok (rc, out, err), s')
    /\ padded stdout out /\ padded stderr err
    /\ StrFacts.trimmed out = true /\ StrFacts.trimmed err = true.
Proof.
  intros H. exists (Str.strip stdout), (Str.strip stderr).
  unfold sh, bind, tick, record_proc, ret. fields. rewrite H.
  eexists. split; [reflexivity|].
  split; [apply StrLemmas.strip_split|].
  split; [apply StrLemmas.strip_split|].
  split; apply StrLemmas.strip_trimmed.
Qed.

Lemma sh_keeps_the_text_witness :
  exists out err s',
    sh Cases.ready "kubectl get ns default" 20 initial = (Ok (0, out, err), s')
    /\ padded ("  OK" ++ Str.nl) out /\ padded "" err
    /\ StrFacts.trimmed out = true /\ StrFacts.trimmed err = true.
Proof.
  apply (sh_keeps_the_text Cases.ready "kubectl get ns default" 20 initial
           (rc := 0) (stdout := "  OK" ++ Str.nl) (stderr := "")).
  reflexivity.
Defined.

(** X2: a query whose child runs into the timeout kills the child and
    raises the RuntimeError that names the query and the timeout of 40
    seconds; nothing is printed and no counter moves. *)
Theorem kubectl_json_timeout (w : World) (arguments kcfg : string)
        (s : state) :
  popen w (clock s) (kubectl kcfg (arguments ++ " -o json")) 40
  = TimeoutExpired ->
  exists s',
    kubectl_json w arguments kcfg s
    = (Raise (Exn "RuntimeError"
                  ("kubectl " ++ arguments ++ " failed: timeout after 40s")),
       s')
    /\ In (Killed (kubectl kcfg (arguments ++ " -o json"))) (procs s')
    /\ printed s' = printed s /\ same_counters s s'.
Proof.
  intros H.
  unfold kubectl_json, sh, bind, tick, record_proc, ret, raise, lift. fields.
  rewrite H. eexists. split; [reflexivity|]. fields.
  split; [apply in_or_app; right; now left|].
  now repeat split.
Qed.

Lemma kubectl_json_timeout_witness :
  exists s',
    kubectl_json Sample.hanging "get nodes" "/etc/rancher/k3s/k3s.yaml"
                 initial
    = (Raise (Exn "RuntimeError"
                  "kubectl get nodes failed: timeout after 40s"), s')
    /\ In (Killed (kubectl "/etc/rancher/k3s/k3s.yaml" "get nodes -o json"))
          (procs s')
    /\ printed s' = printed initial /\ same_counters initial s'.
Proof.
  apply (kubectl_json_timeout Sample.hanging "get nodes"
           "/etc/rancher/k3s/k3s.yaml" initial).
  reflexivity.
Defined.

(** ** http_probe and the whoami condition *)

(** The flag and the status of a probe result agree. *)
Lemma http_probe_flag (w : World) (addr host scheme path : string)
      (s s' : state) (alive : bool) (code : Z) (reason body : string) :
  http_probe w addr host scheme path s = (Ok (alive, code, reason, body), s') ->
  alive = ((100 <=? code) && (code <? 500)).
Proof.
  intros H.
  destruct (http_probe_unfold w addr host scheme path s) as (s1 & E & _).
  rewrite E in H. clear E.
  destruct (probe_steps w scheme _) as [r|e] eqn:P.
  - unfold probe_steps in P.
    repeat match type of P with
           | rbind ?x _ = _ => destruct x; cbn [rbind] in P; [|discriminate]
           end.
    injection P as <-. injection H as <- <- _ _ _. reflexivity.
  - injection H as <- <- _ _ _. reflexivity.
Qed.

Lemma accepted_code_in_range (code : Z) :
  accepted_code code = true -> (100 <=? code) && (code <? 500) = true.
Proof.
  unfold accepted_code. intros Hc. apply andb_true_intro.
  repeat match type of Hc with
         | (_ || _ = true) => apply orb_true_iff in Hc; destruct Hc as [Hc|Hc]
         end; apply Z.eqb_eq in Hc; subst code; split; reflexivity.
Qed.

(** X3: whatever the network does, the flag [http_probe] returns is true
    exactly when the status it returns lies in [100, 500); in particular a
    status of 200, 301 or 302 is never returned with a false flag. *)
Theorem http_probe_flag_matches_status (w : World)
        (addr host scheme path : string) (s s' : state)
        (alive : bool) (code : Z) (reason body : string) :
  http_probe w addr host scheme path s = (Ok (alive, code, reason, body), s') ->
  alive = ((100 <=? code) && (code <? 500))
  /\ (accepted_code code = true -> alive = true).
Proof.
  intros H. pose proof H as Hflag. apply http_probe_flag in Hflag.
  split; [exact Hflag|].
  intros Hc. rewrite Hflag. now apply accepted_code_in_range.
Qed.

Lemma http_probe_flag_matches_status_witness :
  false = ((100 <=? 503) && (503 <? 500))
  /\ (accepted_code 503 = true -> false = true).
Proof.
  apply (http_probe_flag_matches_status
           (Sample.answering Sample.unavailable) "192.168.2.60"
           "whoami.pizza" "http" "/" initial
           (s' := State 0 0 0 [] [] 1 []) (reason := "Service Unavailable")
           (body := "Request served by whoami-7f5d")).
  reflexivity.
Defined.

(** X4: when the probe reports a failure, the condition of line 338
    accepts the answer exactly when the body contains "Request served by":
    neither the status nor the other marker can make it pass. *)
Theorem whoami_accepts_dead_probe (w : World)
        (addr host scheme path : string) (s s' : state)
        (code : Z) (reason body : string) :
  http_probe w addr host scheme path s = (Ok (false, code, reason, body), s') ->
  whoami_accepts false code body = Str.contains "Request served by" body.
Proof.
  intros H. pose proof H as Hflag. apply http_probe_flag in Hflag.
  unfold whoami_accepts. fold (accepted_code code).
  destruct (accepted_code code) eqn:Hc.
  - apply accepted_code_in_range in Hc. congruence.
  - cbn [andb orb]. now rewrite orb_false_r.
Qed.

Lemma whoami_accepts_dead_probe_witness :
  whoami_accepts false 404 "" = Str.contains "Request served by" ""
  \/ whoami_accepts false 503 "Request served by whoami-7f5d"
     = Str.contains "Request served by" "Request served by whoami-7f5d".
Proof.
  right.
  apply (whoami_accepts_dead_probe
           (Sample.answering Sample.unavailable) "192.168.2.60"
           "whoami.pizza" "http" "/" initial
           (s' := State 0 0 0 [] [] 1 []) (reason := "Service Unavailable")).
  reflexivity.
Defined.

(** ** The readiness check *)

(** X5: the readiness check always returns with exactly one line and never
    touches [warned]; the line is a pass line, counted in [passed], exactly
    when kubectl exits with 0 and its stripped, lower-cased output contains
    "ok"; in every other case (non-zero exit, timeout, an exception) it is
    a fail line, counted in [failed]. *)
Theorem api_readyz_verdict (w : World) (args : Namespace) (s : state) :
  exists l s',
    api_readyz w args s = (Ok tt, s')
    /\ prints s s' [l]
    /\ warned s' = warned s
    /\ ((is_pass l = true /\ passed s' = passed s + 1
         /\ failed s' = failed s)
        \/ (is_failure l = true /\ failed s' = failed s + 1
            /\ passed s' = passed s))
    /\ (is_pass l = true <->
        exists out err,
          popen w (clock s) (readyz_command args) 20 = Exited 0 out err
          /\ Str.contains "ok" (Str.lower (Str.strip out)) = true).
Proof.
  unfold api_readyz, readyz_command, kc, try_except, sh, bind, tick,
    record_proc, ret, raise, ok, fail, emit, incr_passed, incr_failed.
  fields.
  destruct (popen w (clock s) _ 20) as [rc out err| |e|e] eqn:P.
  - fields. destruct (rc =? 0) eqn:Hrc; cbn [andb].
    + apply Z.eqb_eq in Hrc. subst rc.
      destruct (Str.contains "ok" (Str.lower (Str.strip out))) eqn:Hok;
        do 2 eexists; (split; [reflexivity|]); fields;
        (split; [reflexivity|]); (split; [reflexivity|]).
      * split; [left; now repeat split|].
        split; [intros _; now exists out, err | reflexivity].
      * split; [right; now repeat split|].
        split; [discriminate|].
        intros (o & e & Heq & Hc). injection Heq as <- <-. congruence.
    + do 2 eexists. (split; [reflexivity|]). fields.
      (split; [reflexivity|]); (split; [reflexivity|]).
      split; [right; now repeat split|].
      split; [discriminate|].
      intros (o & e & Heq & _). injection Heq as -> _ _. discriminate.
  - do 2 eexists. (split; [reflexivity|]). fields.
    (split; [reflexivity|]); (split; [reflexivity|]).
    split; [right; now repeat split|].
    split; [discriminate | intros (o & e & Heq & _); discriminate].
  - do 2 eexists. (split; [reflexivity|]). fields.
    (split; [reflexivity|]); (split; [reflexivity|]).
    split; [right; now repeat split|].
    split; [discriminate | intros (o & e0 & Heq & _); discriminate].
  - do 2 eexists. (split; [reflexivity|]). fields.
    (split; [reflexivity|]); (split; [reflexivity|]).
    split; [right; now repeat split|].
    split; [discriminate | intros (o & e0 & Heq & _); discriminate].
Qed.

Lemma api_readyz_verdict_witness :
  exists l s',
    api_readyz Cases.ready Sample.args0 initial = (Ok tt, s')
    /\ is_pass l = true /\ prints initial s' [l] /\ passed s' = 1.
Proof.
  destruct (api_readyz_verdict Cases.ready Sample.args0 initial)
    as (l & s' & E & P & _ & Hcase & Hiff).
  assert (Hp : is_pass l = true).
  { apply Hiff. exists ("  OK" ++ Str.nl), "". split; reflexivity. }
  exists l, s'. repeat split; auto.
  destruct Hcase as [(_ & Hc & _) | (Hf & _)]; [exact Hc|].
  destruct l; discriminate.
Defined.

(** ** The kubeconfig file without a server entry *)

Lemma find_none A (p : A -> bool) (l : list A) :
  Forall (fun x => p x = false) l -> find p l = None.
Proof.
  induction 1 as [|x l Hx _ IH]; simpl; [reflexivity|]. now rewrite Hx.
Qed.

(** X6: a readable kubeconfig in which no line contains "server: " gets
    the two pass lines, the second one showing <unknown>, and moves no
    counter. *)
Theorem kubeconfig_without_server (w : World) (args : Namespace) (s : state)
        (cfg : string) :
  isfile w (clock s) (kubeconfig args) = true ->
  read_text w (S (clock s)) (kubeconfig args) = Ok cfg ->
  no_server_line cfg ->
  exists s',
    kubeconfig_check w args s = (Ok tt, s')
    /\ prints s s' [Pass ("kubeconfig found at " ++ kubeconfig args);
                    Pass "kubeconfig server: <unknown>"]
    /\ same_counters s s'.
Proof.
  intros Hf Hr Hn.
  destruct (kubeconfig_read w args s Hf Hr) as (s' & E & F & P & K).
  assert (Hs : server_line cfg = "").
  { unfold server_line. now rewrite (find_none _ Hn). }
  rewrite Hs in K. cbn in K. destruct K as (Pr & Wn).
  exists s'. now repeat split.
Qed.

Lemma kubeconfig_without_server_witness :
  exists s',
    kubeconfig_check (Sample.with_kubeconfig (Ok Cases.empty_yaml))
                     Sample.args0 initial = (Ok tt, s')
    /\ prints initial s'
              [Pass "kubeconfig found at /etc/rancher/k3s/k3s.yaml";
               Pass "kubeconfig server: <unknown>"]
    /\ same_counters initial s'.
Proof.
  apply (kubeconfig_without_server
           (Sample.with_kubeconfig (Ok Cases.empty_yaml)) Sample.args0
           initial (cfg := Cases.empty_yaml)).
  - reflexivity.
  - reflexivity.
  - unfold no_server_line. vm_compute.
    repeat apply Forall_cons; try apply Forall_nil; reflexivity.
Defined.

(** ** The summary *)

Lemma summary_choice (args : Namespace) (p wn f : Z) :
  (In all_passed_line (summary_lines args p wn f) <-> f = 0)
  /\ (In some_failed_line (summary_lines args p wn f) <-> f <> 0)
  /\ In (Text (tally_line p wn f)) (summary_lines args p wn f).
Proof.
  unfold summary_lines, all_passed_line, some_failed_line.
  destruct (f =? 0) eqn:Hf.
  - apply Z.eqb_eq in Hf. split; [|split].
    + split; [auto|]. intros _. simpl. auto 10.
    + split; [|congruence]. simpl.
      intros H. repeat destruct H as [H|H]; try discriminate; contradiction.
    + simpl. auto.
  - apply Z.eqb_neq in Hf. split; [|split].
    + split; [|congruence]. simpl.
      intros H. repeat destruct H as [H|H]; try discriminate; contradiction.
    + split; [auto|]. intros _. simpl. auto 10.
    + simpl. auto.
Qed.

(** X7: a run that returns ends with the summary of its final counters:
    the line with the three counters, then "All critical checks passed."
    exactly when [failed] is zero and "Some critical checks failed." exactly
    when it is not. *)
Theorem summary_follows_failed (w : World) (args : Namespace) (s s' : state) :
  main w args s = (Ok tt, s') ->
  exists body,
    prints s s'
           (body ++ summary_lines args (passed s') (warned s') (failed s'))
    /\ In (Text (tally_line (passed s') (warned s') (failed s')))
          (summary_lines args (passed s') (warned s') (failed s'))
    /\ (In all_passed_line
           (summary_lines args (passed s') (warned s') (failed s'))
        <-> failed s' = 0)
    /\ (In some_failed_line
           (summary_lines args (passed s') (warned s') (failed s'))
        <-> failed s' <> 0).
Proof.
  intros E.
  destruct (kubeconfig_check w args (at_kubeconfig s)) as [[[]|e] s1] eqn:K.
  - destruct (main_completes w args s K) as (s2 & E2 & _ & ls & P & _).
    rewrite E in E2. injection E2 as <-.
    exists ls. split; [exact P|].
    destruct (summary_choice args (passed s') (warned s') (failed s'))
      as (Hg & Hr & Ht).
    split; [exact Ht|]. split; [exact Hg | exact Hr].
  - rewrite (main_stops w args s K) in E. discriminate.
Qed.

Lemma summary_follows_failed_witness :
  In some_failed_line
     (summary_lines Sample.args0
        (passed (snd (main Sample.down Sample.args0 initial)))
        (warned (snd (main Sample.down Sample.args0 initial)))
        (failed (snd (main Sample.down Sample.args0 initial)))).
Proof.
  destruct (summary_follows_failed Sample.down Sample.args0 initial
              (s' := snd (main Sample.down Sample.args0 initial)))
    as (body & P & _ & _ & Hred).
  - vm_compute. reflexivity.
  - apply Hred. vm_compute. discriminate.
Defined.

(** ** Which counter a section may touch *)

Lemma warned_unchanged_refl (s : state) : warned_unchanged s s.
Proof. reflexivity. Qed.

Lemma warned_unchanged_trans (a b c : state) :
  warned_unchanged a b -> warned_unchanged b c -> warned_unchanged a c.
Proof. unfold warned_unchanged. congruence. Qed.

Lemma failed_unchanged_refl (s : state) : failed_unchanged s s.
Proof. reflexivity. Qed.

Lemma failed_unchanged_trans (a b c : state) :
  failed_unchanged a b -> failed_unchanged b c -> failed_unchanged a c.
Proof. unfold failed_unchanged. congruence. Qed.

Lemma leaves_warned A (m : M A) :
  (forall s, warned (snd (m s)) = warned s) -> keeps warned_unchanged m.
Proof. intros H s. apply H. Qed.

Lemma leaves_failed A (m : M A) :
  (forall s, failed (snd (m s)) = failed s) -> keeps failed_unchanged m.
Proof. intros H s. apply H. Qed.

Ltac warned_leaf :=
  match goal with
  | |- keeps _ (emit _) => idtac
  | |- keeps _ (ok _) => idtac
  | |- keeps _ (fail _) => idtac
  | |- keeps _ (print _) => idtac
  | |- keeps _ (info _) => idtac
  | |- keeps _ tick => idtac
  | |- keeps _ (record_proc _) => idtac
  | |- keeps _ incr_passed => idtac
  | |- keeps _ incr_failed => idtac
  end; apply leaves_warned; reflexivity.

Ltac failed_leaf :=
  match goal with
  | |- keeps _ (emit _) => idtac
  | |- keeps _ (ok _) => idtac
  | |- keeps _ (warn _) => idtac
  | |- keeps _ (print _) => idtac
  | |- keeps _ (info _) => idtac
  | |- keeps _ tick => idtac
  | |- keeps _ (record_proc _) => idtac
  | |- keeps _ incr_passed => idtac
  | |- keeps _ incr_warned => idtac
  end; apply leaves_failed; reflexivity.

Ltac walk_warned :=
  open_helpers; walk warned_unchanged_refl warned_unchanged_trans warned_leaf.
Ltac walk_failed :=
  open_helpers; walk failed_unchanged_refl failed_unchanged_trans failed_leaf.

(** X8: the readiness, node, core-pod and Argo CD checks never touch
    [warned]; the namespace, Loki/Promtail and DNS checks never touch
    [failed] - whatever the world answers, and also when an exception is
    caught on the way. *)
Theorem severity_by_section (w : World) (args : Namespace) (s : state) :
  Forall (fun c : M unit => warned (snd (c s)) = warned s)
         [api_readyz w args; node_health w args; core_pods w args;
          argo_cd w args]
  /\ Forall (fun c : M unit => failed (snd (c s)) = failed s)
            [namespaces w args; logging w args; dns_hints w args].
Proof.
  split.
  - assert (H : Forall (fun c : M unit => keeps warned_unchanged c)
                       [api_readyz w args; node_health w args;
                        core_pods w args; argo_cd w args]).
    { unfold api_readyz, node_health, core_pods, argo_cd.
      repeat apply Forall_cons; try apply Forall_nil; walk_warned. }
    eapply Forall_impl; [|exact H]. intros c Hc. apply Hc.
  - assert (H : Forall (fun c : M unit => keeps failed_unchanged c)
                       [namespaces w args; logging w args;
                        dns_hints w args]).
    { unfold namespaces, logging, dns_hints, dns_hint.
      repeat apply Forall_cons; try apply Forall_nil; walk_failed. }
    eapply Forall_impl; [|exact H]. intros c Hc. apply Hc.
Qed.

(** ** The node check *)

Lemma scan_ready_step (c : json) (rest : list json) (b : bool) :
  dict c = true ->
  scan_ready (c :: rest) b
  = scan_ready rest (if type_is "Ready" c then status_is_True c else b).
Proof.
  destruct c; try discriminate. intros _.
  unfold type_is, status_is_True. cbn [scan_ready Py.get rbind field].
  destruct (Py.lookup "type" kv) as [t|]; cbn [Py.eq_str].
  - destruct (Py.eq_str t "Ready"); [|reflexivity].
    now destruct (Py.lookup "status" kv).
  - reflexivity.
Qed.

Lemma scan_ready_others (conds : list json) (b : bool) :
  forallb other_condition conds = true -> scan_ready conds b = Ok b.
Proof.
  induction conds as [|c conds IH]; intros H; [reflexivity|].
  cbn [forallb] in H. apply andb_true_iff in H. destruct H as [Hc H].
  unfold other_condition in Hc. apply andb_true_iff in Hc.
  destruct Hc as [Hd Ht]. rewrite scan_ready_step by exact Hd.
  apply negb_true_iff in Ht. rewrite Ht. now apply IH.
Qed.

Lemma scan_ready_prefix (pre rest : list json) (b : bool) :
  forallb dict pre = true ->
  exists b', scan_ready (pre ++ rest) b = scan_ready rest b'.
Proof.
  revert b. induction pre as [|c pre IH]; intros b H; [now exists b|].
  cbn [forallb] in H. apply andb_true_iff in H. destruct H as [Hd H].
  cbn [app]. rewrite scan_ready_step by exact Hd. now apply IH.
Qed.

(** X9: the loop over the node's conditions lets the last condition of
    type "Ready" decide: the node counts as ready exactly when the status
    of that condition is the string "True"; without any condition of type
    "Ready" the flag keeps its initial value. *)
Theorem ready_follows_last_condition (pre post : list json) (c : json)
        (b : bool) :
  (forallb dict pre = true -> dict c = true -> type_is "Ready" c = true ->
   forallb other_condition post = true ->
   scan_ready (pre ++ c :: post) b = Ok (status_is_True c))
  /\ (forallb other_condition post = true -> scan_ready post b = Ok b).
Proof.
  split; [|apply scan_ready_others].
  intros Hpre Hd Ht Hpost.
  destruct (scan_ready_prefix pre (c :: post) b Hpre) as (b' & ->).
  rewrite scan_ready_step by exact Hd. rewrite Ht. now apply scan_ready_others.
Qed.

Lemma ready_follows_last_condition_witness :
  scan_ready Cases.conditions false = Ok true
  /\ scan_ready [Cases.condition (JStr "DiskPressure") (JStr "False")] false
     = Ok false.
Proof.
  split.
  - apply (proj1 (ready_follows_last_condition
                    [Cases.condition (JStr "MemoryPressure") (JStr "False");
                     Cases.condition (JStr "Ready") (JStr "False")]
                    [Cases.condition (JStr "DiskPressure") (JStr "False")]
                    (Cases.condition (JStr "Ready") (JStr "True")) false));
      reflexivity.
  - apply (proj2 (ready_follows_last_condition
                    [] [Cases.condition (JStr "DiskPressure") (JStr "False")]
                    JNull false)).
    reflexivity.
Defined.

Lemma find_snoc A (p : A -> bool) (l : list A) (x : A) :
  find p (l ++ [x])
  = match find p l with
    | Some y => Some y
    | None => if p x then Some x else None
    end.
Proof.
  induction l as [|y l IH]; simpl; [reflexivity|].
  destruct (p y); [reflexivity | exact IH].
Qed.

(** X10: for a list of address entries that each have a string [type] and
    an [address], the dict the comprehension builds answers
    [get("InternalIP")] with the address of the last entry of that type,
    and with the default when there is none. *)
Theorem internal_ip_is_last_entry (addrs : list json)
        (entries : list (string * json)) :
  Forall2 address_entry addrs entries ->
  exists items,
    address_items addrs = Ok items
    /\ PyOps.lookup_last "InternalIP" items
       = option_map snd (find is_internal (rev entries)).
Proof.
  induction 1 as [|a tv addrs entries [Ht Ha] _ (items & E & L)].
  - exists []. split; reflexivity.
  - exists ((JStr (fst tv), snd tv) :: items). split.
    + destruct a; try discriminate. cbn [field] in Ht, Ha.
      cbn [address_items Py.getitem]. rewrite Ht, Ha. cbn. now rewrite E.
    + cbn [PyOps.lookup_last rev]. rewrite L, find_snoc.
      destruct (find is_internal (rev entries)); [reflexivity|].
      cbn [option_map Py.eq_str]. unfold is_internal.
      now destruct (String.eqb (fst tv) "InternalIP").
Qed.

Lemma internal_ip_is_last_entry_witness :
  exists items,
    address_items Cases.addresses = Ok items
    /\ PyOps.lookup_last "InternalIP" items = Some (JStr "192.168.2.60").
Proof.
  apply (internal_ip_is_last_entry
           (addrs := Cases.addresses)
           (entries := [("InternalIP", JStr "10.0.0.9");
                        ("InternalIP", JStr "192.168.2.60");
                        ("Hostname", JStr "k3s")])).
  repeat constructor.
Defined.

Lemma try_query_returns (q : M json) (k : json -> M unit)
      (handler : exn -> M unit) (s s1 : state) (j : json) :
  q s = (Ok j, s1) ->
  try_except (bind q k) handler s = try_except (k j) handler s1.
Proof. intros E. unfold try_except, bind. now rewrite E. Qed.

Lemma kubectl_json_returns (w : World) (arguments kcfg : string) (s : state)
      (stdout stderr : string) (j : json) :
  popen w (clock s) (kubectl kcfg (arguments ++ " -o json")) 40
  = Exited 0 stdout stderr ->
  json_loads w (Str.strip stdout) = Ok j ->
  exists s1,
    kubectl_json w arguments kcfg s = (Ok j, s1)
    /\ same_counters s s1 /\ printed s1 = printed s.
Proof.
  intros H Hj. destruct (kubectl_json_exited w arguments _ s H)
    as (s1 & E & C & P).
  cbn [Z.eqb] in E. rewrite Hj in E. now exists s1.
Qed.

(** Where a section stands once its header is printed. *)
Lemma section_start (hdr : string) (body : M unit) (s : state) :
  bind (print "") (fun _ => bind (info hdr) (fun _ => body)) s
  = body (after_header hdr s).
Proof. reflexivity. Qed.

(** X11: when the node query succeeds, the node section prints one fail
    line "No nodes returned by API" for a missing, empty or otherwise
    falsy [items]; for a first node that can be inspected it prints exactly
    two verdicts, one for the Ready flag and one for the comparison of the
    InternalIP with the configured IP, and counts each of them. *)
Theorem node_health_outcomes (w : World) (args : Namespace) (s : state)
        (stdout stderr : string) (j items : json) :
  popen w (clock s) (kubectl (kubeconfig args) "get nodes -o json") 40
  = Exited 0 stdout stderr ->
  json_loads w (Str.strip stdout) = Ok j ->
  Py.get j "items" (JArr []) = Ok items ->
  (Py.truthy items = false ->
   exists s',
     node_health w args s = (Ok tt, s')
     /\ prints s s' [Text ""; Header "=== Node health ===";
                     Failure "No nodes returned by API"]
     /\ failed s' = failed s + 1
     /\ passed s' = passed s /\ warned s' = warned s)
  /\ (forall name internal_ip ready,
        Py.truthy items = true ->
        inspect_node items = Ok (name, internal_ip, ready) ->
        exists s',
          node_health w args s = (Ok tt, s')
          /\ prints s s' [Text ""; Header "=== Node health ===";
                          ready_line w name ready;
                          address_line w args internal_ip]
          /\ passed s'
             = passed s + Z.b2z ready
               + Z.b2z (Py.eq_str internal_ip (ip args))
          /\ passed s' + failed s' = passed s + failed s + 2
          /\ warned s' = warned s).
Proof.
  intros H Hj Hitems.
  destruct (kubectl_json_returns w "get nodes" (kubeconfig args)
              (after_header "=== Node health ===" s) H Hj)
    as (s1 & E & (Cp & Cf & Cw) & P).
  unfold after_header in Cp, Cf, Cw, P. cbn [passed failed warned printed] in *.
  split.
  - intros Hfalsy. unfold node_health, kc. rewrite section_start.
    erewrite try_query_returns by exact E.
    unfold try_except, bind, lift, fail, emit, incr_failed.
    rewrite Hitems, Hfalsy. cbn [negb]. eexists. split; [reflexivity|].
    unfold prints. fields. rewrite P, Cp, Cf, Cw.
    rewrite <- !app_assoc. now repeat split.
  - intros name internal_ip ready Htruthy Hnode.
    unfold node_health, kc. rewrite section_start.
    erewrite try_query_returns by exact E.
    unfold try_except, bind, lift, ok, fail, emit, incr_passed, incr_failed.
    rewrite Hitems, Htruthy, Hnode. cbn [negb].
    unfold ready_line, address_line.
    destruct ready; destruct (Py.eq_str internal_ip (ip args));
      (eexists; split; [reflexivity|]); unfold prints; fields;
      rewrite P, Cp, Cf, Cw; rewrite <- !app_assoc; cbn [Z.b2z];
      (split; [reflexivity|]); (split; [lia|]); (split; [lia|]);
      reflexivity.
Qed.

Lemma node_health_outcomes_witness :
  exists s',
    node_health (Cases.answering_json (JObj [("items", JArr [Cases.node])]))
                Sample.args0 initial = (Ok tt, s')
    /\ prints initial s'
              [Text ""; Header "=== Node health ===";
               Pass "Node k3s Ready=True";
               Pass "Node InternalIP=192.168.2.60 (expected)"]
    /\ passed s' = 2.
Proof.
  destruct (node_health_outcomes
              (Cases.answering_json (JObj [("items", JArr [Cases.node])]))
              Sample.args0 initial (stdout := "{}") (stderr := "")
              (j := JObj [("items", JArr [Cases.node])])
              (items := JArr [Cases.node]))
    as (_ & Hnode); try reflexivity.
  destruct (Hnode (JStr "k3s") (JStr "192.168.2.60") true)
    as (s' & E & P & Hp & _); try reflexivity.
  exists s'. split; [exact E|]. split; [exact P | exact Hp].
Defined.

(** ** The core pods *)

Lemma pod_ready_is_ready (p : json) : pod_ready p = Ok (is_ready p).
Proof.
  unfold is_ready, pod_ready. now destruct (pod_ready_body p).
Qed.

Lemma entry_eta (e : string * bool) : (fst e, snd e) = e.
Proof. now destruct e. Qed.

(** One pod with a string name against the keys. *)
Lemma mark_pod_named (p : json) (n : string) (keys : list string)
      (need : list (string * bool)) :
  mark_pod p (JStr n) keys need
  = Ok (map (fun e => (fst e,
                       snd e || (existsb (String.eqb (fst e)) keys
                                 && (Str.startswith n (fst e)
                                     && is_ready p))))
            need).
Proof.
  revert need. induction keys as [|key keys IH]; intros need.
  - cbn [mark_pod existsb andb]. f_equal. symmetry.
    erewrite map_ext; [apply map_id|].
    intros e. cbn. now rewrite orb_false_r, entry_eta.
  - cbn [mark_pod PyOps.startswith rbind].
    rewrite pod_ready_is_ready.
    set (hit := Str.startswith n key && is_ready p).
    replace (if Str.startswith n key then Ok (is_ready p) else Ok false)
      with (Ok hit : result bool)
      by (unfold hit; now destruct (Str.startswith n key)).
    cbn [rbind]. rewrite IH. f_equal.
    destruct hit eqn:Hhit.
    + unfold set_true. rewrite map_map. apply map_ext. intros e.
      cbn [existsb].
      destruct (String.eqb (fst e) key) eqn:Hk; cbn [fst snd orb andb].
      * apply String.eqb_eq in Hk. rewrite Hk. unfold hit in Hhit.
        rewrite Hhit. now rewrite !orb_true_r.
      * reflexivity.
    + apply map_ext. intros e. cbn [existsb].
      destruct (String.eqb (fst e) key) eqn:Hk; cbn [orb andb];
        [|reflexivity].
      apply String.eqb_eq in Hk. rewrite Hk. unfold hit in Hhit.
      rewrite Hhit. now rewrite andb_false_r.
Qed.

Lemma mark_pod_keeps_keys (p : json) (n : string) (keys : list string)
      (need need' : list (string * bool)) :
  mark_pod p (JStr n) keys need = Ok need' -> map fst need' = map fst need.
Proof.
  rewrite mark_pod_named. intros H. injection H as <-.
  rewrite map_map. now apply map_ext.
Qed.

(** The flags after all pods, for entries whose keys are [keys]. *)
Lemma mark_pods_named (pods : list json) (need : list (string * bool)) :
  forallb has_name pods = true ->
  mark_pods pods need
  = Ok (map (fun e => (fst e,
                       snd e || (existsb (String.eqb (fst e))
                                         (map fst need)
                                 && existsb (serves (fst e)) pods)))
            need).
Proof.
  revert need. induction pods as [|p pods IH]; intros need H.
  - cbn [mark_pods existsb]. f_equal. symmetry.
    erewrite map_ext; [apply map_id|].
    intros e. now rewrite andb_false_r, orb_false_r, entry_eta.
  - cbn [forallb] in H. apply andb_true_iff in H. destruct H as [Hp H].
    unfold has_name in Hp. destruct (pod_name p) as [n|] eqn:Hn;
      [clear Hp | discriminate].
    assert (Hname : exists md, Py.getitem p "metadata" = Ok md
                               /\ Py.getitem md "name" = Ok (JStr n)).
    { unfold pod_name in Hn. destruct p; try discriminate. cbn [field] in Hn.
      destruct (Py.lookup "metadata" kv) as [md|] eqn:Hmd; [|discriminate].
      exists md. cbn [Py.getitem]. rewrite Hmd. split; [reflexivity|].
      destruct md; try discriminate. cbn [field] in Hn. cbn [Py.getitem].
      destruct (Py.lookup "name" kv0) as [[]|]; try discriminate.
      now injection Hn as ->. }
    destruct Hname as (md & Hmd & Hnm).
    cbn [mark_pods]. rewrite Hmd. cbn [rbind]. rewrite Hnm. cbn [rbind].
    rewrite mark_pod_named. cbn [rbind]. rewrite IH by exact H.
    f_equal. rewrite !map_map. apply map_ext. intros e.
    cbn [fst snd existsb]. unfold serves at 2. rewrite Hn.
    change (map (fun x : string * bool => fst x) need) with (map fst need).
    destruct (snd e); destruct (existsb (String.eqb (fst e)) (map fst need));
      destruct (Str.startswith n (fst e) && is_ready p);
      destruct (existsb (serves (fst e)) pods); reflexivity.
Qed.

(** A pod without a string name stops the loop with an exception. *)
Lemma mark_pods_returns_named (pods : list json)
      (need need' : list (string * bool)) :
  need <> [] -> mark_pods pods need = Ok need' ->
  forallb has_name pods = true.
Proof.
  revert need. induction pods as [|p pods IH]; intros need Hne H;
    [reflexivity|].
  cbn [mark_pods] in H.
  destruct (Py.getitem p "metadata") as [md|] eqn:Hmd; [|discriminate].
  cbn [rbind] in H.
  destruct (Py.getitem md "name") as [name|] eqn:Hnm; [|discriminate].
  cbn [rbind] in H.
  destruct (mark_pod p name (map fst need) need) as [need1|] eqn:Hmark;
    [|discriminate].
  cbn [rbind] in H.
  assert (Hstr : exists n, name = JStr n).
  { destruct need as [|e need]; [congruence|].
    cbn [map mark_pod] in Hmark.
    destruct name; try discriminate. now exists s. }
  destruct Hstr as (n & ->).
  cbn [forallb]. apply andb_true_iff. split.
  - unfold has_name, pod_name.
    destruct p; try discriminate. cbn [Py.getitem field] in *.
    destruct (Py.lookup "metadata" kv); [|discriminate].
    injection Hmd as ->.
    destruct md; try discriminate. cbn [Py.getitem field] in *.
    destruct (Py.lookup "name" kv0); [|discriminate].
    now injection Hnm as ->.
  - apply (IH need1); [|exact H].
    apply mark_pod_keeps_keys in Hmark.
    intros ->. destruct need; [congruence | discriminate].
Qed.

(** X12: the double loop over the pods of kube-system returns exactly
    when every pod has a string name, and then each of the four components
    is flagged exactly when some pod whose name starts with the
    component's name is ready; a pod without such a name raises. *)
Theorem core_components_flagged (pods : list json) :
  (forall need,
      mark_pods pods need0 = Ok need ->
      forallb has_name pods = true /\ need = core_verdicts pods)
  /\ (forallb has_name pods = true ->
      mark_pods pods need0 = Ok (core_verdicts pods))
  /\ (forallb has_name pods = false ->
      exists e, mark_pods pods need0 = Raise e).
Proof.
  assert (Hfwd : forallb has_name pods = true ->
                 mark_pods pods need0 = Ok (core_verdicts pods)).
  { intros H. rewrite mark_pods_named by exact H. reflexivity. }
  assert (Hback : forall need, mark_pods pods need0 = Ok need ->
                               forallb has_name pods = true).
  { intros need H. apply (mark_pods_returns_named pods (need := need0))
      with (need' := need); [discriminate | exact H]. }
  split; [|split].
  - intros need H. pose proof (Hback need H) as Hn.
    split; [exact Hn|]. rewrite (Hfwd Hn) in H. now injection H.
  - exact Hfwd.
  - intros Hn. destruct (mark_pods pods need0) as [need|e] eqn:E.
    + rewrite (Hback need eq_refl) in Hn. discriminate.
    + now exists e.
Qed.

Lemma core_components_flagged_witness :
  mark_pods Cases.system_pods need0
  = Ok [("coredns", true); ("traefik", false); ("metrics-server", true);
        ("local-path-provisioner", false)].
Proof.
  apply (proj1 (proj2 (core_components_flagged Cases.system_pods))).
  reflexivity.
Defined.

Lemma component_lines_counted (need : list (string * bool)) :
  count is_pass (map component_line need)
  + count is_failure (map component_line need)
  = Z.of_nat (List.length need).
Proof.
  unfold count.
  induction need as [|[k [|]] need IH];
    cbn [map component_line snd fst filter is_pass is_failure List.length]
      in *; lia.
Qed.

(** The loop that prints one verdict per component. *)
Lemma for_each_components (need : list (string * bool)) (s : state) :
  exists s',
    for_each need
      (fun entry =>
         if snd entry then
           bind (ok (fst entry ++ " Running/Ready")) (fun _ => incr_passed)
         else
           bind (fail (fst entry ++ " not Ready")) (fun _ => incr_failed)) s
    = (Ok tt, s')
    /\ prints s s' (map component_line need)
    /\ passed s' = passed s + count is_pass (map component_line need)
    /\ failed s' = failed s + count is_failure (map component_line need)
    /\ warned s' = warned s.
Proof.
  revert s. induction need as [|[k b] need IH]; intros s.
  - exists s. cbn. unfold count. cbn. repeat split; try lia.
    apply prints_refl.
  - cbn [for_each snd fst].
    set (s1 := if b
               then State (passed s + 1) (failed s) (warned s)
                          (printed s ++ [Pass (k ++ " Running/Ready")])
                          (procs s) (clock s)
                          (writes s
                           ++ [Write CPassed (passed s) (passed s + 1)])
               else State (passed s) (failed s + 1) (warned s)
                          (printed s ++ [Failure (k ++ " not Ready")])
                          (procs s) (clock s)
                          (writes s
                           ++ [Write CFailed (failed s) (failed s + 1)])).
    destruct (IH s1) as (s' & E & P & Hp & Hf & Hw).
    exists s'. split.
    { unfold bind at 1. destruct b; cbn; exact E. }
    unfold prints in *. rewrite P, Hp, Hf, Hw. unfold s1.
    cbn [map].
    change (component_line (k, b) :: map component_line need)
      with ([component_line (k, b)] ++ map component_line need)%list.
    rewrite !count_app.
    destruct b; cbn [component_line snd fst]; fields;
      rewrite <- app_assoc; (split; [reflexivity|]); unfold count;
      cbn [filter is_pass is_failure List.length];
      change (Z.of_nat 1) with 1; change (Z.of_nat 0) with 0;
      repeat split; lia.
Qed.

(** X13: when the query for the pods of kube-system succeeds, the section
    prints one verdict per component, in the order coredns, traefik,
    metrics-server, local-path-provisioner, each a pass line when a ready
    pod with that name prefix exists and a fail line otherwise, and counts
    all four; but a single pod without a string name replaces the four
    verdicts by one fail line. *)
Theorem core_pods_outcomes (w : World) (args : Namespace) (s : state)
        (stdout stderr : string) (j v : json) (pods : list json) :
  popen w (clock s)
        (kubectl (kubeconfig args) "-n kube-system get pods -o json") 40
  = Exited 0 stdout stderr ->
  json_loads w (Str.strip stdout) = Ok j ->
  Py.get j "items" (JArr []) = Ok v ->
  Py.iter v = Ok pods ->
  (forallb has_name pods = true ->
   exists s',
     core_pods w args s = (Ok tt, s')
     /\ prints s s' ([Text ""; Header "=== Core kube-system pods ==="]
                     ++ map component_line (core_verdicts pods))
     /\ passed s'
        = passed s + count is_pass (map component_line (core_verdicts pods))
     /\ passed s' + failed s' = passed s + failed s + 4
     /\ warned s' = warned s)
  /\ (forallb has_name pods = false ->
      exists s' msg,
        core_pods w args s = (Ok tt, s')
        /\ prints s s' [Text ""; Header "=== Core kube-system pods ===";
                        Failure ("Failed to read kube-system pods: " ++ msg)]
        /\ failed s' = failed s + 1
        /\ passed s' = passed s /\ warned s' = warned s).
Proof.
  intros H Hj Hv Hpods.
  destruct (kubectl_json_returns w "-n kube-system get pods" (kubeconfig args)
              (after_header "=== Core kube-system pods ===" s) H Hj)
    as (s1 & E & (Cp & Cf & Cw) & P).
  unfold after_header in Cp, Cf, Cw, P. cbn [passed failed warned printed] in *.
  split.
  - intros Hn. unfold core_pods, kc. rewrite section_start.
    erewrite try_query_returns by exact E.
    unfold try_except. unfold bind at 1 2 3, lift.
    rewrite Hv, Hpods. rewrite mark_pods_named by exact Hn.
    change (map _ need0) with (core_verdicts pods).
    destruct (for_each_components (core_verdicts pods) s1)
      as (s' & E' & P' & Hp & Hf & Hw).
    rewrite E'. exists s'. split; [reflexivity|].
    pose proof (component_lines_counted (core_verdicts pods)) as Hc.
    change (Z.of_nat (List.length (core_verdicts pods))) with 4 in Hc.
    unfold prints in *. rewrite P', P, Hp, Hf, Hw, Cp, Cf, Cw.
    rewrite <- !app_assoc. repeat split; lia.
  - intros Hn. unfold core_pods, kc. rewrite section_start.
    erewrite try_query_returns by exact E.
    unfold try_except. unfold bind at 1 2 3, lift.
    rewrite Hv, Hpods.
    destruct (mark_pods pods need0) as [need|e] eqn:Em.
    + rewrite (mark_pods_returns_named pods (need := need0) (need' := need))
        in Hn; [discriminate | discriminate | exact Em].
    + unfold bind, fail, emit, incr_failed. do 2 eexists.
      split; [reflexivity|]. unfold prints. fields.
      rewrite P, Cp, Cf, Cw. rewrite <- !app_assoc. now repeat split.
Qed.

Lemma core_pods_outcomes_witness :
  exists s',
    core_pods (Cases.answering_json
                 (JObj [("items", JArr Cases.system_pods)]))
              Sample.args0 initial = (Ok tt, s')
    /\ prints initial s'
              [Text ""; Header "=== Core kube-system pods ===";
               Pass "coredns Running/Ready"; Failure "traefik not Ready";
               Pass "metrics-server Running/Ready";
               Failure "local-path-provisioner not Ready"]
    /\ passed s' = 2.
Proof.
  destruct (core_pods_outcomes
              (Cases.answering_json
                 (JObj [("items", JArr Cases.system_pods)]))
              Sample.args0 initial (stdout := "{}") (stderr := "")
              (j := JObj [("items", JArr Cases.system_pods)])
              (v := JArr Cases.system_pods) (pods := Cases.system_pods))
    as (Hok & _); try reflexivity.
  destruct Hok as (s' & E & P & Hp & _); [reflexivity|].
  exists s'. split; [exact E|]. split; [exact P | exact Hp].
Defined.

(** ** The namespaces *)

Lemma namespaces_unfold (w : World) (args : Namespace) :
  namespaces w args
  = bind (print "")
         (fun _ => bind (info "=== Namespaces present ===")
                        (fun _ => for_each ["argocd"; "monitoring";
                                            "logging"; "default"]
                                           (namespace_check w args))).
Proof. reflexivity. Qed.

Lemma namespace_check_one (w : World) (args : Namespace) (ns : string)
      (s : state) :
  exists l s',
    namespace_check w args ns s = (Ok tt, s')
    /\ prints s s' [l]
    /\ ((is_pass l = true /\ passed s' = passed s + 1
         /\ warned s' = warned s)
        \/ (is_warning l = true /\ warned s' = warned s + 1
            /\ passed s' = passed s))
    /\ failed s' = failed s
    /\ (is_pass l = true <->
        exists out err,
          popen w (clock s) (kubectl (kubeconfig args) ("get ns " ++ ns)) 20
          = Exited 0 out err).
Proof.
  unfold namespace_check, try_except, sh, bind, tick, record_proc, ret,
    raise, ok, warn, emit, incr_passed, incr_warned.
  fields.
  destruct (popen w (clock s) _ 20) as [rc out err| |e|e] eqn:P; fields.
  - destruct (rc =? 0) eqn:Hrc.
    + apply Z.eqb_eq in Hrc. subst rc.
      do 2 eexists. split; [reflexivity|]. fields.
      split; [reflexivity|]. split; [left; now repeat split|].
      split; [reflexivity|].
      split; [intros _; now exists out, err | reflexivity].
    + do 2 eexists. split; [reflexivity|]. fields.
      split; [reflexivity|]. split; [right; now repeat split|].
      split; [reflexivity|].
      split; [discriminate|].
      intros (o & e & Heq). injection Heq as -> _ _. discriminate.
  - do 2 eexists. split; [reflexivity|]. fields.
    split; [reflexivity|]. split; [right; now repeat split|].
    split; [reflexivity|].
    split; [discriminate | intros (o & e & Heq); discriminate].
  - do 2 eexists. split; [reflexivity|]. fields.
    split; [reflexivity|]. split; [right; now repeat split|].
    split; [reflexivity|].
    split; [discriminate | intros (o & e0 & Heq); discriminate].
  - do 2 eexists. split; [reflexivity|]. fields.
    split; [reflexivity|]. split; [right; now repeat split|].
    split; [reflexivity|].
    split; [discriminate | intros (o & e0 & Heq); discriminate].
Qed.

Lemma for_each_pass_or_warning A (body : A -> M unit) :
  (forall x, one_pass_or_warning (body x)) ->
  forall xs s, exists ls s',
      for_each xs body s = (Ok tt, s')
      /\ prints s s' ls
      /\ List.length ls = List.length xs
      /\ forallb pass_or_warning ls = true
      /\ passed s' = passed s + count is_pass ls
      /\ warned s' = warned s + count is_warning ls
      /\ failed s' = failed s.
Proof.
  intros Hb xs. induction xs as [|x xs IH]; intros s.
  - exists [], s. unfold count. cbn. repeat split; try lia.
    apply prints_refl.
  - destruct (Hb x s) as (l & s1 & E1 & P1 & Hcase & F1).
    destruct (IH s1) as (ls & s2 & E2 & P2 & L2 & G2 & Hp & Hw & F2).
    exists (l :: ls), s2. cbn [for_each]. unfold bind. rewrite E1.
    split; [exact E2|]. split; [exact (prints_trans P1 P2)|].
    split; [cbn; now rewrite L2|].
    change (l :: ls) with ([l] ++ ls)%list. rewrite !count_app.
    unfold count at 1 3. cbn [filter].
    destruct Hcase as [(Hl & Hp1 & Hw1) | (Hl & Hw1 & Hp1)].
    + destruct l; try discriminate. cbn [is_pass is_warning List.length].
      change (Z.of_nat 1) with 1. change (Z.of_nat 0) with 0.
      split; [exact G2|]. repeat split; lia.
    + destruct l; try discriminate. cbn [is_pass is_warning List.length].
      change (Z.of_nat 1) with 1. change (Z.of_nat 0) with 0.
      split; [exact G2|]. repeat split; lia.
Qed.

Lemma pass_or_warning_total (ls : list line) :
  forallb pass_or_warning ls = true ->
  count is_pass ls + count is_warning ls = Z.of_nat (List.length ls).
Proof.
  unfold count. induction ls as [|l ls IH]; intros H; [reflexivity|].
  cbn [forallb] in H. apply andb_true_iff in H. destruct H as [Hl H].
  specialize (IH H).
  destruct l; try discriminate;
    cbn [filter is_pass is_warning List.length] in *; lia.
Qed.

(** X14: a namespace counts as present exactly when [kubectl get ns]
    exits with 0; any other outcome, including a timeout and an exception,
    is a warning. The section always returns with four lines, one per
    namespace, each a pass or a warn line counted in its counter, and
    never touches [failed]. *)
Theorem namespaces_four_verdicts (w : World) (args : Namespace) (s : state) :
  (forall ns,
      exists l s',
        namespace_check w args ns s = (Ok tt, s')
        /\ prints s s' [l]
        /\ pass_or_warning l = true
        /\ (is_pass l = true <->
            exists out err,
              popen w (clock s)
                    (kubectl (kubeconfig args) ("get ns " ++ ns)) 20
              = Exited 0 out err))
  /\ (exists ls s',
        namespaces w args s = (Ok tt, s')
        /\ prints s s' ([Text ""; Header "=== Namespaces present ==="] ++ ls)
        /\ List.length ls = 4%nat
        /\ forallb pass_or_warning ls = true
        /\ passed s' = passed s + count is_pass ls
        /\ warned s' = warned s + count is_warning ls
        /\ passed s' + warned s' = passed s + warned s + 4
        /\ failed s' = failed s).
Proof.
  split.
  - intros ns.
    destruct (namespace_check_one w args ns s)
      as (l & s' & E & P & Hcase & _ & Hiff).
    exists l, s'. split; [exact E|]. split; [exact P|].
    split; [|exact Hiff]. unfold pass_or_warning.
    destruct Hcase as [(-> & _) | (-> & _)];
      [reflexivity | apply orb_true_r].
  - rewrite namespaces_unfold, section_start.
    assert (Hb : forall ns, one_pass_or_warning (namespace_check w args ns)).
    { intros ns s0.
      destruct (namespace_check_one w args ns s0)
        as (l & s' & E & P & Hcase & F & _).
      now exists l, s'. }
    destruct (@for_each_pass_or_warning _ _ Hb
                ["argocd"; "monitoring"; "logging"; "default"]
                (after_header "=== Namespaces present ===" s))
      as (ls & s' & E & P & L & G & Hp & Hw & F).
    exists ls, s'. split; [exact E|].
    pose proof (pass_or_warning_total ls G) as Ht. rewrite L in Ht.
    change (Z.of_nat (List.length ["argocd"; "monitoring"; "logging";
                                   "default"])) with 4 in Ht.
    unfold after_header in *. cbn [passed failed warned printed] in *.
    unfold prints in *. rewrite P. fields. rewrite <- !app_assoc.
    split; [reflexivity|]. repeat split; auto; lia.
Qed.

Lemma namespaces_four_verdicts_witness :
  exists l s',
    namespace_check Cases.ready Sample.args0 "argocd" initial = (Ok tt, s')
    /\ prints initial s' [l] /\ is_pass l = true.
Proof.
  destruct (namespaces_four_verdicts Cases.ready Sample.args0 initial)
    as (Hone & _).
  destruct (Hone "argocd") as (l & s' & E & P & _ & Hiff).
  exists l, s'. split; [exact E|]. split; [exact P|].
  apply Hiff. exists ("  OK" ++ Str.nl), "". reflexivity.
Defined.

(** ** Deployments *)

(** X15: for a deployment object, a missing [status], a missing
    [availableReplicas] and a null [availableReplicas] all mean "not
    available" without an exception, and an integer count means available
    exactly when it is positive; a [status] that is null raises, which the
    enclosing section catches. *)
Theorem available_reads_replicas (w : World) (stdout : string)
        (kv : list (string * json)) :
  json_loads w stdout = Ok (JObj kv) ->
  (Py.lookup "status" kv = None -> available w stdout = Ok false)
  /\ (forall skv,
        Py.lookup "status" kv = Some (JObj skv) ->
        (Py.lookup "availableReplicas" skv = None ->
         available w stdout = Ok false)
        /\ (Py.lookup "availableReplicas" skv = Some JNull ->
            available w stdout = Ok false)
        /\ (forall n,
              Py.lookup "availableReplicas" skv = Some (JInt n) ->
              available w stdout = Ok (0 <? n)))
  /\ (Py.lookup "status" kv = Some JNull ->
      exists e, available w stdout = Raise e).
Proof.
  intros Hj. unfold available. rewrite Hj. cbn [rbind Py.get].
  split; [|split].
  - intros ->. reflexivity.
  - intros skv ->. cbn [rbind Py.get]. split; [|split].
    + intros ->. reflexivity.
    + intros ->. reflexivity.
    + intros n ->. cbn [Py.truthy]. destruct (n =? 0) eqn:Hn; cbn.
      * apply Z.eqb_eq in Hn. now subst n.
      * reflexivity.
  - intros ->. cbn. eexists. reflexivity.
Qed.

Lemma available_reads_replicas_witness :
  available
    (Cases.answering_json
       (JObj [("status", JObj [("availableReplicas", JInt 1)])])) "{}"
  = Ok true.
Proof.
  destruct (available_reads_replicas
              (Cases.answering_json
                 (JObj [("status", JObj [("availableReplicas", JInt 1)])]))
              "{}" (kv := [("status", JObj [("availableReplicas", JInt 1)])]))
    as (_ & Hst & _); [reflexivity|].
  destruct (Hst [("availableReplicas", JInt 1)]) as (_ & _ & Hn);
    [reflexivity|].
  apply (Hn 1). reflexivity.
Defined.

(** X16: in the Argo CD section a deployment answer that cannot be read
    (kubectl exits with 0 and parsing or reading the JSON raises) ends the
    section with the single fail line "ArgoCD check error" before any
    probe is sent: the only call to the outside is the kubectl command. *)
Theorem argo_cd_unreadable_skips_probe (w : World) (args : Namespace)
        (s : state) (stdout stderr : string) (e : exn) :
  popen w (clock s)
        (kubectl (kubeconfig args)
                 "-n argocd get deploy argocd-server -o json") 20
  = Exited 0 stdout stderr ->
  available w (Str.strip stdout) = Raise e ->
  exists s',
    argo_cd w args s = (Ok tt, s')
    /\ prints s s' [Text ""; Header "=== Argo CD ===";
                    Failure ("ArgoCD check error: " ++ exn_msg e)]
    /\ failed s' = failed s + 1
    /\ passed s' = passed s /\ warned s' = warned s
    /\ clock s' = S (clock s).
Proof.
  intros H Ha. unfold argo_cd, kc. rewrite section_start.
  unfold try_except, sh, bind at 1 2 3 4 5, tick, record_proc, ret, lift.
  unfold after_header. fields. rewrite H. fields. cbn [Z.eqb].
  rewrite Ha. unfold bind, fail, emit, incr_failed.
  eexists. split; [reflexivity|]. unfold prints. fields.
  rewrite <- !app_assoc. now repeat split.
Qed.

Lemma argo_cd_unreadable_skips_probe_witness :
  exists s',
    argo_cd Cases.ready Sample.args0 initial = (Ok tt, s')
    /\ prints initial s'
              [Text ""; Header "=== Argo CD ===";
               Failure "ArgoCD check error: Expecting value"]
    /\ failed s' = failed initial + 1
    /\ passed s' = passed initial /\ warned s' = warned initial
    /\ clock s' = 1%nat.
Proof.
  apply (argo_cd_unreadable_skips_probe Cases.ready Sample.args0 initial
           (stdout := "  OK" ++ Str.nl) (stderr := "")
           (e := Exn "JSONDecodeError" "Expecting value"));
    reflexivity.
Defined.

(** X17: a missing Argo CD deployment (kubectl exits with a non-zero
    code) costs one fail line and does not stop the section: the HTTP probe
    is still sent and gets its own verdict, a pass line exactly when the
    probe reports alive. Without --https the section then ends, after two
    calls to the outside. *)
Theorem argo_cd_missing_still_probes (w : World) (args : Namespace)
        (s : state) (rc : Z) (stdout stderr : string) :
  popen w (clock s)
        (kubectl (kubeconfig args)
                 "-n argocd get deploy argocd-server -o json") 20
  = Exited rc stdout stderr ->
  rc <> 0 ->
  https args = false ->
  exists l s',
    argo_cd w args s = (Ok tt, s')
    /\ prints s s' [Text ""; Header "=== Argo CD ===";
                    Failure ("argocd-server deployment not found ("
                             ++ Str.strip stderr ++ ")");
                    l]
    /\ (is_pass l = true \/ is_failure l = true)
    /\ (is_pass l = true <->
        exists code reason body,
          probe_steps w "http"
                      (connect w (S (clock s)) "http" (ip args)
                               (argocd args) "/")
          = Ok (true, code, reason, body))
    /\ passed s' + failed s' = passed s + failed s + 2
    /\ warned s' = warned s
    /\ clock s' = S (S (clock s)).
Proof.
  intros H Hrc Hs. apply Z.eqb_neq in Hrc.
  unfold argo_cd, kc, probe_report, http_probe. rewrite section_start.
  unfold try_except, sh, bind, tick, record_proc, ret, lift, ok, fail, emit,
    incr_passed, incr_failed.
  unfold after_header. fields. rewrite H. fields. rewrite Hrc, Hs. fields.
  destruct (probe_steps w "http" _) as [[[[[|] code] reason] body]|e];
    do 2 eexists; (split; [reflexivity|]); unfold prints; fields;
    rewrite <- !app_assoc; (split; [reflexivity|]).
  - split; [now left|]. split; [|repeat split; lia].
    split; [intros _; now exists code, reason, body | reflexivity].
  - split; [now right|]. split; [|repeat split; lia].
    split; [discriminate | intros (c & r & b & Heq); discriminate].
  - split; [now right|]. split; [|repeat split; lia].
    split; [discriminate | intros (c & r & b & Heq); discriminate].
Qed.

Lemma argo_cd_missing_still_probes_witness :
  exists l s',
    argo_cd (Sample.answering Sample.not_found) Sample.args0 initial
    = (Ok tt, s')
    /\ prints initial s'
              [Text ""; Header "=== Argo CD ===";
               Failure ("argocd-server deployment not found ("
                        ++ Sample.refused_text ++ ")");
               l]
    /\ is_pass l = true.
Proof.
  destruct (argo_cd_missing_still_probes
              (Sample.answering Sample.not_found) Sample.args0 initial
              (rc := 1) (stdout := "")
              (stderr := Sample.refused_text ++ Str.nl))
    as (l & s' & E & P & _ & Hiff & _);
    [reflexivity | discriminate | reflexivity |].
  exists l, s'. split; [exact E|]. split; [exact P|].
  apply Hiff. exists 404, "Not Found", "404 page". reflexivity.
Defined.

(** ** Loki and Promtail *)

Lemma pod_name_getitem (p : json) (n : string) :
  pod_name p = Some n ->
  exists md, Py.getitem p "metadata" = Ok md
             /\ Py.getitem md "name" = Ok (JStr n).
Proof.
  unfold pod_name. intros Hn. destruct p; try discriminate.
  cbn [field] in Hn.
  destruct (Py.lookup "metadata" kv) as [md|] eqn:Hmd; [|discriminate].
  exists md. cbn [Py.getitem]. rewrite Hmd. split; [reflexivity|].
  destruct md; try discriminate. cbn [field] in Hn. cbn [Py.getitem].
  destruct (Py.lookup "name" kv0) as [[]|]; try discriminate.
  now injection Hn as ->.
Qed.

Lemma any_pod_loki (pods : list json) :
  forallb has_name pods = true ->
  any_pod is_loki pods = Ok (existsb (serves "loki") pods).
Proof.
  induction pods as [|p pods IH]; intros H; [reflexivity|].
  cbn [forallb] in H. apply andb_true_iff in H. destruct H as [Hp H].
  unfold has_name in Hp. destruct (pod_name p) as [n|] eqn:Hn;
    [clear Hp | discriminate].
  destruct (pod_name_getitem p Hn) as (md & Hmd & Hnm).
  cbn [any_pod existsb]. unfold is_loki, serves at 1.
  rewrite Hmd, Hn. cbn [rbind]. rewrite Hnm. cbn [rbind PyOps.startswith].
  rewrite pod_ready_is_ready.
  destruct (Str.startswith n "loki"); cbn [andb orb rbind];
    [destruct (is_ready p); cbn [orb rbind]; [reflexivity|] |];
    now apply IH.
Qed.

Lemma any_pod_promtail (pods : list json) :
  forallb has_name pods = true ->
  any_pod is_promtail pods = Ok (existsb (mentions "promtail") pods).
Proof.
  induction pods as [|p pods IH]; intros H; [reflexivity|].
  cbn [forallb] in H. apply andb_true_iff in H. destruct H as [Hp H].
  unfold has_name in Hp. destruct (pod_name p) as [n|] eqn:Hn;
    [clear Hp | discriminate].
  destruct (pod_name_getitem p Hn) as (md & Hmd & Hnm).
  cbn [any_pod existsb]. unfold is_promtail, mentions at 1.
  rewrite Hmd, Hn. cbn [rbind]. rewrite Hnm. cbn [rbind PyOps.contains].
  rewrite pod_ready_is_ready.
  destruct (Str.contains "promtail" n); cbn [andb orb rbind];
    [destruct (is_ready p); cbn [orb rbind]; [reflexivity|] |];
    now apply IH.
Qed.

(** X18: when the query for the pods of the logging namespace succeeds and
    every pod has a string name, the section prints two verdicts: Loki
    passes exactly when a ready pod's name starts with "loki", Promtail
    exactly when a ready pod's name contains "promtail"; a miss is a
    warning, and each line is counted. *)
Theorem logging_outcome (w : World) (args : Namespace) (s : state)
        (stdout stderr : string) (j v : json) (pods : list json) :
  popen w (clock s)
        (kubectl (kubeconfig args) "-n logging get pods -o json") 40
  = Exited 0 stdout stderr ->
  json_loads w (Str.strip stdout) = Ok j ->
  Py.get j "items" (JArr []) = Ok v ->
  Py.iter v = Ok pods ->
  forallb has_name pods = true ->
  exists s',
    logging w args s = (Ok tt, s')
    /\ prints s s' [Text ""; Header "=== Loki / Promtail ===";
                    loki_line (existsb (serves "loki") pods);
                    promtail_line (existsb (mentions "promtail") pods)]
    /\ passed s'
       = passed s + Z.b2z (existsb (serves "loki") pods)
         + Z.b2z (existsb (mentions "promtail") pods)
    /\ passed s' + warned s' = passed s + warned s + 2
    /\ failed s' = failed s.
Proof.
  intros H Hj Hv Hpods Hn.
  destruct (kubectl_json_returns w "-n logging get pods" (kubeconfig args)
              (after_header "=== Loki / Promtail ===" s) H Hj)
    as (s1 & E & (Cp & Cf & Cw) & P).
  unfold after_header in Cp, Cf, Cw, P. cbn [passed failed warned printed] in *.
  unfold logging, kc. rewrite section_start.
  erewrite try_query_returns by exact E.
  unfold try_except, bind, lift, ok, warn, emit, incr_passed, incr_warned.
  rewrite Hv, Hpods. cbn [rbind].
  rewrite any_pod_loki by exact Hn. rewrite any_pod_promtail by exact Hn.
  unfold loki_line, promtail_line.
  destruct (existsb (serves "loki") pods);
    destruct (existsb (mentions "promtail") pods);
    (eexists; split; [reflexivity|]); unfold prints; fields;
    rewrite P, Cp, Cf, Cw; rewrite <- !app_assoc; cbn [Z.b2z];
    (split; [reflexivity|]); repeat split; lia.
Qed.

Lemma logging_outcome_witness :
  exists s',
    logging (Cases.answering_json (JObj [("items", JArr Cases.promtail_only)]))
            Sample.args0 initial = (Ok tt, s')
    /\ prints initial s'
              [Text ""; Header "=== Loki / Promtail ===";
               Pass "Loki pod Running/Ready";
               Pass "Promtail pod Running/Ready"]
    /\ passed s' = 2.
Proof.
  destruct (logging_outcome
              (Cases.answering_json
                 (JObj [("items", JArr Cases.promtail_only)]))
              Sample.args0 initial (stdout := "{}") (stderr := "")
              (j := JObj [("items", JArr Cases.promtail_only)])
              (v := JArr Cases.promtail_only) (pods := Cases.promtail_only))
    as (s' & E & P & Hp & _); try reflexivity.
  exists s'. split; [exact E|]. split; [exact P | exact Hp].
Defined.

(** A pod that passes a test ends the scan with [True] wherever it stands
    in the list, as long as the scan of the pods before it does not raise;
    the pods after it are never looked at. *)
Lemma any_pod_hit (test : json -> result bool) (p : json)
      (before rest : list json) (b : bool) :
  any_pod test before = Ok b -> test p = Ok true ->
  any_pod test (before ++ p :: rest) = Ok true.
Proof.
  intros Hb Hp. induction before as [|q before IH]; cbn [app any_pod].
  - now rewrite Hp.
  - cbn [any_pod] in Hb. destruct (test q) as [[|]|e]; cbn [rbind] in *;
      [reflexivity | now apply IH | discriminate].
Qed.

(** X19: a ready pod whose name starts with "loki-promtail" passes both
    tests of the section, [is_loki] and [is_promtail]: the Loki test only
    looks for the prefix "loki". Wherever such a pod stands among the pods
    of the logging namespace, if the scan of the pods before it does not
    raise, both scans answer [True] and the section prints and counts two
    passes: Promtail alone makes Loki pass. *)
Theorem promtail_pod_counts_as_loki (p : json) (rest : string) :
  pod_name p = Some ("loki-promtail" ++ rest) ->
  pod_ready p = Ok true ->
  is_loki p = Ok true
  /\ is_promtail p = Ok true
  /\ forall (before others : list json) (b1 b2 : bool),
      any_pod is_loki before = Ok b1 ->
      any_pod is_promtail before = Ok b2 ->
      any_pod is_loki (before ++ p :: others) = Ok true
      /\ any_pod is_promtail (before ++ p :: others) = Ok true
      /\ forall (w : World) (args : Namespace) (s : state)
                (stdout stderr : string) (j v : json),
          popen w (clock s)
                (kubectl (kubeconfig args) "-n logging get pods -o json") 40
          = Exited 0 stdout stderr ->
          json_loads w (Str.strip stdout) = Ok j ->
          Py.get j "items" (JArr []) = Ok v ->
          Py.iter v = Ok (before ++ p :: others)%list ->
          exists s',
            logging w args s = (Ok tt, s')
            /\ prints s s' [Text ""; Header "=== Loki / Promtail ===";
                            Pass "Loki pod Running/Ready";
                            Pass "Promtail pod Running/Ready"]
            /\ passed s' = passed s + 2
            /\ warned s' = warned s
            /\ failed s' = failed s.
Proof.
  intros Hn Hr.
  destruct (pod_name_getitem p Hn) as (md & Hmd & Hnm).
  assert (Hl : is_loki p = Ok true).
  { unfold is_loki. rewrite Hmd. cbn [rbind]. rewrite Hnm.
    cbn [rbind PyOps.startswith].
    change (Str.startswith ("loki-promtail" ++ rest) "loki") with true.
    exact Hr. }
  assert (Hp : is_promtail p = Ok true).
  { unfold is_promtail. rewrite Hmd. cbn [rbind]. rewrite Hnm.
    cbn [rbind PyOps.contains].
    replace (Str.contains "promtail" ("loki-promtail" ++ rest)) with true
      by (symmetry; apply (StrLemmas.contains_middle "promtail" "loki-" rest)).
    exact Hr. }
  split; [exact Hl|]. split; [exact Hp|].
  intros before others b1 b2 H1 H2.
  pose proof (any_pod_hit is_loki p before others H1 Hl) as A1.
  pose proof (any_pod_hit is_promtail p before others H2 Hp) as A2.
  split; [exact A1|]. split; [exact A2|].
  intros w args s stdout stderr j v H Hj Hv Hpods.
  destruct (kubectl_json_returns w "-n logging get pods" (kubeconfig args)
              (after_header "=== Loki / Promtail ===" s) H Hj)
    as (s1 & E & (Cp & Cf & Cw) & P).
  unfold after_header in Cp, Cf, Cw, P. cbn [passed failed warned printed] in *.
  unfold logging, kc. rewrite section_start.
  erewrite try_query_returns by exact E.
  unfold try_except, bind, lift, ok, warn, emit, incr_passed, incr_warned.
  rewrite Hv, Hpods. cbn [rbind]. rewrite A1, A2.
  eexists. split; [reflexivity|]. unfold prints. fields.
  rewrite P, Cp, Cf, Cw. rewrite <- !app_assoc.
  split; [reflexivity|]. repeat split; lia.
Qed.

Lemma promtail_pod_counts_as_loki_witness :
  is_loki (Cases.named_pod "loki-promtail-x7kq2" true) = Ok true
  /\ is_promtail (Cases.named_pod "loki-promtail-x7kq2" true) = Ok true
  /\ any_pod is_loki Cases.promtail_among_others = Ok true
  /\ exists s',
      logging (Cases.answering_json
                 (JObj [("items", JArr Cases.promtail_among_others)]))
              Sample.args0 initial = (Ok tt, s')
      /\ prints initial s'
                [Text ""; Header "=== Loki / Promtail ===";
                 Pass "Loki pod Running/Ready";
                 Pass "Promtail pod Running/Ready"]
      /\ passed s' = passed initial + 2.
Proof.
  destruct (@promtail_pod_counts_as_loki
              (Cases.named_pod "loki-promtail-x7kq2" true) "-x7kq2")
    as (Hl & Hp & Hscan); [reflexivity | reflexivity |].
  destruct (Hscan [Cases.named_pod "coredns-6799fbcd5-x2x4q" true] [JNull]
                  false false)
    as (A1 & _ & Hrun); [reflexivity | reflexivity |].
  destruct (Hrun (Cases.answering_json
                    (JObj [("items", JArr Cases.promtail_among_others)]))
                 Sample.args0 initial "{}" ""
                 (JObj [("items", JArr Cases.promtail_among_others)])
                 (JArr Cases.promtail_among_others))
    as (s' & E & P & Hc & _); [reflexivity | reflexivity | reflexivity
                              | reflexivity |].
  split; [exact Hl|]. split; [exact Hp|]. split; [exact A1|].
  exists s'. split; [exact E|]. split; [exact P | exact Hc].
Defined.

(** ** The DNS hints *)

(** X20: a DNS hint is a pass line exactly when the resolver returns the
    configured IP, character for character; any other address and any
    resolver error give a warn line; no counter moves either way. *)
Theorem dns_hint_verdict (w : World) (args : Namespace) (host : string)
        (s : state) :
  exists l s',
    dns_hint w args host s = (Ok tt, s')
    /\ prints s s' [l]
    /\ same_counters s s'
    /\ (is_pass l = true <-> gethostbyname w (clock s) host = Ok (ip args))
    /\ (is_warning l = true <-> gethostbyname w (clock s) host <> Ok (ip args)).
Proof.
  unfold dns_hint, try_except, bind, tick, lift, ok, warn, emit. fields.
  destruct (gethostbyname w (clock s) host) as [found|e].
  - destruct (String.eqb found (ip args)) eqn:Hf.
    + apply String.eqb_eq in Hf. subst found.
      do 2 eexists. split; [reflexivity|]. split; [reflexivity|].
      split; [now repeat split|]. split.
      * split; reflexivity || auto.
      * split; [discriminate | intros Hne; now destruct Hne].
    + apply String.eqb_neq in Hf.
      do 2 eexists. split; [reflexivity|]. split; [reflexivity|].
      split; [now repeat split|]. split.
      * split; [discriminate | intros Heq; injection Heq as ->; congruence].
      * split; [intros _ Heq; injection Heq as ->; congruence | reflexivity].
  - do 2 eexists. split; [reflexivity|]. split; [reflexivity|].
    split; [now repeat split|]. split.
    + split; discriminate.
    + split; [intros _; discriminate | reflexivity].
Qed.

Lemma dns_hint_verdict_witness :
  exists l s',
    dns_hint (Cases.resolving "192.168.2.60") Sample.args0 "argocd.pizza"
             initial = (Ok tt, s')
    /\ prints initial s' [l] /\ is_pass l = true.
Proof.
  destruct (dns_hint_verdict (Cases.resolving "192.168.2.60") Sample.args0
              "argocd.pizza" initial)
    as (l & s' & E & P & _ & Hpass & _).
  exists l, s'. split; [exact E|]. split; [exact P|].
  apply Hpass. reflexivity.
Defined.

(** ** The Failed number of the summary *)

Lemma fail_lines_refl (s : state) : fail_lines_counted s s.
Proof.
  exists []. split; [apply prints_refl|]. unfold count. simpl. lia.
Qed.

Lemma fail_lines_trans (a b c : state) :
  fail_lines_counted a b -> fail_lines_counted b c ->
  fail_lines_counted a c.
Proof.
  intros (l1 & P1 & Hf1 & Hp1 & Hw1) (l2 & P2 & Hf2 & Hp2 & Hw2).
  exists (l1 ++ l2)%list. split; [eapply prints_trans; eauto|].
  rewrite !count_app. lia.
Qed.

Lemma fail_lines_emit (l : line) :
  is_failure l = false -> keeps fail_lines_counted (emit l).
Proof.
  intros Hf s. exists [l]. split; [reflexivity|].
  unfold count. cbn [filter snd emit failed passed warned].
  rewrite Hf. destruct (is_pass l); destruct (is_warning l);
    cbn [List.length]; lia.
Qed.

Lemma fail_lines_silent A (m : M A) :
  (forall s, printed (snd (m s)) = printed s
             /\ same_counters s (snd (m s))) ->
  keeps fail_lines_counted m.
Proof.
  intros H s. destruct (H s) as (Hp & Hc1 & Hc2 & Hc3).
  exists []. split; [unfold prints; now rewrite Hp, app_nil_r|].
  unfold count. simpl. lia.
Qed.

Lemma fail_lines_pass (msg : string) :
  keeps fail_lines_counted (bind (ok msg) (fun _ => incr_passed)).
Proof.
  intros s. exists [Pass msg]. split; [reflexivity|].
  unfold count. simpl. lia.
Qed.

Lemma fail_lines_fail (msg : string) :
  keeps fail_lines_counted (bind (fail msg) (fun _ => incr_failed)).
Proof.
  intros s. exists [Failure msg]. split; [reflexivity|].
  unfold count. simpl. lia.
Qed.

Lemma fail_lines_warn (msg : string) :
  keeps fail_lines_counted (bind (warn msg) (fun _ => incr_warned)).
Proof.
  intros s. exists [Warning msg]. split; [reflexivity|].
  unfold count. simpl. lia.
Qed.

Lemma summary_lines_plain (args : Namespace) (p wn f : Z) :
  count is_failure (summary_lines args p wn f) = 0
  /\ count is_pass (summary_lines args p wn f) = 0
  /\ count is_warning (summary_lines args p wn f) = 0.
Proof.
  unfold summary_lines. destruct (f =? 0); repeat split; reflexivity.
Qed.

Lemma fail_lines_summary (args : Namespace) :
  keeps fail_lines_counted (summary args).
Proof.
  intros s. unfold summary. rewrite for_each_emit. cbn [snd].
  exists (summary_lines args (passed s) (warned s) (failed s)).
  split; [reflexivity|]. fields.
  destruct (summary_lines_plain args (passed s) (warned s) (failed s))
    as (-> & -> & ->). lia.
Qed.

Ltac fail_lines_leaf :=
  first [ apply fail_lines_pass | apply fail_lines_fail
        | apply fail_lines_warn
        | apply (keeps_pair_then fail_lines_trans); [apply fail_lines_pass|]
        | apply (keeps_pair_then fail_lines_trans); [apply fail_lines_fail|]
        | apply (keeps_pair_then fail_lines_trans); [apply fail_lines_warn|]
        | apply fail_lines_summary
        | match goal with
          | |- keeps _ tick => idtac
          | |- keeps _ (record_proc _) => idtac
          end; apply fail_lines_silent; intros; now repeat split
        | match goal with
          | |- keeps _ (ok _) => idtac
          | |- keeps _ (warn _) => idtac
          | |- keeps _ (print _) => idtac
          | |- keeps _ (info _) => idtac
          end; apply fail_lines_emit; reflexivity ].

Lemma fail_lines_sections (w : World) (args : Namespace) :
  Forall (fun c : M unit => keeps fail_lines_counted c)
         (kubeconfig_check w args
          :: checks w args ++ [dns_hints w args; summary args]).
Proof.
  unfold checks, kubeconfig_check, api_readyz, node_health, core_pods,
    namespaces, argo_cd, monitoring, logging, whoami_app, dns_hints, dns_hint.
  cbn [app].
  repeat apply Forall_cons; try apply Forall_nil;
    open_helpers; walk fail_lines_refl fail_lines_trans fail_lines_leaf.
Qed.

(** X21: over the whole run, also one that an exception ends, [failed]
    grows by exactly the number of fail lines printed, while [passed] and
    [warned] grow by at most the number of pass and warn lines: the Failed
    number of the summary is the number of fail lines on the output. *)
Theorem failed_counts_fail_lines (w : World) (args : Namespace) (s : state) :
  exists ls,
    prints s (snd (main w args s)) ls
    /\ failed (snd (main w args s)) = failed s + count is_failure ls
    /\ passed (snd (main w args s)) <= passed s + count is_pass ls
    /\ warned (snd (main w args s)) <= warned s + count is_warning ls.
Proof.
  pose proof (fail_lines_sections w args) as H. unfold checks in H.
  cbn [app] in H.
  repeat match type of H with
         | Forall _ (_ :: _) =>
             let Hc := fresh "Hc" in
             apply Forall_cons_iff in H; destruct H as [Hc H]
         end.
  assert (Hmain : keeps fail_lines_counted (main w args)).
  { unfold main.
    walk fail_lines_refl fail_lines_trans
         ltac:(first [ assumption | fail_lines_leaf ]). }
  exact (Hmain s).
Qed.
